(** * Leaf-splitting simulation: a shallow embedding of [leaf_splitting_sim.py]

    The engine [simulate] keeps a histogram of block occupancies (a Python
    [dict] from size to count, iterated in insertion order), samples one
    block per batch, applies one of four split policies and folds the
    outcome into running counters.  Python integers are unbounded and are
    modelled by [Z]; Python floats are IEEE binary64 values and are modelled
    by [spec_float] with the operations of [SpecFloat] at precision 53 and
    maximal exponent 1024; Python exceptions are values of [exn]; the two
    [while] loops of the policies are given a fuel argument, and running out
    of it is the separate outcome [OutOfFuel].

    The task functions of [leaf_splitting_sim_slurm.py], which decode a
    SLURM task id into a seed, a batch size and a split fraction and call
    [simulate], follow the engine. *)

From Stdlib Require Import ZArith List String Bool Lia.
From Stdlib Require Import SpecFloat.
Import ListNotations.

#[local] Open Scope Z_scope.

(** ** Outcomes: a value, a Python exception, or an exhausted fuel budget *)

Inductive exn : Type :=
| AssertionError
| ValueError
| OverflowError
| ZeroDivisionError
| KeyError
| IndexError.

Inductive outcome (A : Type) : Type :=
| Done (a : A)
| Raised (e : exn)
| OutOfFuel.

Arguments Done {A} a.
Arguments Raised {A} e.
Arguments OutOfFuel {A}.

Definition bind {A B : Type} (c : outcome A) (k : A -> outcome B) : outcome B :=
  match c with
  | Done a => k a
  | Raised e => Raised e
  | OutOfFuel => OutOfFuel
  end.

Notation "x <- c ;; k" := (bind c (fun x => k))
  (at level 61, c at next level, right associativity).
Notation "' pat <- c ;; k" := (bind c (fun x => match x with pat => k end))
  (at level 61, pat pattern, c at next level, right associativity).

(** ** Python floats (IEEE binary64) *)

Module PyFloat.

Definition prec : Z := 53.
Definition emax : Z := 1024.

Definition float : Type := spec_float.

(** [float(n)] for a Python int: the nearest double, ties to even;
    [OverflowError] when [n] is too large to convert. *)
Definition of_int (n : Z) : outcome float :=
  match binary_normalize prec emax n 0 false with
  | S754_infinity _ => Raised OverflowError
  | x => Done x
  end.

Definition mul (x y : float) : float := SFmul prec emax x y.
Definition sub (x y : float) : float := SFsub prec emax x y.

(** [p * n] with [p] a float and [n] an int: [n] is converted first. *)
Definition mul_int (p : float) (n : Z) : outcome float :=
  x <- of_int n ;;
  Done (mul p x).

(** [math.floor]: the largest integer that is not above the value. *)
Definition floor (x : float) : outcome Z :=
  match x with
  | S754_nan => Raised ValueError
  | S754_infinity _ => Raised OverflowError
  | S754_zero _ => Done 0
  | S754_finite s m e =>
      let z := cond_Zopp s (Zpos m) in
      Done (if 0 <=? e then z * 2 ^ e else z / 2 ^ (- e))
  end.

(** [math.ceil]: the smallest integer that is not below the value. *)
Definition ceil (x : float) : outcome Z :=
  match x with
  | S754_nan => Raised ValueError
  | S754_infinity _ => Raised OverflowError
  | S754_zero _ => Done 0
  | S754_finite s m e =>
      let z := cond_Zopp s (Zpos m) in
      Done (if 0 <=? e then z * 2 ^ e else - ((- z) / 2 ^ (- e)))
  end.

(** [round(x)] with one argument: the nearest integer, ties to even. *)
Definition round (x : float) : outcome Z :=
  match x with
  | S754_nan => Raised ValueError
  | S754_infinity _ => Raised OverflowError
  | S754_zero _ => Done 0
  | S754_finite s m e =>
      let z := cond_Zopp s (Zpos m) in
      if 0 <=? e then Done (z * 2 ^ e)
      else
        let d := 2 ^ (- e) in
        let q := z / d in
        let rem := z mod d in
        Done (if 2 * rem <? d then q
              else if d <? 2 * rem then q + 1
              else if Z.even q then q else q + 1)
  end.

(** [a / b] on two Python ints: the correctly rounded quotient; a zero
    quotient takes the sign of the divisor. *)
Definition int_true_div (a b : Z) : outcome float :=
  match b with
  | Z0 => Raised ZeroDivisionError
  | _ =>
      match a with
      | Z0 => Done (S754_zero (b <? 0))
      | _ =>
          match SFdiv prec emax (S754_finite (a <? 0) (Z.to_pos (Z.abs a)) 0)
                                (S754_finite (b <? 0) (Z.to_pos (Z.abs b)) 0) with
          | S754_infinity _ => Raised OverflowError
          | x => Done x
          end
      end
  end.

Definition zero : float := S754_zero false.
Definition one : float := S754_finite false 4503599627370496 (-52).

(** The largest double, [(2^53 - 1) * 2^971], as an integer. *)
Definition dbl_max : Z := (2 ^ 53 - 1) * 2 ^ 971.

(** Neither an infinity nor a NaN. *)
Definition is_finite (x : float) : bool :=
  match x with
  | S754_zero _ | S754_finite _ _ _ => true
  | S754_infinity _ | S754_nan => false
  end.

(** Strict order on floats; false when either side is a NaN. *)
Definition ltb (x y : float) : bool := SFltb x y.

(** [x <= y] on floats; false when either side is a NaN. *)
Definition leb (x y : float) : bool := SFleb x y.

(** A float of the open unit interval, in canonical form. *)
Definition in_unit_interval (p : float) : Prop :=
  match p with
  | S754_finite false m e =>
      valid_binary prec emax p = true /\ Zpos (digits2_pos m) + e <= 0
  | _ => False
  end.

Definition half : float := S754_finite false 4503599627370496 (-53).
Definition quarter : float := S754_finite false 4503599627370496 (-54).
(** [0.3] as Python reads the literal. *)
Definition three_tenths : float := S754_finite false 5404319552844595 (-54).

End PyFloat.

(** ** The size histogram

    [size_counts] is a Python [dict] from block size to the number of blocks
    of that size.  The cumulative walk of [sample_block] follows the
    insertion order of the keys, so the dictionary is an association list in
    that order: an assignment to a key that is present keeps its place, a new
    key goes to the end, [del] takes the entry out. *)

Definition histogram : Type := list (Z * Z).

Fixpoint hist_get (h : histogram) (size : Z) : option Z :=
  match h with
  | [] => None
  | (s, c) :: rest => if s =? size then Some c else hist_get rest size
  end.

(** [size_counts.get(size, 0)] *)
Definition hist_count (h : histogram) (size : Z) : Z :=
  match hist_get h size with
  | Some c => c
  | None => 0
  end.

(** [size_counts[size] = v] *)
Fixpoint hist_set (h : histogram) (size v : Z) : histogram :=
  match h with
  | [] => [(size, v)]
  | (s, c) :: rest =>
      if s =? size then (s, v) :: rest else (s, c) :: hist_set rest size v
  end.

(** [del size_counts[size]] *)
Fixpoint hist_del (h : histogram) (size : Z) : histogram :=
  match h with
  | [] => []
  | (s, c) :: rest =>
      if s =? size then rest else (s, c) :: hist_del rest size
  end.

Definition hist_keys (h : histogram) : list Z := map fst h.

(** [sum(size_counts.values())] *)
Definition hist_blocks (h : histogram) : Z :=
  fold_right (fun sc acc => snd sc + acc) 0 h.

(** [sum(count * size for size, count in size_counts.items())] *)
Definition hist_weight (h : histogram) : Z :=
  fold_right (fun sc acc => snd sc * fst sc + acc) 0 h.

(** [size_counts[old_size] -= 1], then [del] when the count reached zero. *)
Definition remove_block (h : histogram) (old_size : Z) : outcome histogram :=
  match hist_get h old_size with
  | None => Raised KeyError
  | Some c =>
      let h' := hist_set h old_size (c - 1) in
      if c - 1 =? 0 then Done (hist_del h' old_size) else Done h'
  end.

(** [size_counts[size] = size_counts.get(size, 0) + 1] *)
Definition add_block (h : histogram) (size : Z) : histogram :=
  hist_set h size (hist_count h size + 1).

(** [for size in new_blocks: ...] *)
Definition add_blocks (h : histogram) (new_blocks : list Z) : histogram :=
  fold_left add_block new_blocks h.

(** [max(size_counts.keys())]; the dictionary is not empty where it is used. *)
Definition max_key (h : histogram) : Z :=
  match hist_keys h with
  | [] => 0
  | k :: ks => fold_left Z.max ks k
  end.

(** ** Sampling

    The generator of the [random] module is an oracle: [raw] is the value it
    hands out for this draw, and [randbelow k raw] is the draw reduced to
    [0 .. k-1].  [random.randint(0, w - 1)] and [random.choice(sizes)] are
    both one such draw. *)

Definition randbelow (k raw : Z) : Z := raw mod k.

(** The [for size, count in size_counts.items()] loop of [sample_block]. *)
Fixpoint sample_walk (items : histogram) (cumsum rand_val : Z) : option (Z * Z) :=
  match items with
  | [] => None
  | (size, count) :: rest =>
      let cumsum := cumsum + count * size in
      if rand_val <? cumsum then
        let within_class := rand_val - (cumsum - count * size) in
        let position := if 0 <? size then within_class mod size else 0 in
        Some (size, position)
      else sample_walk rest cumsum rand_val
  end.

Definition sample_block (size_counts : histogram) (raw : Z) : outcome (Z * Z) :=
  let total_weight := hist_weight size_counts in
  if total_weight =? 0 then
    let sizes := hist_keys size_counts in
    match sizes with
    | [] => Raised IndexError
    | _ :: _ =>
        Done (nth (Z.to_nat (randbelow (Z.of_nat (List.length sizes)) raw)) sizes 0, 0)
    end
  else if total_weight <? 0 then Raised ValueError
  else
    let rand_val := randbelow total_weight raw in
    match sample_walk size_counts 0 rand_val with
    | Some sample => Done sample
    | None =>
        let max_size := max_key size_counts in
        Done (max_size, max_size / 2)
    end.

(** ** Counters *)

Record Stats : Type := mkStats {
  inserts : Z;
  splits : Z;
  moves : Z;
  blocks_tally : Z;
  elem_tally : Z;
  capacity_tally : Z
}.

(** The mutable state of one run: the histogram, [total_keys] and [stats]. *)
Record SimState : Type := mkState {
  size_counts : histogram;
  total_keys : Z;
  stats : Stats
}.

Definition init_state : SimState :=
  mkState [(0, 1)] 0 (mkStats 0 0 0 0 0 0).

(** The two dictionaries [simulate] can return. *)
Inductive Result : Type :=
| DeferredResult
    (method : string) (stats : Stats) (size_counts : histogram)
    (final_blocks : Z) (final_fullness time_avg_fullness : PyFloat.float)
    (total_insertions : Z) (k_H k_L mu : PyFloat.float) (r B : Z)
| PolicyResult
    (method : string) (stats : Stats) (size_counts : histogram)
    (final_blocks : Z) (final_fullness time_avg_fullness : PyFloat.float)
    (total_insertions : Z) (B r : Z) (p : PyFloat.float) (inserts splits : Z).

Definition res_method (res : Result) : string :=
  match res with
  | DeferredResult m _ _ _ _ _ _ _ _ _ _ _ => m
  | PolicyResult m _ _ _ _ _ _ _ _ _ _ _ => m
  end.

Definition res_stats (res : Result) : Stats :=
  match res with
  | DeferredResult _ s _ _ _ _ _ _ _ _ _ _ => s
  | PolicyResult _ s _ _ _ _ _ _ _ _ _ _ => s
  end.

Definition res_size_counts (res : Result) : histogram :=
  match res with
  | DeferredResult _ _ h _ _ _ _ _ _ _ _ _ => h
  | PolicyResult _ _ h _ _ _ _ _ _ _ _ _ => h
  end.

Definition res_final_blocks (res : Result) : Z :=
  match res with
  | DeferredResult _ _ _ fb _ _ _ _ _ _ _ _ => fb
  | PolicyResult _ _ _ fb _ _ _ _ _ _ _ _ => fb
  end.

Definition res_final_fullness (res : Result) : PyFloat.float :=
  match res with
  | DeferredResult _ _ _ _ ff _ _ _ _ _ _ _ => ff
  | PolicyResult _ _ _ _ ff _ _ _ _ _ _ _ => ff
  end.

Definition res_time_avg_fullness (res : Result) : PyFloat.float :=
  match res with
  | DeferredResult _ _ _ _ _ ta _ _ _ _ _ _ => ta
  | PolicyResult _ _ _ _ _ ta _ _ _ _ _ _ => ta
  end.

Definition res_total_insertions (res : Result) : Z :=
  match res with
  | DeferredResult _ _ _ _ _ _ n _ _ _ _ _ => n
  | PolicyResult _ _ _ _ _ _ n _ _ _ _ _ => n
  end.

(** ** The engine

    [B], [r], [p], [rounding] and [method] are the arguments of [simulate]
    that its inner functions close over.  [rand k] is the value the random
    generator hands out for the draw of batch [k] (each batch draws once), as
    fixed by the seed.  [fuel] bounds the iterations of each [while] loop. *)

Section Engine.

Variable B : Z.
Variable r : Z.
Variable p : PyFloat.float.
Variable rounding : string.
Variable rand : nat -> Z.

Definition split_size (n : Z) : outcome (Z * Z) :=
  raw <- PyFloat.mul_int p n ;;
  k <- (if String.eqb rounding "floor" then PyFloat.floor raw
        else if String.eqb rounding "ceil" then PyFloat.ceil raw
        else PyFloat.round raw) ;;
  let k := Z.max 1 (Z.min (n - 1) k) in
  Done (k, n - k).

(** The [while blocks_to_split] loop of [insert_deferred]:
    [pop(0)] takes the head, [append] adds at the tail. *)
Fixpoint deferred_loop (fuel : nat)
    (blocks_to_split resulting_blocks : list Z) (num_splits : Z)
    : outcome (list Z * Z) :=
  match blocks_to_split with
  | [] => Done (resulting_blocks, num_splits)
  | current_size :: blocks_to_split =>
      match fuel with
      | O => OutOfFuel
      | S fuel =>
          if current_size <? B then
            deferred_loop fuel blocks_to_split
              (resulting_blocks ++ [current_size]) num_splits
          else
            '(left_size, right_size) <- split_size current_size ;;
            let num_splits := num_splits + 1 in
            let '(blocks_to_split, resulting_blocks) :=
              if left_size >=? B
              then (blocks_to_split ++ [left_size], resulting_blocks)
              else (blocks_to_split, resulting_blocks ++ [left_size]) in
            let '(blocks_to_split, resulting_blocks) :=
              if right_size >=? B
              then (blocks_to_split ++ [right_size], resulting_blocks)
              else (blocks_to_split, resulting_blocks ++ [right_size]) in
            deferred_loop fuel blocks_to_split resulting_blocks num_splits
      end
  end.

Definition insert_deferred (fuel : nat) (block_size batch_size : Z)
    : outcome (list Z * Z) :=
  let new_size := block_size + batch_size in
  if new_size <? B then Done ([new_size], 0)
  else deferred_loop fuel [new_size] [] 0.

(** The split point of [insert_adaptive], the same in both of its
    splitting branches. *)
Definition adaptive_split (current_size insert_end_pos : Z) : outcome (Z * Z) :=
  raw_p <- PyFloat.mul_int p current_size ;;
  f <- PyFloat.floor raw_p ;;
  let p_split := Z.max 1 (Z.min (current_size - 1) f) in
  if insert_end_pos <? p_split
  then Done (p_split, current_size - p_split)
  else Done (current_size - p_split, p_split).

(** The split point of [insert_adaptive2], the same in both of its
    splitting branches. *)
Definition adaptive2_split (current_size insert_end_pos : Z) : outcome (Z * Z) :=
  raw_p <- PyFloat.mul_int p current_size ;;
  f <- PyFloat.floor raw_p ;;
  let p_split := Z.max 1 (Z.min (current_size - 1) f) in
  let one_minus_p_pos := current_size - p_split in
  if insert_end_pos >? one_minus_p_pos
  then Done (one_minus_p_pos, p_split)
  else Done (p_split, one_minus_p_pos).

(** [insert_immediately], [insert_adaptive] and [insert_adaptive2] are the
    same [while True] loop around three ways of computing
    [(left_size, right_size)]; [choose current_size insert_end_pos] is that
    computation. *)
Section FillLoop.

Variable choose : Z -> Z -> outcome (Z * Z).

Fixpoint fill_loop (fuel : nat)
    (current_size current_pos elements_remaining : Z)
    (resulting_blocks : list Z) (num_splits : Z)
    : outcome (list Z * Z) :=
  match fuel with
  | O => OutOfFuel
  | S fuel =>
      let space_available := B - current_size in
      if elements_remaining <? space_available then
        let current_size := current_size + elements_remaining in
        Done (resulting_blocks ++ [current_size], num_splits)
      else if elements_remaining =? space_available then
        let current_size := B in
        let elements_remaining := 0 in
        let insert_end_pos := current_pos + space_available in
        '(left_size, right_size) <- choose current_size insert_end_pos ;;
        if insert_end_pos <=? left_size then
          Done (resulting_blocks ++ [left_size] ++ [right_size], num_splits)
        else
          fill_loop fuel right_size (insert_end_pos - left_size)
            elements_remaining (resulting_blocks ++ [left_size])
            (num_splits + 1)
      else
        let elements_to_insert := space_available in
        let current_size := B in
        let elements_remaining := elements_remaining - elements_to_insert in
        let insert_end_pos := current_pos + elements_to_insert in
        '(left_size, right_size) <- choose current_size insert_end_pos ;;
        if insert_end_pos <=? left_size then
          fill_loop fuel left_size insert_end_pos elements_remaining
            (resulting_blocks ++ [right_size]) (num_splits + 1)
        else
          fill_loop fuel right_size (insert_end_pos - left_size)
            elements_remaining (resulting_blocks ++ [left_size])
            (num_splits + 1)
  end.

End FillLoop.

Definition insert_immediately (fuel : nat) (block_size insert_pos batch_size : Z)
    : outcome (list Z * Z) :=
  fill_loop (fun current_size _ => split_size current_size)
    fuel block_size insert_pos batch_size [] 0.

Definition insert_adaptive (fuel : nat) (block_size insert_pos batch_size : Z)
    : outcome (list Z * Z) :=
  fill_loop adaptive_split fuel block_size insert_pos batch_size [] 0.

Definition insert_adaptive2 (fuel : nat) (block_size insert_pos batch_size : Z)
    : outcome (list Z * Z) :=
  fill_loop adaptive2_split fuel block_size insert_pos batch_size [] 0.

Variable method : string.

(** The [if method == ...] chain of the main loop. *)
Definition insert_batch (fuel : nat) (old_size insert_pos : Z)
    : outcome (list Z * Z) :=
  if String.eqb method "deferred" then insert_deferred fuel old_size r
  else if String.eqb method "adaptive" then insert_adaptive fuel old_size insert_pos r
  else if String.eqb method "adaptive2" then insert_adaptive2 fuel old_size insert_pos r
  else if String.eqb method "immediately" then insert_immediately fuel old_size insert_pos r
  else Raised ValueError.

(** The statistics update that ends a batch. *)
Definition update_state (st : SimState) (size_counts : histogram)
    (num_splits : Z) : SimState :=
  let num_blocks := hist_blocks size_counts in
  let total_keys := total_keys st + r in
  let s := stats st in
  mkState size_counts total_keys
    (mkStats (inserts s + r)
             (splits s + num_splits)
             (moves s)
             (blocks_tally s + num_blocks * r)
             (elem_tally s + total_keys * r)
             (capacity_tally s + B * num_blocks * r)).

(** One iteration of [for batch_idx in range(num_batches)]. *)
Definition batch_step (fuel : nat) (batch_idx : nat) (st : SimState)
    : outcome SimState :=
  '(old_size, insert_pos) <- sample_block (size_counts st) (rand batch_idx) ;;
  size_counts <- remove_block (size_counts st) old_size ;;
  '(new_blocks, num_splits) <- insert_batch fuel old_size insert_pos ;;
  let size_counts := add_blocks size_counts new_blocks in
  Done (update_state st size_counts num_splits).

(** The state after the first [k] batches. *)
Fixpoint run_batches (fuel : nat) (k : nat) : outcome SimState :=
  match k with
  | O => Done init_state
  | S k' =>
      st <- run_batches fuel k' ;;
      batch_step fuel k' st
  end.

(** [sum(count for size, count in size_counts.items() if size > B - r)] *)
Definition high_count (h : histogram) : Z :=
  fold_right (fun sc acc => if fst sc >? B - r then snd sc + acc else acc) 0 h.

(** The final statistics and the returned dictionary. *)
Definition finish (n : Z) (st : SimState) : outcome Result :=
  let final_blocks := hist_blocks (size_counts st) in
  final_fullness <-
    (if final_blocks >? 0 then PyFloat.int_true_div n (B * final_blocks)
     else Done PyFloat.zero) ;;
  time_avg_fullness <-
    (if capacity_tally (stats st) >? 0
     then PyFloat.int_true_div (elem_tally (stats st)) (capacity_tally (stats st))
     else Done PyFloat.zero) ;;
  if String.eqb method "deferred" then
    frac_high <-
      (if final_blocks >? 0
       then PyFloat.int_true_div (high_count (size_counts st)) final_blocks
       else Done PyFloat.zero) ;;
    mu <-
      (if final_blocks >? 0
       then PyFloat.int_true_div (total_keys st) final_blocks
       else Done PyFloat.zero) ;;
    Done (DeferredResult method (stats st) (size_counts st) final_blocks
            final_fullness time_avg_fullness n
            frac_high (PyFloat.sub PyFloat.one frac_high) mu r B)
  else
    Done (PolicyResult method (stats st) (size_counts st) final_blocks
            final_fullness time_avg_fullness n B r p
            (inserts (stats st)) (splits (stats st))).

Definition simulate (fuel : nat) (total_insertions : Z) : outcome Result :=
  if r >=? 1 then
    let num_batches := total_insertions / r in
    let n := num_batches * r in
    st <- run_batches fuel (Z.to_nat num_batches) ;;
    finish n st
  else Raised AssertionError.

End Engine.

(** ** Reference notions the properties are stated with *)

(** The accepted method names. *)
Definition valid_method (method : string) : Prop :=
  method = "deferred"%string \/ method = "immediately"%string \/
  method = "adaptive"%string \/ method = "adaptive2"%string.

(** The work-queue cascade of the deferred policy as the specification words
    it: pop a candidate; below [B] it is final; otherwise split it, count the
    split, re-queue each child that is at least [B] and keep the others as
    final.  [FIFO] pops the oldest candidate, [LIFO] the newest. *)
Inductive discipline : Type := FIFO | LIFO.

Definition pop (d : discipline) (queue : list Z) : option (Z * list Z) :=
  match d with
  | FIFO =>
      match queue with
      | [] => None
      | s :: q => Some (s, q)
      end
  | LIFO =>
      match rev queue with
      | [] => None
      | s :: q => Some (s, rev q)
      end
  end.

Section Cascade.

Variable B : Z.
Variable p : PyFloat.float.
Variable rounding : string.

Definition requeued (children : list Z) : list Z :=
  filter (fun c => B <=? c) children.

Definition finished (children : list Z) : list Z :=
  filter (fun c => c <? B) children.

Inductive cascade (d : discipline)
    : list Z -> list Z -> Z -> list Z -> Z -> Prop :=
| cascade_empty out k :
    cascade d [] out k out k
| cascade_final queue s queue' out k res k' :
    pop d queue = Some (s, queue') ->
    s < B ->
    cascade d queue' (out ++ [s]) k res k' ->
    cascade d queue out k res k'
| cascade_split queue s queue' left_size right_size out k res k' :
    pop d queue = Some (s, queue') ->
    B <= s ->
    split_size p rounding s = Done (left_size, right_size) ->
    cascade d (queue' ++ requeued [left_size; right_size])
      (out ++ finished [left_size; right_size]) (k + 1) res k' ->
    cascade d queue out k res k'.

End Cascade.

(** The first occurrence of [x] taken out of a list of blocks. *)
Fixpoint remove_one (x : Z) (blocks : list Z) : list Z :=
  match blocks with
  | [] => []
  | y :: rest => if y =? x then rest else y :: remove_one x rest
  end.

Definition list_sum (l : list Z) : Z := fold_right Z.add 0 l.

Section Population.

Variable B : Z.
Variable r : Z.
Variable p : PyFloat.float.
Variable rounding : string.
Variable rand : nat -> Z.
Variable method : string.

(** The population the histogram stands for, block by block: one empty
    block at the start; each batch takes the sampled block out and puts the
    blocks the policy returns in. *)
Fixpoint block_population (fuel : nat) (k : nat) : outcome (list Z) :=
  match k with
  | O => Done [0]
  | S k' =>
      blocks <- block_population fuel k' ;;
      st <- run_batches B r p rounding rand method fuel k' ;;
      '(old_size, insert_pos) <- sample_block (size_counts st) (rand k') ;;
      '(new_blocks, _) <- insert_batch B r p rounding method fuel old_size insert_pos ;;
      Done (remove_one old_size blocks ++ new_blocks)
  end.

End Population.

(** The two children of a split, exchanged. *)
Definition mirrored (children : Z * Z) : Z * Z := (snd children, fst children).

(** [1 - p] as Python computes it. *)
Definition complement (p : PyFloat.float) : PyFloat.float :=
  PyFloat.sub PyFloat.one p.

(** A generator that always hands out [0]. *)
Definition rand_zero : nat -> Z := fun _ => 0.

(** A generator that hands out a different value for each batch. *)
Definition rand_lcg : nat -> Z := fun k => Z.of_nat k * 7919 + 13.

(** Well-formed histograms: keys are distinct, as in a dictionary, and no
    entry with a zero or negative count is kept. *)
Definition hist_wf (h : histogram) : Prop :=
  NoDup (hist_keys h) /\ Forall (fun sc => 0 < snd sc) h.

(** Every key of the histogram satisfies [P]. *)
Definition keys_all (P : Z -> Prop) (h : histogram) : Prop :=
  Forall (fun sc => P (fst sc)) h.

(** What the three position-sensitive policies need of the way they compute
    [(left_size, right_size)]: it never loops, and the children add up to
    the block that is split and are inside it. *)
Definition splits_block (choose : Z -> Z -> outcome (Z * Z)) : Prop :=
  forall size e,
    choose size e <> OutOfFuel /\
    forall l rr, choose size e = Done (l, rr) ->
      l + rr = size /\
      (2 <= size -> 1 <= l <= size - 1) /\
      (1 <= size -> 0 <= l <= size).

(** Two blocks of three elements and one of five. *)
Definition example_histogram : histogram := [(3, 2); (5, 1)].

(** ** The task runner ([leaf_splitting_sim_slurm.py])

    A SLURM array job calls [run_single_task] once per task id; the task id
    is decoded into positions of the seed, [r] and [p] lists of the
    configuration.  The configuration is the dictionary read from the JSON
    file: the keys read with [config[...]] are fields, the keys read with
    [config.get(..., default)] are optional fields. *)

(** [a // b] and [a % b] on Python ints. *)
Definition py_floordiv (a b : Z) : outcome Z :=
  if b =? 0 then Raised ZeroDivisionError else Done (a / b).

Definition py_mod (a b : Z) : outcome Z :=
  if b =? 0 then Raised ZeroDivisionError else Done (a mod b).

(** [l[i]] on a Python list: a negative index counts from the end. *)
Definition py_index {A : Type} (l : list A) (i : Z) : outcome A :=
  let n := Z.of_nat (List.length l) in
  let i := if i <? 0 then i + n else i in
  if (i <? 0) || (n <=? i) then Raised IndexError
  else
    match nth_error l (Z.to_nat i) with
    | Some x => Done x
    | None => Raised IndexError
    end.

(** [list(range(start, stop, step))] *)
Definition py_range (start stop step : Z) : outcome (list Z) :=
  if step =? 0 then Raised ValueError
  else
    let n := if 0 <? step then (stop - start + step - 1) / step
             else (start - stop - step - 1) / (- step) in
    Done (map (fun i => start + Z.of_nat i * step) (seq 0 (Z.to_nat n))).

(** [for x in l: ... results.append(body(x))]: the rows in the order of
    [l], or the first exception. *)
Fixpoint for_each {A R : Type} (body : A -> outcome R) (l : list A)
    : outcome (list R) :=
  match l with
  | [] => Done []
  | x :: l =>
      y <- body x ;;
      ys <- for_each body l ;;
      Done (y :: ys)
  end.

Module PyMath.

(** [math.sqrt(n)] for a Python int: [n] is converted to a float first. *)
Definition sqrt_int (n : Z) : outcome PyFloat.float :=
  x <- PyFloat.of_int n ;;
  if n <? 0 then Raised ValueError
  else Done (SFsqrt PyFloat.prec PyFloat.emax x).

Definition add (x y : PyFloat.float) : PyFloat.float :=
  SFadd PyFloat.prec PyFloat.emax x y.

(** [int(x)] for a float: truncation towards zero. *)
Definition int_of_float (x : PyFloat.float) : outcome Z :=
  match x with
  | S754_nan => Raised ValueError
  | S754_infinity _ => Raised OverflowError
  | S754_zero _ => Done 0
  | S754_finite s m e =>
      let z := cond_Zopp s (Zpos m) in
      Done (if 0 <=? e then z * 2 ^ e else Z.quot z (2 ^ (- e)))
  end.

End PyMath.

Record Config : Type := mkConfig {
  cfg_B : Z;
  cfg_method : string;
  cfg_r_list : list Z;
  cfg_p_list : list PyFloat.float;
  cfg_seeds : list Z;
  cfg_total_insertions : option Z;
  cfg_insertion_scale : option string;
  cfg_base_insertions : option Z;
  cfg_rounding : option string;
  cfg_batch_by_r : option bool;
  cfg_batch_by_p : option bool
}.

(** [config.get(key, default)] *)
Definition dict_get {A : Type} (field : option A) (default : A) : A :=
  match field with
  | Some v => v
  | None => default
  end.

(** One line of the result file. *)
Record Row : Type := mkRow {
  row_task_id : Z;
  row_B : Z;
  row_r : Z;
  row_alpha : PyFloat.float;
  row_p : PyFloat.float;
  row_seed : Z;
  row_fullness : PyFloat.float;
  row_time_avg_fullness : PyFloat.float
}.

(** What [run_single_task] returns: a dict or a list of dicts. *)
Inductive TaskResult : Type :=
| OneRow (row : Row)
| Rows (rows : list Row).

(** The [if insertion_scale == 'sqrt' ... else] block that the three task
    functions share. *)
Definition scaled_insertions (config : Config) (r : Z) : outcome Z :=
  let total_insertions := cfg_total_insertions config in
  let insertion_scale := dict_get (cfg_insertion_scale config) "fixed"%string in
  let base_insertions := dict_get (cfg_base_insertions config) 100000 in
  if String.eqb insertion_scale "sqrt" then
    root <- PyMath.sqrt_int r ;;
    scaled <- PyFloat.mul_int (PyMath.add root PyFloat.one) base_insertions ;;
    PyMath.int_of_float scaled
  else if String.eqb insertion_scale "linear" then Done (r * base_insertions)
  else
    Done (match total_insertions with
          | Some t => if t =? 0 then base_insertions else t
          | None => base_insertions
          end).

Section Runner.

(** Every [simulate] call reseeds the generator, and what the generator
    hands out depends on the seed and on the ranges it is asked for, which
    are the multiples of the batch size: [rng sd r] is the stream of draws of
    a run seeded with [sd] whose batches have size [r].  [fuel] bounds the
    loops of every [simulate] call. *)
Variable rng : Z -> Z -> nat -> Z.
Variable fuel : nat.

(** The [simulate(...)] call of the three task functions. *)
Definition simulate_task (config : Config) (r total_ins : Z)
    (p_val : PyFloat.float) (sd : Z) : outcome Result :=
  simulate (cfg_B config) r p_val (dict_get (cfg_rounding config) "floor"%string)
    (rng sd r) (cfg_method config) fuel total_ins.

(** The dictionary built from a result. *)
Definition result_row (config : Config) (task_id r : Z) (alpha p_val : PyFloat.float)
    (sd : Z) (result : Result) : Row :=
  mkRow task_id (cfg_B config) r alpha p_val sd
    (res_final_fullness result) (res_time_avg_fullness result).

(** [run_task_single_combination] once the task id is decoded. *)
Definition single_row (config : Config) (task_id sd r : Z) (p_val : PyFloat.float)
    : outcome Row :=
  total_ins <- scaled_insertions config r ;;
  result <- simulate_task config r total_ins p_val sd ;;
  alpha <- PyFloat.int_true_div r (cfg_B config) ;;
  Done (result_row config task_id r alpha p_val sd result).

Definition run_task_single_combination (task_id : Z) (config : Config)
    : outcome Row :=
  let r_list := cfg_r_list config in
  let p_list := cfg_p_list config in
  let seeds := cfg_seeds config in
  let total_r := Z.of_nat (List.length r_list) in
  let total_p := Z.of_nat (List.length p_list) in
  seed_idx <- py_floordiv task_id (total_r * total_p) ;;
  remainder <- py_mod task_id (total_r * total_p) ;;
  r_idx <- py_floordiv remainder total_p ;;
  p_idx <- py_mod remainder total_p ;;
  if seed_idx >=? Z.of_nat (List.length seeds) then Raised ValueError
  else
    sd <- py_index seeds seed_idx ;;
    r <- py_index r_list r_idx ;;
    p_val <- py_index p_list p_idx ;;
    single_row config task_id sd r p_val.

(** [run_task_batch_by_r] once the task id is decoded: one row per [p]. *)
Definition rows_by_r (config : Config) (task_id sd r : Z) : outcome (list Row) :=
  total_ins <- scaled_insertions config r ;;
  alpha <- PyFloat.int_true_div r (cfg_B config) ;;
  for_each
    (fun p_val =>
       result <- simulate_task config r total_ins p_val sd ;;
       Done (result_row config task_id r alpha p_val sd result))
    (cfg_p_list config).

Definition run_task_batch_by_r (task_id : Z) (config : Config)
    : outcome (list Row) :=
  let r_list := cfg_r_list config in
  let seeds := cfg_seeds config in
  let total_r := Z.of_nat (List.length r_list) in
  seed_idx <- py_floordiv task_id total_r ;;
  r_idx <- py_mod task_id total_r ;;
  if seed_idx >=? Z.of_nat (List.length seeds) then Raised ValueError
  else
    sd <- py_index seeds seed_idx ;;
    r <- py_index r_list r_idx ;;
    rows_by_r config task_id sd r.

(** [run_task_batch_by_p] once the task id is decoded: one row per [r]. *)
Definition rows_by_p (config : Config) (task_id sd : Z) (p_val : PyFloat.float)
    : outcome (list Row) :=
  for_each
    (fun r =>
       total_ins <- scaled_insertions config r ;;
       alpha <- PyFloat.int_true_div r (cfg_B config) ;;
       result <- simulate_task config r total_ins p_val sd ;;
       Done (result_row config task_id r alpha p_val sd result))
    (cfg_r_list config).

Definition run_task_batch_by_p (task_id : Z) (config : Config)
    : outcome (list Row) :=
  let p_list := cfg_p_list config in
  let seeds := cfg_seeds config in
  let total_p := Z.of_nat (List.length p_list) in
  seed_idx <- py_floordiv task_id total_p ;;
  p_idx <- py_mod task_id total_p ;;
  if seed_idx >=? Z.of_nat (List.length seeds) then Raised ValueError
  else
    sd <- py_index seeds seed_idx ;;
    p_val <- py_index p_list p_idx ;;
    rows_by_p config task_id sd p_val.

Definition run_single_task (task_id : Z) (config : Config) : outcome TaskResult :=
  let batch_by_r := dict_get (cfg_batch_by_r config) true in
  let batch_by_p := dict_get (cfg_batch_by_p config) false in
  if batch_by_r then
    rows <- run_task_batch_by_r task_id config ;; Done (Rows rows)
  else if batch_by_p then
    rows <- run_task_batch_by_p task_id config ;; Done (Rows rows)
  else
    row <- run_task_single_combination task_id config ;; Done (OneRow row).

End Runner.

(** The number of tasks [generate_config] announces for the array job. *)
Definition total_tasks (batch_by_r batch_by_p : bool)
    (seeds r_list : list Z) (p_list : list PyFloat.float) : Z :=
  if batch_by_r then
    Z.of_nat (List.length seeds) * Z.of_nat (List.length r_list)
  else if batch_by_p then
    Z.of_nat (List.length seeds) * Z.of_nat (List.length p_list)
  else
    Z.of_nat (List.length seeds) * Z.of_nat (List.length r_list)
      * Z.of_nat (List.length p_list).

(** The [r_list] of [generate_config] when none is given:
    [list(range(1, B, 4))]. *)
Definition default_r_list (B : Z) : outcome (list Z) := py_range 1 B 4.

(** The [r_list] the [config] command builds from its arguments; an absent
    or zero [--r_max] stands for [B - 1]. *)
Definition cli_r_list (B r_min : Z) (r_max : option Z) (r_step : Z)
    : outcome (list Z) :=
  let r_max := match r_max with
               | Some m => if m =? 0 then B - 1 else m
               | None => B - 1
               end in
  py_range r_min (r_max + 1) r_step.

(** The batching flags the [config] command passes on. *)
Definition cli_batch_flags (batch_by_r batch_by_p : bool) : bool * bool :=
  let batch_by_r :=
    if negb batch_by_r && negb batch_by_p then true else batch_by_r in
  (batch_by_r, batch_by_p).

(** The lengths of the three lists of a configuration. *)
Definition n_seeds (config : Config) : Z := Z.of_nat (List.length (cfg_seeds config)).
Definition n_r (config : Config) : Z := Z.of_nat (List.length (cfg_r_list config)).
Definition n_p (config : Config) : Z := Z.of_nat (List.length (cfg_p_list config)).

(** A generator for the examples: the draws depend on the seed and on the
    batch size. *)
Definition example_rng : Z -> Z -> nat -> Z := fun sd r k => sd * r + rand_lcg k.

(** A configuration for the examples: three seeds, two batch sizes, two
    split fractions. *)
Definition example_config : Config :=
  mkConfig 10 "immediately" [3; 7] [PyFloat.three_tenths; PyFloat.half]
    [11; 22; 33] None (Some "linear"%string) (Some 5) None None None.

(** * Properties *)

(** ** Outcomes *)

Lemma bind_Done {A C : Type} (c : outcome A) (k : A -> outcome C) (v : C) :
  bind c k = Done v -> exists a, c = Done a /\ k a = Done v.
Proof.
  destruct c as [a | e | ]; simpl; intros H; try discriminate.
  exists a; split; [reflexivity | exact H].
Qed.

Lemma bind_OutOfFuel {A C : Type} (c : outcome A) (k : A -> outcome C) :
  bind c k = OutOfFuel ->
  c = OutOfFuel \/ exists a, c = Done a /\ k a = OutOfFuel.
Proof.
  destruct c as [a | e | ]; simpl; intros H; try discriminate.
  - right; exists a; split; [reflexivity | exact H].
  - left; reflexivity.
Qed.

(** Inverts a hypothesis [bind c k = Done v]. *)
Ltac bind_inv H :=
  let a := fresh "a" in
  let Ha := fresh "Ha" in
  apply bind_Done in H; destruct H as [a [Ha H]].

(** ** Floats: nothing overflows below the largest double *)

Lemma digits2_pos_bounds (m : positive) :
  2 ^ (Zpos (digits2_pos m) - 1) <= Zpos m < 2 ^ Zpos (digits2_pos m).
Proof.
  induction m as [m IH | m IH |]; cbn [digits2_pos].
  - rewrite Pos2Z.inj_succ.
    replace (Z.succ (Zpos (digits2_pos m)) - 1) with (Z.succ (Zpos (digits2_pos m) - 1)) by lia.
    rewrite !Z.pow_succ_r by lia. lia.
  - rewrite Pos2Z.inj_succ.
    replace (Z.succ (Zpos (digits2_pos m)) - 1) with (Z.succ (Zpos (digits2_pos m) - 1)) by lia.
    rewrite !Z.pow_succ_r by lia. lia.
  - simpl. lia.
Qed.

Lemma Zdigits2_nonneg m : 0 <= Zdigits2 m.
Proof. destruct m; simpl; lia. Qed.

Lemma Zdigits2_upper m : 0 <= m -> m < 2 ^ Zdigits2 m.
Proof.
  destruct m as [| q | q]; simpl; intros H; [lia | | lia].
  apply digits2_pos_bounds.
Qed.

Lemma Zdigits2_le m k : 0 <= m -> 0 <= k -> m < 2 ^ k -> Zdigits2 m <= k.
Proof.
  destruct m as [| q | q]; simpl; intros Hm Hk Hlt; [lia | | lia].
  pose proof (digits2_pos_bounds q) as [Hlow _].
  destruct (Z.le_gt_cases (Zpos (digits2_pos q)) k) as [| Hgt]; [assumption |].
  assert (2 ^ k <= 2 ^ (Zpos (digits2_pos q) - 1)) by (apply Z.pow_le_mono_r; lia).
  lia.
Qed.

Lemma shr_1_div mrs : 0 <= shr_m mrs -> shr_m (shr_1 mrs) = shr_m mrs / 2.
Proof.
  destruct mrs as [m rb sb]. cbn [shr_m]. intros Hm.
  rewrite <- Z.div2_div.
  destruct m as [| [q | q |] | q]; try reflexivity; lia.
Qed.

Lemma iter_pos_shr_1 (n : positive) : forall mrs,
  0 <= shr_m mrs ->
  shr_m (iter_pos shr_1 n mrs) = shr_m mrs / 2 ^ Zpos n.
Proof.
  assert (Hpow : forall q, 0 < 2 ^ Zpos q) by (intros q; apply Z.pow_pos_nonneg; lia).
  induction n as [n IH | n IH |]; intros mrs Hm; cbn [iter_pos].
  - assert (H1 : 0 <= shr_m (shr_1 mrs)).
    { rewrite shr_1_div by assumption. apply Z.div_pos; lia. }
    assert (H2 : 0 <= shr_m (iter_pos shr_1 n (shr_1 mrs))).
    { rewrite IH by assumption. apply Z.div_pos; [assumption | apply Hpow]. }
    rewrite IH, IH, shr_1_div by assumption.
    pose proof (Hpow n).
    rewrite !Z.div_div by lia.
    f_equal. change 2 with (2 ^ 1) at 1.
    rewrite <- !Z.pow_add_r by lia. f_equal. lia.
  - assert (H2 : 0 <= shr_m (iter_pos shr_1 n mrs)).
    { rewrite IH by assumption. apply Z.div_pos; [assumption | apply Hpow]. }
    rewrite IH, IH by assumption.
    pose proof (Hpow n).
    rewrite !Z.div_div by lia.
    f_equal. rewrite <- !Z.pow_add_r by lia. f_equal. lia.
  - rewrite shr_1_div by assumption. reflexivity.
Qed.

Lemma shr_record_of_loc_m m l : shr_m (shr_record_of_loc m l) = m.
Proof. destruct l as [| []]; reflexivity. Qed.

(** [shr_fexp] keeps the mantissa or divides it by a power of two, and
    moves the exponent accordingly. *)
Lemma shr_fexp_spec m e l :
  0 <= m ->
  let n := fexp PyFloat.prec PyFloat.emax (Zdigits2 m + e) - e in
  shr_m (fst (shr_fexp PyFloat.prec PyFloat.emax m e l)) =
    (if 0 <? n then m / 2 ^ n else m) /\
  snd (shr_fexp PyFloat.prec PyFloat.emax m e l) =
    (if 0 <? n then e + n else e).
Proof.
  intros Hm n. unfold shr_fexp. fold n. unfold shr.
  destruct n as [| q | q]; cbn [fst snd].
  - rewrite shr_record_of_loc_m. split; reflexivity.
  - rewrite iter_pos_shr_1 by (rewrite shr_record_of_loc_m; assumption).
    rewrite shr_record_of_loc_m. split; reflexivity.
  - rewrite shr_record_of_loc_m. split; reflexivity.
Qed.

Lemma round_nearest_even_bounds m l :
  m <= round_nearest_even m l <= m + 1.
Proof.
  destruct l as [| []]; simpl; try lia. destruct (Z.even m); lia.
Qed.

Lemma fexp_le_971 k : k <= 1024 -> fexp PyFloat.prec PyFloat.emax k <= 971.
Proof. unfold fexp, emin, PyFloat.prec, PyFloat.emax. lia. Qed.

(** The two shifts of [binary_round_aux] spelled out on integers. *)
Lemma binary_round_aux_cases s mx ex lx :
  0 <= mx ->
  let n := fexp PyFloat.prec PyFloat.emax (Zdigits2 mx + ex) - ex in
  let m1 := if 0 <? n then mx / 2 ^ n else mx in
  let e1 := if 0 <? n then ex + n else ex in
  exists m2,
    m1 <= m2 <= m1 + 1 /\
    let n2 := fexp PyFloat.prec PyFloat.emax (Zdigits2 m2 + e1) - e1 in
    let m3 := if 0 <? n2 then m2 / 2 ^ n2 else m2 in
    let e3 := if 0 <? n2 then e1 + n2 else e1 in
    binary_round_aux PyFloat.prec PyFloat.emax s mx ex lx =
    match m3 with
    | Z0 => S754_zero s
    | Zpos m => if e3 <=? 971 then S754_finite s m e3 else S754_infinity s
    | Zneg _ => S754_nan
    end.
Proof.
  intros Hmx n m1 e1.
  destruct (shr_fexp_spec mx ex lx Hmx) as [Hm1 He1].
  fold n in Hm1, He1. fold m1 in Hm1. fold e1 in He1.
  unfold binary_round_aux.
  destruct (shr_fexp PyFloat.prec PyFloat.emax mx ex lx) as [mrs' e'].
  cbn [fst snd] in Hm1, He1. subst e'.
  exists (round_nearest_even (shr_m mrs') (loc_of_shr_record mrs')).
  pose proof (round_nearest_even_bounds (shr_m mrs') (loc_of_shr_record mrs')) as Hr.
  split; [rewrite <- Hm1; exact Hr |].
  assert (Hm1_pos : 0 <= m1).
  { subst m1. destruct (Z.ltb_spec 0 n); [| assumption].
    apply Z.div_pos; [assumption |]. apply Z.pow_pos_nonneg; lia. }
  assert (Hm2 : 0 <= round_nearest_even (shr_m mrs') (loc_of_shr_record mrs')) by lia.
  destruct (shr_fexp_spec _ e1 loc_Exact Hm2) as [Hm3 He3].
  destruct (shr_fexp PyFloat.prec PyFloat.emax
              (round_nearest_even (shr_m mrs') (loc_of_shr_record mrs')) e1 loc_Exact)
    as [mrs'' e''].
  cbn [fst snd] in Hm3, He3. cbv zeta. rewrite <- Hm3, <- He3. reflexivity.
Qed.

(** A rounded result has at most 53 significant bits. *)
Lemma binary_round_aux_bounded s mx ex lx s' m e :
  0 <= mx ->
  binary_round_aux PyFloat.prec PyFloat.emax s mx ex lx = S754_finite s' m e ->
  Zpos m < 2 ^ 53 /\ e <= 971.
Proof.
  intros Hmx H.
  destruct (binary_round_aux_cases s mx ex lx Hmx) as [m2 [Hm2 Heq]].
  cbv zeta in Heq. rewrite Heq in H. clear Heq.
  set (n := fexp PyFloat.prec PyFloat.emax (Zdigits2 mx + ex) - ex) in *.
  set (m1 := if 0 <? n then mx / 2 ^ n else mx) in *.
  set (e1 := if 0 <? n then ex + n else ex) in *.
  set (n2 := fexp PyFloat.prec PyFloat.emax (Zdigits2 m2 + e1) - e1) in *.
  assert (Hm1_pos : 0 <= m1).
  { subst m1. destruct (Z.ltb_spec 0 n); [| assumption].
    apply Z.div_pos; [assumption |]. apply Z.pow_pos_nonneg; lia. }
  assert (Hm2_pos : 0 <= m2) by lia.
  pose proof (Zdigits2_upper m2 Hm2_pos) as Hup.
  pose proof (Zdigits2_nonneg m2) as Hd.
  assert (Hn2 : Zdigits2 m2 - 53 <= n2).
  { subst n2. unfold fexp, emin, PyFloat.prec, PyFloat.emax. lia. }
  destruct (Z.ltb_spec 0 n2) as [Hpos | Hneg].
  - destruct (m2 / 2 ^ n2) as [| q | q] eqn:Eq; try discriminate.
    destruct (e1 + n2 <=? 971) eqn:Ee; [| discriminate].
    injection H as _ <- <-. split; [| lia].
    rewrite <- Eq.
    apply Z.div_lt_upper_bound; [apply Z.pow_pos_nonneg; lia |].
    destruct (Z.le_gt_cases n2 (Zdigits2 m2)) as [Hle | Hgt].
    + rewrite <- Z.pow_add_r by lia.
      eapply Z.lt_le_trans; [exact Hup |]. apply Z.pow_le_mono_r; lia.
    + exfalso.
      assert (m2 / 2 ^ n2 = 0).
      { apply Z.div_small. split; [assumption |].
        eapply Z.lt_le_trans; [exact Hup |]. apply Z.pow_le_mono_r; lia. }
      lia.
  - destruct m2 as [| q | q] eqn:Eq; try discriminate.
    destruct (e1 <=? 971) eqn:Ee; [| discriminate].
    injection H as _ <- <-. split; [| lia].
    eapply Z.lt_le_trans; [exact Hup |]. apply Z.pow_le_mono_r; lia.
Qed.

(** Below the largest double nothing rounds to an infinity. *)
Lemma binary_round_aux_finite s mx ex lx :
  0 <= mx -> ex <= 971 ->
  mx < (2 ^ 53 - 1) * 2 ^ (971 - ex) ->
  binary_round_aux PyFloat.prec PyFloat.emax s mx ex lx = S754_zero s \/
  exists m e, binary_round_aux PyFloat.prec PyFloat.emax s mx ex lx = S754_finite s m e.
Proof.
  intros Hmx Hex Hlt.
  destruct (binary_round_aux_cases s mx ex lx Hmx) as [m2 [Hm2 Heq]].
  cbv zeta in Heq. rewrite Heq. clear Heq.
  set (n := fexp PyFloat.prec PyFloat.emax (Zdigits2 mx + ex) - ex) in *.
  set (m1 := if 0 <? n then mx / 2 ^ n else mx) in *.
  set (e1 := if 0 <? n then ex + n else ex) in *.
  set (n2 := fexp PyFloat.prec PyFloat.emax (Zdigits2 m2 + e1) - e1) in *.
  assert (Hpow53 : 2 ^ 53 = 9007199254740992) by reflexivity.
  assert (Hd : Zdigits2 mx + ex <= 1024).
  { assert (Zdigits2 mx <= 1024 - ex); [| lia].
    apply Zdigits2_le; [assumption | lia |].
    replace (1024 - ex) with (53 + (971 - ex)) by lia.
    rewrite Z.pow_add_r by lia.
    assert (0 < 2 ^ (971 - ex)) by (apply Z.pow_pos_nonneg; lia). nia. }
  assert (He1 : e1 <= 971).
  { subst e1 n. pose proof (fexp_le_971 _ Hd). destruct (0 <? _); lia. }
  assert (Hm1 : 0 <= m1 < (2 ^ 53 - 1) * 2 ^ (971 - e1)).
  { subst m1 e1. destruct (Z.ltb_spec 0 n) as [Hpos | Hneg]; [| lia].
    assert (Hp : 0 < 2 ^ n) by (apply Z.pow_pos_nonneg; lia).
    split; [apply Z.div_pos; lia |].
    apply Z.div_lt_upper_bound; [assumption |].
    replace (971 - ex) with (n + (971 - (ex + n))) in Hlt by lia.
    rewrite Z.pow_add_r in Hlt by lia. lia. }
  assert (Hm2_pos : 0 <= m2) by lia.
  assert (Hd2 : Zdigits2 m2 + e1 <= 1024).
  { assert (Zdigits2 m2 <= 1024 - e1); [| lia].
    apply Zdigits2_le; [assumption | lia |].
    replace (1024 - e1) with (53 + (971 - e1)) by lia.
    rewrite Z.pow_add_r by lia.
    assert (0 < 2 ^ (971 - e1)) by (apply Z.pow_pos_nonneg; lia). nia. }
  pose proof (fexp_le_971 _ Hd2) as Hf2.
  destruct (Z.ltb_spec 0 n2) as [Hpos | Hneg].
  - assert (0 <= m2 / 2 ^ n2).
    { apply Z.div_pos; [assumption | apply Z.pow_pos_nonneg; lia]. }
    destruct (m2 / 2 ^ n2) as [| q | q]; [eauto | | lia].
    destruct (Z.leb_spec (e1 + n2) 971); [eauto |]. subst n2. lia.
  - destruct m2 as [| q | q]; [eauto | | lia].
    destruct (Z.leb_spec e1 971); [eauto | lia].
Qed.

Lemma iter_xO_pow m d : Zpos (Pos.iter xO m d) = Zpos m * 2 ^ Zpos d.
Proof.
  induction d as [| d IH] using Pos.peano_ind.
  - simpl. lia.
  - rewrite Pos.iter_succ, Pos2Z.inj_xO, IH, Pos2Z.inj_succ, Z.pow_succ_r by lia.
    lia.
Qed.

(** Every integer below [(2^53 - 1) * 2^971] converts to a double. *)
Lemma of_int_finite n :
  0 <= n < PyFloat.dbl_max ->
  exists x,
    PyFloat.of_int n = Done x /\
    (x = S754_zero false \/
     exists m e, x = S754_finite false m e /\ Zpos m < 2 ^ 53 /\ e <= 971).
Proof.
  unfold PyFloat.dbl_max. intros [Hn Hlt]. unfold PyFloat.of_int.
  destruct n as [| q | q]; [eexists; split; [reflexivity | now left] | | lia].
  cbn [binary_normalize]. unfold binary_round.
  remember (fexp PyFloat.prec PyFloat.emax (Zpos (digits2_pos q) + 0)) as fe eqn:Efe.
  destruct (shl_align q 0 fe) as [mz ez] eqn:Eshl.
  assert (Hb : ez <= 971 /\ Zpos mz < (2 ^ 53 - 1) * 2 ^ (971 - ez)).
  { unfold shl_align in Eshl.
    destruct (fe - 0) as [| d | d] eqn:Ed; injection Eshl as <- <-.
    - split; [lia | exact Hlt].
    - split; [lia | exact Hlt].
    - pose proof (digits2_pos_bounds q) as [_ Hup].
      assert (Hfe : fe = Zneg d) by lia.
      assert (Hdig : Zpos (digits2_pos q) + Zpos d <= 53).
      { rewrite Hfe in Efe. unfold fexp, emin, PyFloat.prec, PyFloat.emax in Efe. lia. }
      rewrite Hfe. split; [lia |].
      rewrite iter_xO_pow.
      assert (Hmz : Zpos q * 2 ^ Zpos d < 2 ^ 53).
      { eapply Z.lt_le_trans with (2 ^ (Zpos (digits2_pos q) + Zpos d)).
        - rewrite Z.pow_add_r by lia.
          apply Z.mul_lt_mono_pos_r; [apply Z.pow_pos_nonneg; lia | exact Hup].
        - apply Z.pow_le_mono_r; lia. }
      assert (2 <= 2 ^ (971 - Zneg d)).
      { change 2 with (2 ^ 1) at 1. apply Z.pow_le_mono_r; lia. }
      assert (Hpow53 : 2 ^ 53 = 9007199254740992) by reflexivity.
      nia. }
  destruct Hb as [Hez Hmz].
  destruct (binary_round_aux_finite false (Zpos mz) ez loc_Exact) as [Hz | [m [e Hf]]];
    [lia | assumption | assumption | |].
  - rewrite Hz. eexists. split; [reflexivity | now left].
  - rewrite Hf. eexists. split; [reflexivity |]. right. exists m, e.
    split; [reflexivity |].
    eapply binary_round_aux_bounded; [| exact Hf]. lia.
Qed.

(** The product of a float of the open unit interval and a converted
    integer is a finite float. *)
Lemma mul_int_finite p n :
  PyFloat.in_unit_interval p ->
  0 <= n < PyFloat.dbl_max ->
  exists raw, PyFloat.mul_int p n = Done raw /\ PyFloat.is_finite raw = true.
Proof.
  intros Hp Hn. unfold PyFloat.mul_int.
  destruct (of_int_finite n Hn) as [x [Hx Hcase]]. rewrite Hx. cbn [bind].
  eexists. split; [reflexivity |].
  destruct p as [| | | [] mp ep]; try contradiction.
  destruct Hp as [_ Hdig].
  destruct Hcase as [-> | [m [e [-> [Hm He]]]]]; [reflexivity |].
  unfold PyFloat.mul, SFmul.
  pose proof (digits2_pos_bounds mp) as [_ Hup].
  assert (Hep : ep <= -1) by lia.
  assert (Hmp : Zpos mp < 2 ^ (- ep)).
  { eapply Z.lt_le_trans; [exact Hup |]. apply Z.pow_le_mono_r; lia. }
  destruct (binary_round_aux_finite (xorb false false) (Zpos (mp * m)) (ep + e) loc_Exact)
    as [Hz | [m' [e' Hf]]]; [lia | lia | | |].
  - replace (971 - (ep + e)) with (- ep + (971 - e)) by lia.
    rewrite Z.pow_add_r by lia.
    assert (0 < 2 ^ (971 - e)) by (apply Z.pow_pos_nonneg; lia).
    assert (0 < 2 ^ (- ep)) by (apply Z.pow_pos_nonneg; lia).
    assert (Hpow53 : 2 ^ 53 = 9007199254740992) by reflexivity.
    rewrite Pos2Z.inj_mul. nia.
  - rewrite Hz. reflexivity.
  - rewrite Hf. reflexivity.
Qed.

Lemma floor_finite x : PyFloat.is_finite x = true -> exists f, PyFloat.floor x = Done f.
Proof. destruct x; simpl; intros H; try discriminate; eauto. Qed.

Lemma ceil_finite x : PyFloat.is_finite x = true -> exists f, PyFloat.ceil x = Done f.
Proof. destruct x; simpl; intros H; try discriminate; eauto. Qed.

Lemma round_finite x : PyFloat.is_finite x = true -> exists f, PyFloat.round x = Done f.
Proof.
  destruct x as [s | s | | s m e]; simpl; intros H; try discriminate; eauto.
  destruct (0 <=? e); eauto.
Qed.

(** The three roundings on a finite float with a negative exponent, whose
    value is [z / d] for [z] the signed mantissa and [d = 2 ^ (- e)]. *)
Lemma floor_spec s m e f :
  e < 0 ->
  PyFloat.floor (S754_finite s m e) = Done f ->
  let z := cond_Zopp s (Zpos m) in
  let d := 2 ^ (- e) in
  f * d <= z < (f + 1) * d.
Proof.
  intros He H z d. cbn [PyFloat.floor] in H. fold z in H.
  destruct (Z.leb_spec 0 e); [lia |]. injection H as <-. fold d.
  assert (Hd : 0 < d) by (apply Z.pow_pos_nonneg; lia).
  pose proof (Z.div_mod z d ltac:(lia)).
  pose proof (Z.mod_pos_bound z d Hd). nia.
Qed.

Lemma ceil_spec s m e c :
  e < 0 ->
  PyFloat.ceil (S754_finite s m e) = Done c ->
  let z := cond_Zopp s (Zpos m) in
  let d := 2 ^ (- e) in
  (c - 1) * d < z <= c * d.
Proof.
  intros He H z d. cbn [PyFloat.ceil] in H. fold z in H.
  destruct (Z.leb_spec 0 e); [lia |]. injection H as <-. fold d.
  assert (Hd : 0 < d) by (apply Z.pow_pos_nonneg; lia).
  pose proof (Z.div_mod (- z) d ltac:(lia)).
  pose proof (Z.mod_pos_bound (- z) d Hd). nia.
Qed.

Lemma round_spec s m e q :
  e < 0 ->
  PyFloat.round (S754_finite s m e) = Done q ->
  let z := cond_Zopp s (Zpos m) in
  let d := 2 ^ (- e) in
  2 * Z.abs (z - q * d) <= d /\
  (2 * Z.abs (z - q * d) = d -> Z.even q = true).
Proof.
  intros He H z d. cbn [PyFloat.round] in H. fold z in H.
  destruct (Z.leb_spec 0 e); [lia |]. fold d in H.
  assert (Hd : 0 < d) by (apply Z.pow_pos_nonneg; lia).
  pose proof (Z.div_mod z d ltac:(lia)) as Hdm.
  pose proof (Z.mod_pos_bound z d Hd) as Hmod.
  destruct (Z.ltb_spec (2 * (z mod d)) d) as [Hlt | Hge].
  - injection H as <-. split; [nia | intros Heq; nia].
  - destruct (Z.ltb_spec d (2 * (z mod d))) as [Hgt | Hle].
    + injection H as <-. split; [nia | intros Heq; nia].
    + destruct (Z.even (z / d)) eqn:Ee; injection H as <-.
      * split; [nia | intros _; exact Ee].
      * split; [nia |]. intros _.
        rewrite Z.even_add, Ee. reflexivity.
Qed.

(** ** The histogram *)

Lemma hist_get_In h s c : hist_get h s = Some c -> In (s, c) h.
Proof.
  induction h as [| [s' c'] h IH]; simpl; [discriminate |].
  destruct (Z.eqb_spec s' s) as [-> | Hne]; intros H.
  - injection H as ->. now left.
  - right; auto.
Qed.

Lemma hist_get_key h s c : hist_get h s = Some c -> In s (hist_keys h).
Proof.
  intros H. apply hist_get_In in H.
  unfold hist_keys. apply in_map_iff. exists (s, c). auto.
Qed.

Lemma hist_get_None h s : hist_get h s = None -> ~ In s (hist_keys h).
Proof.
  induction h as [| [s' c'] h IH]; simpl; [tauto |].
  destruct (Z.eqb_spec s' s) as [-> | Hne]; intros H; [discriminate |].
  intros [Heq | Hin]; [contradiction | now apply IH].
Qed.

Lemma hist_count_not_key h s : ~ In s (hist_keys h) -> hist_count h s = 0.
Proof.
  unfold hist_count. destruct (hist_get h s) as [c |] eqn:E; [| reflexivity].
  intros H. exfalso. apply H. eapply hist_get_key; eauto.
Qed.

Lemma hist_blocks_set h s v :
  hist_blocks (hist_set h s v) = hist_blocks h - hist_count h s + v.
Proof.
  unfold hist_count.
  induction h as [| [s' c'] h IH]; simpl; [lia |].
  destruct (Z.eqb_spec s' s) as [-> | Hne]; simpl; lia.
Qed.

Lemma hist_weight_set h s v :
  hist_weight (hist_set h s v) = hist_weight h + (v - hist_count h s) * s.
Proof.
  unfold hist_count.
  induction h as [| [s' c'] h IH]; simpl; [lia |].
  destruct (Z.eqb_spec s' s) as [-> | Hne]; simpl; lia.
Qed.

Lemma hist_count_set h s v s' :
  hist_count (hist_set h s v) s' = if s' =? s then v else hist_count h s'.
Proof.
  unfold hist_count.
  induction h as [| [s0 c0] h IH]; simpl.
  - destruct (Z.eqb_spec s s'), (Z.eqb_spec s' s); try congruence; reflexivity.
  - destruct (Z.eqb_spec s0 s) as [-> | Hne]; simpl.
    + destruct (Z.eqb_spec s s'), (Z.eqb_spec s' s); try congruence; reflexivity.
    + destruct (Z.eqb_spec s0 s') as [-> | Hne'].
      * destruct (Z.eqb_spec s' s); [congruence | reflexivity].
      * exact IH.
Qed.

Lemma hist_blocks_del h s :
  hist_blocks (hist_del h s) = hist_blocks h - hist_count h s.
Proof.
  unfold hist_count.
  induction h as [| [s' c'] h IH]; simpl; [lia |].
  destruct (Z.eqb_spec s' s) as [-> | Hne]; simpl; lia.
Qed.

Lemma hist_weight_del h s :
  hist_weight (hist_del h s) = hist_weight h - hist_count h s * s.
Proof.
  unfold hist_count.
  induction h as [| [s' c'] h IH]; simpl; [lia |].
  destruct (Z.eqb_spec s' s) as [-> | Hne]; simpl; lia.
Qed.

Lemma hist_keys_del_incl h s k :
  In k (hist_keys (hist_del h s)) -> In k (hist_keys h).
Proof.
  induction h as [| [s' c'] h IH]; simpl; [tauto |].
  destruct (Z.eqb_spec s' s) as [-> | Hne]; simpl; intuition.
Qed.

Lemma hist_count_del h s s' :
  NoDup (hist_keys h) ->
  hist_count (hist_del h s) s' = if s' =? s then 0 else hist_count h s'.
Proof.
  induction h as [| [s0 c0] h IH]; simpl; intros Hnd.
  - now destruct (s' =? s).
  - simpl in Hnd. apply NoDup_cons_iff in Hnd. destruct Hnd as [Hnotin Hnd'].
    destruct (Z.eqb_spec s0 s) as [E1 | Hne].
    + destruct (Z.eqb_spec s' s) as [E2 | Hne'].
      * apply hist_count_not_key. congruence.
      * unfold hist_count; simpl.
        destruct (Z.eqb_spec s0 s'); [congruence | reflexivity].
    + unfold hist_count; simpl.
      destruct (Z.eqb_spec s0 s') as [E2 | Hne'].
      * destruct (Z.eqb_spec s' s); [congruence | reflexivity].
      * apply IH; assumption.
Qed.

Lemma hist_set_keys_in h s v k :
  In k (hist_keys (hist_set h s v)) <-> In k (hist_keys h) \/ k = s.
Proof.
  induction h as [| [s' c'] h IH]; simpl.
  - intuition.
  - destruct (Z.eqb_spec s' s) as [-> | Hne]; simpl.
    + intuition.
    + rewrite IH. intuition.
Qed.

Lemma hist_set_NoDup h s v :
  NoDup (hist_keys h) -> NoDup (hist_keys (hist_set h s v)).
Proof.
  induction h as [| [s' c'] h IH]; simpl; intros Hnd.
  - constructor; [simpl; tauto | constructor].
  - inversion Hnd as [| ? ? Hnotin Hnd']; subst.
    destruct (Z.eqb_spec s' s) as [-> | Hne]; simpl.
    + constructor; assumption.
    + constructor; [| now apply IH].
      intros Hin. apply hist_set_keys_in in Hin.
      destruct Hin as [Hin | ->]; [contradiction | congruence].
Qed.

Lemma hist_del_NoDup h s :
  NoDup (hist_keys h) -> NoDup (hist_keys (hist_del h s)).
Proof.
  induction h as [| [s' c'] h IH]; simpl; intros Hnd; [constructor |].
  inversion Hnd as [| ? ? Hnotin Hnd']; subst.
  destruct (Z.eqb_spec s' s) as [-> | Hne]; simpl; [assumption |].
  constructor; [| now apply IH].
  intros Hin. apply Hnotin. eapply hist_keys_del_incl; eauto.
Qed.

Lemma hist_set_Forall (P : Z * Z -> Prop) h s v :
  Forall P h -> P (s, v) -> Forall P (hist_set h s v).
Proof.
  induction h as [| [s' c'] h IH]; simpl; intros HF HP.
  - constructor; [assumption | constructor].
  - inversion HF; subst.
    destruct (Z.eqb_spec s' s) as [-> | Hne]; constructor; auto.
Qed.

Lemma hist_del_Forall (P : Z * Z -> Prop) h s :
  Forall P h -> Forall P (hist_del h s).
Proof.
  induction h as [| [s' c'] h IH]; simpl; intros HF; [constructor |].
  inversion HF; subst.
  destruct (Z.eqb_spec s' s) as [-> | Hne]; [assumption | constructor; auto].
Qed.

(** An assignment keeps a property of all keys when the assigned key has it. *)
Lemma hist_set_Forall_keys (P : Z -> Prop) h s v :
  keys_all P h -> P s -> keys_all P (hist_set h s v).
Proof. intros H Hs. apply hist_set_Forall; assumption. Qed.

Lemma hist_del_set h s v c :
  hist_get h s = Some c -> hist_del (hist_set h s v) s = hist_del h s.
Proof.
  induction h as [| [s' c'] h IH]; simpl; [discriminate |].
  destruct (Z.eqb_spec s' s) as [E | Hne]; simpl; intros H.
  - destruct (Z.eqb_spec s' s); [reflexivity | contradiction].
  - destruct (Z.eqb_spec s' s); [contradiction |]. f_equal. now apply IH.
Qed.

Lemma hist_count_get h s c : hist_get h s = Some c -> hist_count h s = c.
Proof. unfold hist_count. now intros ->. Qed.

Lemma hist_wf_count_nonneg h s : hist_wf h -> 0 <= hist_count h s.
Proof.
  intros [_ Hpos]. unfold hist_count.
  destruct (hist_get h s) as [c |] eqn:E; [| lia].
  apply hist_get_In in E. rewrite Forall_forall in Hpos.
  specialize (Hpos _ E). simpl in Hpos. lia.
Qed.

Lemma hist_wf_get_pos h s c : hist_wf h -> hist_get h s = Some c -> 0 < c.
Proof.
  intros [_ Hpos] E. apply hist_get_In in E.
  rewrite Forall_forall in Hpos. exact (Hpos _ E).
Qed.

(** *** Taking the sampled block out *)

Lemma remove_block_present h old h' :
  remove_block h old = Done h' -> exists c, hist_get h old = Some c.
Proof.
  unfold remove_block. destruct (hist_get h old) as [c |]; [eauto | discriminate].
Qed.

Lemma remove_block_sums h old h' :
  remove_block h old = Done h' ->
  hist_blocks h' = hist_blocks h - 1 /\ hist_weight h' = hist_weight h - old.
Proof.
  unfold remove_block. destruct (hist_get h old) as [c |] eqn:E; [| discriminate].
  pose proof (hist_count_get _ _ _ E) as Hc.
  destruct (Z.eqb_spec (c - 1) 0) as [Hz | Hnz]; intros H; injection H as <-.
  - rewrite hist_blocks_del, hist_weight_del, hist_count_set, Z.eqb_refl.
    rewrite hist_blocks_set, hist_weight_set, Hc. lia.
  - rewrite hist_blocks_set, hist_weight_set, Hc. lia.
Qed.

Lemma remove_block_wf h old h' :
  hist_wf h -> remove_block h old = Done h' -> hist_wf h'.
Proof.
  intros Hwf. pose proof Hwf as [Hnd Hpos].
  unfold remove_block. destruct (hist_get h old) as [c |] eqn:E; [| discriminate].
  pose proof (hist_wf_get_pos _ _ _ Hwf E) as Hc.
  destruct (Z.eqb_spec (c - 1) 0) as [Hz | Hnz]; intros H; injection H as <-.
  - rewrite (hist_del_set _ _ _ _ E). split.
    + now apply hist_del_NoDup.
    + now apply hist_del_Forall.
  - split.
    + now apply hist_set_NoDup.
    + apply hist_set_Forall; [assumption | simpl; lia].
Qed.

Lemma remove_block_count h old h' s :
  hist_wf h -> remove_block h old = Done h' ->
  hist_count h' s = hist_count h s - (if s =? old then 1 else 0).
Proof.
  intros [Hnd Hpos].
  unfold remove_block. destruct (hist_get h old) as [c |] eqn:E; [| discriminate].
  pose proof (hist_count_get _ _ _ E) as Hc.
  destruct (Z.eqb_spec (c - 1) 0) as [Hz | Hnz]; intros H; injection H as <-.
  - rewrite (hist_del_set _ _ _ _ E), hist_count_del by assumption.
    destruct (Z.eqb_spec s old) as [-> | Hne]; lia.
  - rewrite hist_count_set.
    destruct (Z.eqb_spec s old) as [-> | Hne]; lia.
Qed.

Lemma remove_block_keys (P : Z -> Prop) h old h' :
  keys_all P h -> remove_block h old = Done h' -> keys_all P h'.
Proof.
  intros HP.
  unfold remove_block. destruct (hist_get h old) as [c |] eqn:E; [| discriminate].
  assert (Hold : P old).
  { apply hist_get_In in E. unfold keys_all in HP. rewrite Forall_forall in HP.
    exact (HP _ E). }
  destruct (c - 1 =? 0); intros H; injection H as <-.
  - apply hist_del_Forall. now apply hist_set_Forall.
  - now apply hist_set_Forall.
Qed.

(** *** Putting the resulting blocks in *)

Lemma add_block_sums h size :
  hist_blocks (add_block h size) = hist_blocks h + 1 /\
  hist_weight (add_block h size) = hist_weight h + size.
Proof.
  unfold add_block. rewrite hist_blocks_set, hist_weight_set. lia.
Qed.

Lemma add_block_wf h size : hist_wf h -> hist_wf (add_block h size).
Proof.
  intros Hwf. pose proof (hist_wf_count_nonneg h size Hwf) as Hc.
  destruct Hwf as [Hnd Hpos]. unfold add_block. split.
  - now apply hist_set_NoDup.
  - apply hist_set_Forall; [assumption | simpl; lia].
Qed.

Lemma add_block_count h size s :
  hist_count (add_block h size) s =
  hist_count h s + (if s =? size then 1 else 0).
Proof.
  unfold add_block. rewrite hist_count_set.
  destruct (Z.eqb_spec s size) as [-> | Hne]; lia.
Qed.

Lemma add_block_keys (P : Z -> Prop) h size :
  keys_all P h -> P size -> keys_all P (add_block h size).
Proof. intros H Hs. unfold add_block. now apply hist_set_Forall. Qed.

Lemma add_blocks_sums new_blocks : forall h,
  hist_blocks (add_blocks h new_blocks) =
    hist_blocks h + Z.of_nat (List.length new_blocks) /\
  hist_weight (add_blocks h new_blocks) = hist_weight h + list_sum new_blocks.
Proof.
  unfold add_blocks.
  induction new_blocks as [| b bs IH]; intros h.
  - simpl. lia.
  - cbn [fold_left List.length list_sum fold_right].
    destruct (IH (add_block h b)) as [IH1 IH2].
    destruct (add_block_sums h b) as [A1 A2].
    rewrite IH1, IH2, A1, A2. unfold list_sum. lia.
Qed.

Lemma add_blocks_wf new_blocks : forall h,
  hist_wf h -> hist_wf (add_blocks h new_blocks).
Proof.
  unfold add_blocks.
  induction new_blocks as [| b bs IH]; intros h Hwf; simpl; [assumption |].
  apply IH. now apply add_block_wf.
Qed.

Lemma add_blocks_count new_blocks s : forall h,
  hist_count (add_blocks h new_blocks) s =
  hist_count h s + Z.of_nat (count_occ Z.eq_dec new_blocks s).
Proof.
  unfold add_blocks.
  induction new_blocks as [| b bs IH]; intros h; simpl; [lia |].
  rewrite IH, add_block_count.
  destruct (Z.eq_dec b s) as [-> | Hne].
  - rewrite Z.eqb_refl. lia.
  - destruct (Z.eqb_spec s b); [congruence | lia].
Qed.

Lemma add_blocks_keys (P : Z -> Prop) new_blocks : forall h,
  keys_all P h -> Forall P new_blocks -> keys_all P (add_blocks h new_blocks).
Proof.
  unfold add_blocks.
  induction new_blocks as [| b bs IH]; intros h Hh HF; simpl; [assumption |].
  inversion HF; subst. apply IH; [| assumption]. now apply add_block_keys.
Qed.

(** *** Individual blocks *)

Lemma remove_one_length x blocks :
  In x blocks ->
  Z.of_nat (List.length (remove_one x blocks)) = Z.of_nat (List.length blocks) - 1.
Proof.
  induction blocks as [| y rest IH]; cbn [remove_one List.length In]; [tauto |].
  destruct (Z.eqb_spec y x) as [E | Hne]; intros Hin.
  - lia.
  - destruct Hin as [E | Hin]; [contradiction |].
    cbn [List.length]. specialize (IH Hin). lia.
Qed.

Lemma remove_one_sum x blocks :
  In x blocks -> list_sum (remove_one x blocks) = list_sum blocks - x.
Proof.
  unfold list_sum.
  induction blocks as [| y rest IH]; simpl; [tauto |].
  destruct (Z.eqb_spec y x) as [E | Hne]; intros Hin.
  - lia.
  - destruct Hin as [E | Hin]; [contradiction |].
    simpl. specialize (IH Hin). lia.
Qed.

Lemma remove_one_count x blocks s :
  In x blocks ->
  Z.of_nat (count_occ Z.eq_dec (remove_one x blocks) s) =
  Z.of_nat (count_occ Z.eq_dec blocks s) - (if s =? x then 1 else 0).
Proof.
  induction blocks as [| y rest IH]; simpl; [tauto |].
  destruct (Z.eqb_spec y x) as [E | Hne]; intros Hin.
  - subst y. destruct (Z.eq_dec x s) as [E | Hne].
    + subst s. rewrite Z.eqb_refl. lia.
    + destruct (Z.eqb_spec s x); [congruence | lia].
  - destruct Hin as [E | Hin]; [contradiction |].
    simpl. specialize (IH Hin).
    destruct (Z.eq_dec y s) as [E | Hne'].
    + subst s. destruct (Z.eqb_spec y x); [contradiction |]. lia.
    + exact IH.
Qed.

Lemma remove_one_Forall (P : Z -> Prop) x blocks :
  Forall P blocks -> Forall P (remove_one x blocks).
Proof.
  induction blocks as [| y rest IH]; simpl; intros HF; [constructor |].
  inversion HF; subst.
  destruct (y =? x); [assumption | constructor; auto].
Qed.

Lemma list_sum_app l1 l2 : list_sum (l1 ++ l2) = list_sum l1 + list_sum l2.
Proof.
  unfold list_sum. induction l1 as [| x l1 IH]; simpl; [reflexivity | lia].
Qed.

(** ** Sampling *)

Lemma hist_key_get h s : In s (hist_keys h) -> exists c, hist_get h s = Some c.
Proof.
  induction h as [| [s' c'] h IH]; simpl; [tauto |].
  destruct (Z.eqb_spec s' s) as [E | Hne]; intros Hin; [eauto |].
  destruct Hin as [E | Hin]; [contradiction | auto].
Qed.

Lemma fold_max_In ks : forall k, In (fold_left Z.max ks k) (k :: ks).
Proof.
  induction ks as [| x ks IH]; intros k; simpl; [now left |].
  destruct (IH (Z.max k x)) as [E | Hin].
  - rewrite <- E. destruct (Z.max_spec k x) as [[_ ->] | [_ ->]]; auto.
  - right; right; exact Hin.
Qed.

Lemma max_key_In h : h <> [] -> In (max_key h) (hist_keys h).
Proof.
  unfold max_key. destruct h as [| [s c] h]; [congruence |].
  intros _. simpl. apply (fold_max_In (map fst h) s).
Qed.

Lemma sample_walk_In items : forall cumsum rand_val size position,
  sample_walk items cumsum rand_val = Some (size, position) ->
  exists count, In (size, count) items.
Proof.
  induction items as [| [s c] items IH]; intros cumsum rand_val size position;
    simpl; [discriminate |].
  destruct (rand_val <? cumsum + c * s).
  - intros H. injection H as <- _. exists c. now left.
  - intros H. destruct (IH _ _ _ _ H) as [c' Hin]. exists c'. now right.
Qed.

(** The walk stops inside the class whose cumulative range holds the draw:
    that class has a positive weight, and the position is inside the block. *)
Lemma sample_walk_position items : forall cumsum rand_val size position,
  keys_all (fun s => 0 <= s) items ->
  Forall (fun sc => 0 < snd sc) items ->
  cumsum <= rand_val ->
  sample_walk items cumsum rand_val = Some (size, position) ->
  0 < size /\ 0 <= position < size.
Proof.
  induction items as [| [s c] items IH]; intros cumsum rand_val size position
    Hkeys Hpos Hle; simpl; [discriminate |].
  inversion Hkeys as [| ? ? Hs Hkeys']; subst.
  inversion Hpos as [| ? ? Hc Hpos']; subst. simpl in Hs, Hc.
  destruct (Z.ltb_spec rand_val (cumsum + c * s)) as [Hlt | Hge].
  - intros H. injection H as <- <-.
    assert (0 < s) by nia.
    destruct (Z.ltb_spec 0 s); [| lia].
    split; [assumption |]. apply Z.mod_pos_bound. assumption.
  - intros H. eapply IH; eauto.
Qed.

Lemma sample_walk_total items : forall cumsum rand_val,
  cumsum <= rand_val < cumsum + hist_weight items ->
  exists sample, sample_walk items cumsum rand_val = Some sample.
Proof.
  unfold hist_weight.
  induction items as [| [s c] items IH]; intros cumsum rand_val; simpl.
  - intros H. lia.
  - intros H. destruct (Z.ltb_spec rand_val (cumsum + c * s)) as [Hlt | Hge].
    + eauto.
    + apply IH. lia.
Qed.

Lemma nth_randbelow_In (l : list Z) (raw : Z) :
  l <> [] ->
  In (nth (Z.to_nat (randbelow (Z.of_nat (List.length l)) raw)) l 0) l.
Proof.
  intros Hne. apply nth_In. unfold randbelow.
  assert (Hlen : 0 < Z.of_nat (List.length l)).
  { destruct l; [congruence | cbn [List.length]; lia]. }
  pose proof (Z.mod_pos_bound raw _ Hlen). lia.
Qed.

Lemma sample_block_degenerate h raw :
  hist_weight h = 0 ->
  sample_block h raw =
  match h with
  | [] => Raised IndexError
  | _ :: _ =>
      Done (nth (Z.to_nat (randbelow (Z.of_nat (List.length (hist_keys h))) raw))
              (hist_keys h) 0, 0)
  end.
Proof.
  intros Hw. unfold sample_block. rewrite Hw. simpl (0 =? 0). cbv iota zeta.
  destruct h; reflexivity.
Qed.

(** Whatever the draw, a sampled size is a key of the histogram. *)
Lemma sample_block_key h raw old_size insert_pos :
  sample_block h raw = Done (old_size, insert_pos) ->
  In old_size (hist_keys h).
Proof.
  destruct (Z.eqb_spec (hist_weight h) 0) as [Hz | Hnz].
  - rewrite sample_block_degenerate by assumption.
    destruct h as [| sc h']; [discriminate |].
    intros H.
    assert (H1 : nth (Z.to_nat (randbelow (Z.of_nat (List.length (hist_keys (sc :: h')))) raw))
                   (hist_keys (sc :: h')) 0 = old_size) by congruence.
    rewrite <- H1. apply nth_randbelow_In. discriminate.
  - unfold sample_block.
    destruct (Z.eqb_spec (hist_weight h) 0); [contradiction |].
    destruct (hist_weight h <? 0); [discriminate |].
    destruct (sample_walk h 0 (randbelow (hist_weight h) raw)) as [[s pos] |] eqn:E.
    + intros H. injection H as <- _.
      destruct (sample_walk_In _ _ _ _ _ E) as [c Hin].
      unfold hist_keys. apply in_map_iff. exists (s, c). auto.
    + intros H. injection H as <- _. apply max_key_In.
      intros ->. apply Hnz. reflexivity.
Qed.

Lemma sample_block_not_OutOfFuel h raw : sample_block h raw <> OutOfFuel.
Proof.
  unfold sample_block.
  destruct (hist_weight h =? 0).
  - destruct (hist_keys h); discriminate.
  - destruct (hist_weight h <? 0); [discriminate |].
    destruct (sample_walk h 0 (randbelow (hist_weight h) raw)); discriminate.
Qed.

Lemma hist_weight_nonneg h :
  keys_all (fun s => 0 <= s) h -> Forall (fun sc => 0 < snd sc) h ->
  0 <= hist_weight h.
Proof.
  unfold hist_weight, keys_all.
  induction h as [| [s c] h IH]; simpl; intros Hk Hp; [lia |].
  inversion Hk; inversion Hp; subst; simpl in *.
  specialize (IH ltac:(assumption) ltac:(assumption)). nia.
Qed.

(** C9, as amended: on a non-empty histogram with non-negative keys and
    positive counts [sample_block] returns a pair whose occupancy is a key
    of the histogram with a positive count; when the total weight is
    positive the occupancy is positive and the offset lies in
    [0, occupancy); when the total weight is zero the offset is 0 and the
    occupancy is the key at the drawn index, every index of the key list
    being the outcome of some draw. *)
Theorem sample_block_spec (h : histogram) (raw : Z) :
  h <> [] ->
  keys_all (fun s => 0 <= s) h ->
  Forall (fun sc => 0 < snd sc) h ->
  exists occupancy offset,
    sample_block h raw = Done (occupancy, offset) /\
    (exists count, In (occupancy, count) h /\ 0 < count) /\
    (0 < hist_weight h -> 0 < occupancy /\ 0 <= offset < occupancy) /\
    (hist_weight h = 0 ->
       offset = 0 /\
       occupancy =
         nth (Z.to_nat (raw mod Z.of_nat (List.length (hist_keys h)))) (hist_keys h) 0 /\
       forall i, (i < List.length (hist_keys h))%nat ->
         sample_block h (Z.of_nat i) = Done (nth i (hist_keys h) 0, 0)).
Proof.
  intros Hne Hkeys Hpos.
  pose proof (hist_weight_nonneg h Hkeys Hpos) as Hw.
  assert (Hcount : forall occ off, sample_block h raw = Done (occ, off) ->
            exists count, In (occ, count) h /\ 0 < count).
  { intros occ off H. apply sample_block_key in H.
    destruct (hist_key_get _ _ H) as [c Hc]. apply hist_get_In in Hc.
    exists c. split; [assumption |].
    rewrite Forall_forall in Hpos. exact (Hpos _ Hc). }
  destruct (Z.eqb_spec (hist_weight h) 0) as [Hz | Hnz].
  - assert (Hdeg : forall x, sample_block h x =
              Done (nth (Z.to_nat (randbelow (Z.of_nat (List.length (hist_keys h))) x))
                      (hist_keys h) 0, 0)).
    { intros x. rewrite sample_block_degenerate by assumption.
      destruct h; [congruence | reflexivity]. }
    eexists; eexists. split; [apply Hdeg |].
    split; [eapply Hcount; apply Hdeg |].
    split; [lia |]. intros _. split; [reflexivity |]. split; [reflexivity |].
    intros i Hi. rewrite Hdeg. unfold randbelow.
    rewrite Z.mod_small by lia. now rewrite Nat2Z.id.
  - unfold sample_block in *.
    destruct (Z.eqb_spec (hist_weight h) 0); [contradiction |].
    destruct (Z.ltb_spec (hist_weight h) 0) as [Hneg | Hge]; [lia |].
    assert (Hrange : 0 <= randbelow (hist_weight h) raw < hist_weight h).
    { unfold randbelow. apply Z.mod_pos_bound. lia. }
    destruct (sample_walk_total h 0 (randbelow (hist_weight h) raw)) as [[s pos] E];
      [lia |].
    rewrite E in *. exists s, pos. split; [reflexivity |].
    split; [eapply Hcount; reflexivity |].
    split; [| lia]. intros _.
    apply (sample_walk_position h 0 (randbelow (hist_weight h) raw));
      [assumption | assumption | lia | assumption].
Qed.

Lemma sample_block_spec_witness :
  exists occupancy offset,
    sample_block example_histogram 7 = Done (occupancy, offset) /\
    (exists count, In (occupancy, count) example_histogram /\ 0 < count) /\
    (0 < hist_weight example_histogram -> 0 < occupancy /\ 0 <= offset < occupancy) /\
    (hist_weight example_histogram = 0 ->
       offset = 0 /\
       occupancy =
         nth (Z.to_nat (7 mod Z.of_nat (List.length (hist_keys example_histogram))))
           (hist_keys example_histogram) 0 /\
       forall i, (i < List.length (hist_keys example_histogram))%nat ->
         sample_block example_histogram (Z.of_nat i) =
         Done (nth i (hist_keys example_histogram) 0, 0)).
Proof.
  apply (sample_block_spec example_histogram 7).
  - discriminate.
  - repeat constructor; simpl; lia.
  - repeat constructor; simpl; lia.
Defined.

(** At the initial histogram [{0: 1}] the sample is [(0, 0)], whose offset
    is not inside the empty range [0, 0). *)
Lemma sample_block_empty_block_offset :
  [(0, 1)] <> [] /\
  keys_all (fun s => 0 <= s) [(0, 1)] /\
  Forall (fun sc => 0 < snd sc) [(0, 1)] /\
  forall raw, exists occupancy offset,
    sample_block [(0, 1)] raw = Done (occupancy, offset) /\
    ~ (0 <= offset < occupancy).
Proof.
  split; [discriminate |].
  split; [repeat constructor; simpl; lia |].
  split; [repeat constructor; simpl; lia |].
  intros raw. exists 0, 0. split; [| lia].
  rewrite sample_block_degenerate by reflexivity.
  unfold randbelow. simpl. rewrite Z.mod_1_r. reflexivity.
Qed.

Lemma sample_block_returns h raw :
  0 <= hist_weight h -> (hist_weight h = 0 -> h <> []) ->
  exists old_size insert_pos, sample_block h raw = Done (old_size, insert_pos).
Proof.
  intros Hw Hne.
  destruct (Z.eqb_spec (hist_weight h) 0) as [Hz | Hnz].
  - rewrite sample_block_degenerate by assumption.
    destruct h; [now destruct (Hne Hz) | eauto].
  - unfold sample_block.
    destruct (Z.eqb_spec (hist_weight h) 0); [contradiction |].
    destruct (Z.ltb_spec (hist_weight h) 0); [lia |].
    destruct (sample_walk h 0 (randbelow (hist_weight h) raw)) as [[s pos] |]; eauto.
Qed.

(** ** Split sizes *)

Lemma mul_int_not_OutOfFuel p n : PyFloat.mul_int p n <> OutOfFuel.
Proof.
  unfold PyFloat.mul_int, PyFloat.of_int.
  destruct (binary_normalize PyFloat.prec PyFloat.emax n 0 false); discriminate.
Qed.

Lemma floor_not_OutOfFuel x : PyFloat.floor x <> OutOfFuel.
Proof. destruct x; discriminate. Qed.

Lemma ceil_not_OutOfFuel x : PyFloat.ceil x <> OutOfFuel.
Proof. destruct x; discriminate. Qed.

Lemma round_not_OutOfFuel x : PyFloat.round x <> OutOfFuel.
Proof.
  destruct x as [s | s | | s m e]; try discriminate.
  simpl. destruct (0 <=? e); discriminate.
Qed.

Lemma split_size_inv p rounding n l rr :
  split_size p rounding n = Done (l, rr) ->
  exists raw f,
    PyFloat.mul_int p n = Done raw /\
    (if String.eqb rounding "floor" then PyFloat.floor raw
     else if String.eqb rounding "ceil" then PyFloat.ceil raw
     else PyFloat.round raw) = Done f /\
    l = Z.max 1 (Z.min (n - 1) f) /\ rr = n - l.
Proof.
  unfold split_size. intros H.
  bind_inv H. bind_inv H. injection H as <- <-.
  eauto 6.
Qed.

Lemma split_size_not_OutOfFuel p rounding n :
  split_size p rounding n <> OutOfFuel.
Proof.
  unfold split_size. intros H.
  apply bind_OutOfFuel in H. destruct H as [H | [raw [_ H]]].
  - eapply mul_int_not_OutOfFuel; eauto.
  - apply bind_OutOfFuel in H. destruct H as [H | [f [_ H]]]; [| discriminate].
    destruct (String.eqb rounding "floor");
      [eapply floor_not_OutOfFuel; eauto |].
    destruct (String.eqb rounding "ceil");
      [eapply ceil_not_OutOfFuel; eauto | eapply round_not_OutOfFuel; eauto].
Qed.

Lemma split_size_bounds p rounding n l rr :
  split_size p rounding n = Done (l, rr) ->
  l + rr = n /\ 1 <= l /\ (2 <= n -> l <= n - 1) /\ (1 <= n -> l <= n).
Proof.
  intros H. destruct (split_size_inv _ _ _ _ _ H) as [raw [f [_ [_ [-> ->]]]]].
  lia.
Qed.

Lemma split_size_splits p rounding :
  splits_block (fun current_size _ => split_size p rounding current_size).
Proof.
  intros size e. split; [apply split_size_not_OutOfFuel |].
  intros l rr H. apply split_size_bounds in H. lia.
Qed.

Lemma adaptive_split_inv p size e l rr :
  adaptive_split p size e = Done (l, rr) ->
  exists raw f,
    PyFloat.mul_int p size = Done raw /\ PyFloat.floor raw = Done f /\
    let p_split := Z.max 1 (Z.min (size - 1) f) in
    (l, rr) = if e <? p_split then (p_split, size - p_split)
              else (size - p_split, p_split).
Proof.
  unfold adaptive_split. intros H.
  bind_inv H. bind_inv H. exists a, a0. split; [assumption |].
  split; [assumption |]. cbv zeta.
  destruct (e <? Z.max 1 (Z.min (size - 1) a0)); congruence.
Qed.

Lemma adaptive2_split_inv p size e l rr :
  adaptive2_split p size e = Done (l, rr) ->
  exists raw f,
    PyFloat.mul_int p size = Done raw /\ PyFloat.floor raw = Done f /\
    let p_split := Z.max 1 (Z.min (size - 1) f) in
    (l, rr) = if e >? size - p_split then (size - p_split, p_split)
              else (p_split, size - p_split).
Proof.
  unfold adaptive2_split. intros H.
  bind_inv H. bind_inv H. exists a, a0. split; [assumption |].
  split; [assumption |]. cbv zeta.
  destruct (e >? size - Z.max 1 (Z.min (size - 1) a0)); congruence.
Qed.

Lemma adaptive_split_splits p : splits_block (adaptive_split p).
Proof.
  intros size e. split.
  - unfold adaptive_split. intros H.
    apply bind_OutOfFuel in H. destruct H as [H | [raw [_ H]]].
    + eapply mul_int_not_OutOfFuel; eauto.
    + apply bind_OutOfFuel in H. destruct H as [H | [f [_ H]]].
      * eapply floor_not_OutOfFuel; eauto.
      * destruct (e <? Z.max 1 (Z.min (size - 1) f)); discriminate.
  - intros l rr H. apply adaptive_split_inv in H.
    destruct H as [raw [f [_ [_ H]]]]. cbv zeta in H.
    destruct (e <? Z.max 1 (Z.min (size - 1) f)); injection H as -> ->; lia.
Qed.

Lemma adaptive2_split_splits p : splits_block (adaptive2_split p).
Proof.
  intros size e. split.
  - unfold adaptive2_split. intros H.
    apply bind_OutOfFuel in H. destruct H as [H | [raw [_ H]]].
    + eapply mul_int_not_OutOfFuel; eauto.
    + apply bind_OutOfFuel in H. destruct H as [H | [f [_ H]]].
      * eapply floor_not_OutOfFuel; eauto.
      * destruct (e >? size - Z.max 1 (Z.min (size - 1) f)); discriminate.
  - intros l rr H. apply adaptive2_split_inv in H.
    destruct H as [raw [f [_ [_ H]]]]. cbv zeta in H.
    destruct (e >? size - Z.max 1 (Z.min (size - 1) f)); injection H as -> ->; lia.
Qed.

Lemma split_size_returns p rounding n :
  PyFloat.in_unit_interval p ->
  0 <= n < PyFloat.dbl_max ->
  exists l rr, split_size p rounding n = Done (l, rr).
Proof.
  intros Hp Hn.
  destruct (mul_int_finite p n Hp Hn) as [raw [Hraw Hfin]].
  unfold split_size. rewrite Hraw. cbn [bind].
  assert (Hf : exists f,
             (if String.eqb rounding "floor" then PyFloat.floor raw
              else if String.eqb rounding "ceil" then PyFloat.ceil raw
              else PyFloat.round raw) = Done f).
  { destruct (String.eqb rounding "floor"); [now apply floor_finite |].
    destruct (String.eqb rounding "ceil"); [now apply ceil_finite |].
    now apply round_finite. }
  destruct Hf as [f ->]. cbn [bind]. eauto.
Qed.

Lemma adaptive_split_returns p size e :
  PyFloat.in_unit_interval p ->
  0 <= size < PyFloat.dbl_max ->
  exists l rr, adaptive_split p size e = Done (l, rr).
Proof.
  intros Hp Hn.
  destruct (mul_int_finite p size Hp Hn) as [raw [Hraw Hfin]].
  destruct (floor_finite raw Hfin) as [f Hf].
  unfold adaptive_split. rewrite Hraw. cbn [bind]. rewrite Hf. cbn [bind].
  destruct (e <? Z.max 1 (Z.min (size - 1) f)); eauto.
Qed.

Lemma adaptive2_split_returns p size e :
  PyFloat.in_unit_interval p ->
  0 <= size < PyFloat.dbl_max ->
  exists l rr, adaptive2_split p size e = Done (l, rr).
Proof.
  intros Hp Hn.
  destruct (mul_int_finite p size Hp Hn) as [raw [Hraw Hfin]].
  destruct (floor_finite raw Hfin) as [f Hf].
  unfold adaptive2_split. rewrite Hraw. cbn [bind]. rewrite Hf. cbn [bind].
  destruct (size - Z.max 1 (Z.min (size - 1) f) <? e) eqn:E;
    rewrite Z.gtb_ltb, E; eauto.
Qed.

(** C2, as amended: for every [n] with [2 <= n < (2^53 - 1) * 2^971] (below
    the largest double), every float [p] of the open unit interval and
    every rounding mode, [split_size] computes [raw = p * n], rounds it
    (floor, ceil, or nearest for any other mode), clamps the result [k] to
    [1, n - 1] and returns [(k, n - k)]; both children are non-empty. *)
Theorem split_size_children (p : PyFloat.float) (rounding : string) (n : Z) :
  PyFloat.in_unit_interval p ->
  2 <= n < PyFloat.dbl_max ->
  exists raw f k,
    PyFloat.mul_int p n = Done raw /\
    (if String.eqb rounding "floor" then PyFloat.floor raw
     else if String.eqb rounding "ceil" then PyFloat.ceil raw
     else PyFloat.round raw) = Done f /\
    k = Z.max 1 (Z.min (n - 1) f) /\
    split_size p rounding n = Done (k, n - k) /\
    1 <= k <= n - 1 /\ 1 <= n - k.
Proof.
  intros Hp Hn.
  destruct (mul_int_finite p n Hp) as [raw [Hraw Hfin]]; [lia |].
  assert (Hf : exists f,
             (if String.eqb rounding "floor" then PyFloat.floor raw
              else if String.eqb rounding "ceil" then PyFloat.ceil raw
              else PyFloat.round raw) = Done f).
  { destruct (String.eqb rounding "floor"); [now apply floor_finite |].
    destruct (String.eqb rounding "ceil"); [now apply ceil_finite |].
    now apply round_finite. }
  destruct Hf as [f Hf].
  exists raw, f, (Z.max 1 (Z.min (n - 1) f)).
  split; [exact Hraw |]. split; [exact Hf |]. split; [reflexivity |].
  split; [| lia].
  unfold split_size. rewrite Hraw. cbn [bind]. rewrite Hf. reflexivity.
Qed.

Lemma split_size_children_witness :
  exists raw f k,
    PyFloat.mul_int PyFloat.three_tenths 10 = Done raw /\
    (if String.eqb "nearest" "floor" then PyFloat.floor raw
     else if String.eqb "nearest" "ceil" then PyFloat.ceil raw
     else PyFloat.round raw) = Done f /\
    k = Z.max 1 (Z.min (10 - 1) f) /\
    split_size PyFloat.three_tenths "nearest" 10 = Done (k, 10 - k) /\
    1 <= k <= 10 - 1 /\ 1 <= 10 - k.
Proof.
  apply (split_size_children PyFloat.three_tenths "nearest" 10).
  - split; [reflexivity | simpl; lia].
  - split; [lia | reflexivity].
Defined.

(** [0.3 * 10] is [3.0] in doubles, so a block of 10 splits into 3 and 7
    under each of the three rounding modes. *)
Example split_size_three_tenths :
  split_size PyFloat.three_tenths "floor" 10 = Done (3, 7) /\
  split_size PyFloat.three_tenths "ceil" 10 = Done (3, 7) /\
  split_size PyFloat.three_tenths "nearest" 10 = Done (3, 7).
Proof. repeat split; vm_compute; reflexivity. Qed.

(** [2^1024] is beyond the doubles: [0.5 * 2**1024] raises [OverflowError]
    and [split_size] returns no pair. *)
Lemma split_size_overflow :
  PyFloat.in_unit_interval PyFloat.half /\
  2 <= 2 ^ 1024 /\
  split_size PyFloat.half "floor" (2 ^ 1024) = Raised OverflowError.
Proof.
  split; [split; [reflexivity | simpl; lia] |].
  split; [apply Z.leb_le; vm_compute; reflexivity |].
  vm_compute. reflexivity.
Qed.

(** C8, as amended: at a split event adaptive2 takes [p_split], the floor of
    [p * size] clamped to [1, size - 1], and its mirror [size - p_split]; it
    splits at the mirror (left [size - p_split], right [p_split]) when the
    insertion end-position exceeds the mirror and at [p_split] (left
    [p_split], right [size - p_split]) otherwise; either way the children
    are the same two sizes and add up to the block. *)
Theorem adaptive2_split_choice (p : PyFloat.float) (size e : Z)
    (raw : PyFloat.float) (f : Z) :
  PyFloat.mul_int p size = Done raw ->
  PyFloat.floor raw = Done f ->
  let p_split := Z.max 1 (Z.min (size - 1) f) in
  let mirror := size - p_split in
  (mirror < e -> adaptive2_split p size e = Done (mirror, p_split)) /\
  (e <= mirror -> adaptive2_split p size e = Done (p_split, mirror)) /\
  (forall l rr, adaptive2_split p size e = Done (l, rr) ->
     l + rr = size /\
     ((l = p_split /\ rr = mirror) \/ (l = mirror /\ rr = p_split))).
Proof.
  intros Hraw Hf p_split mirror.
  assert (E : adaptive2_split p size e =
              if e >? mirror then Done (mirror, p_split)
              else Done (p_split, mirror)).
  { unfold adaptive2_split. rewrite Hraw. simpl. rewrite Hf. reflexivity. }
  rewrite E. destruct (Z.gtb_spec e mirror) as [Hgt | Hle].
  - split; [reflexivity |]. split; [lia |].
    intros l rr H. injection H as <- <-. subst mirror. split; [lia | auto].
  - split; [lia |]. split; [reflexivity |].
    intros l rr H. injection H as <- <-. subst mirror. split; [lia | auto].
Qed.

Lemma adaptive2_split_choice_witness :
  let p_split := Z.max 1 (Z.min (10 - 1) 3) in
  let mirror := 10 - p_split in
  (mirror < 9 -> adaptive2_split PyFloat.three_tenths 10 9 = Done (mirror, p_split)) /\
  (9 <= mirror -> adaptive2_split PyFloat.three_tenths 10 9 = Done (p_split, mirror)) /\
  (forall l rr, adaptive2_split PyFloat.three_tenths 10 9 = Done (l, rr) ->
     l + rr = 10 /\
     ((l = p_split /\ rr = mirror) \/ (l = mirror /\ rr = p_split))).
Proof.
  apply (adaptive2_split_choice PyFloat.three_tenths 10 9
           (S754_finite false 6755399441055744 (-51)) 3).
  - vm_compute. reflexivity.
  - vm_compute. reflexivity.
Defined.

(** With [p = 0.25] and a block of 8 whose insertion ends at position 4,
    adaptive2 returns [(2, 6)]; with [1 - p = 0.75] at the mirrored
    end-position [8 - 4] it returns [(2, 6)] again, not the mirrored
    [(6, 2)]. *)
Lemma adaptive2_split_not_mirrored :
  PyFloat.in_unit_interval PyFloat.quarter /\
  adaptive2_split PyFloat.quarter 8 4 = Done (2, 6) /\
  adaptive2_split (complement PyFloat.quarter) 8 (8 - 4) = Done (2, 6) /\
  Done (2, 6) <> Done (mirrored (2, 6)).
Proof.
  split; [split; [reflexivity | simpl; lia] |].
  split; [vm_compute; reflexivity |].
  split; [vm_compute; reflexivity |].
  unfold mirrored; simpl. discriminate.
Qed.

(** ** The deferred policy *)

Section Deferred.

Variable B : Z.
Variable p : PyFloat.float.
Variable rounding : string.

Lemma requeued_finished_sum children :
  list_sum (requeued B children) + list_sum (finished B children) =
  list_sum children.
Proof.
  unfold requeued, finished, list_sum.
  induction children as [| c cs IH]; simpl; [reflexivity |].
  destruct (Z.leb_spec B c), (Z.ltb_spec c B); simpl; lia.
Qed.

Lemma requeued_Forall children : Forall (fun s => B <= s) (requeued B children).
Proof.
  unfold requeued. apply Forall_forall. intros x Hx.
  apply filter_In in Hx. destruct Hx as [_ Hx]. lia.
Qed.

Lemma finished_Forall children : Forall (fun s => s < B) (finished B children).
Proof.
  unfold finished. apply Forall_forall. intros x Hx.
  apply filter_In in Hx. destruct Hx as [_ Hx]. lia.
Qed.

(** One turn of the loop, with the two [if]s on the children read as a
    partition of the pair. *)
Lemma deferred_loop_cons fuel s q out k :
  deferred_loop B p rounding (S fuel) (s :: q) out k =
  if s <? B then deferred_loop B p rounding fuel q (out ++ [s]) k
  else
    '(l, rr) <- split_size p rounding s ;;
    deferred_loop B p rounding fuel (q ++ requeued B [l; rr])
      (out ++ finished B [l; rr]) (k + 1).
Proof.
  cbn [deferred_loop]. destruct (s <? B); [reflexivity |].
  destruct (split_size p rounding s) as [[l rr] | e |]; cbn [bind];
    [| reflexivity | reflexivity].
  unfold requeued, finished. cbn [filter].
  rewrite !Z.geb_leb.
  destruct (Z.leb_spec B l), (Z.leb_spec B rr);
    destruct (Z.ltb_spec l B), (Z.ltb_spec rr B); try lia;
    rewrite ?app_nil_r, <- ?app_assoc; reflexivity.
Qed.

(** An invariant of the queue, the results so far and the split count that
    both kinds of turn keep holds of the returned pair. *)
Lemma deferred_loop_invariant (I : list Z -> list Z -> Z -> Prop) :
  (forall s q out k, s < B -> I (s :: q) out k -> I q (out ++ [s]) k) ->
  (forall s q out k l rr,
      B <= s -> split_size p rounding s = Done (l, rr) -> I (s :: q) out k ->
      I (q ++ requeued B [l; rr]) (out ++ finished B [l; rr]) (k + 1)) ->
  forall fuel q out k res k',
    I q out k ->
    deferred_loop B p rounding fuel q out k = Done (res, k') ->
    I [] res k'.
Proof.
  intros Hfinal Hsplit.
  induction fuel as [| fuel IH]; intros q out k res k' HI H.
  - destruct q; simpl in H; [| discriminate]. now injection H as <- <-.
  - destruct q as [| s q]; [simpl in H; now injection H as <- <- |].
    rewrite deferred_loop_cons in H.
    destruct (Z.ltb_spec s B) as [Hlt | Hge].
    + eapply IH; [| exact H]. now apply Hfinal.
    + bind_inv H. destruct a as [l rr].
      eapply IH; [| exact H]. now apply (Hsplit s q out k l rr).
Qed.

Lemma deferred_loop_below fuel q out k res k' :
  Forall (fun s => s < B) out ->
  deferred_loop B p rounding fuel q out k = Done (res, k') ->
  Forall (fun s => s < B) res.
Proof.
  intros Hout H.
  apply (deferred_loop_invariant (fun _ out _ => Forall (fun s => s < B) out))
    with (fuel := fuel) (q := q) (out := out) (k := k) (k' := k');
    [| | assumption | assumption].
  - intros s q0 out0 k0 Hs HI. apply Forall_app. split; [assumption |].
    constructor; [assumption | constructor].
  - intros s q0 out0 k0 l rr _ _ HI. apply Forall_app. split; [assumption |].
    apply finished_Forall.
Qed.

Lemma deferred_loop_sum fuel q out k res k' :
  deferred_loop B p rounding fuel q out k = Done (res, k') ->
  list_sum res = list_sum q + list_sum out.
Proof.
  intros H.
  pose (total := list_sum q + list_sum out).
  enough (list_sum [] + list_sum res = total) by (unfold list_sum in *; simpl in *; lia).
  apply (deferred_loop_invariant
           (fun q out _ => list_sum q + list_sum out = total))
    with (fuel := fuel) (q := q) (out := out) (k := k) (k' := k');
    [| | reflexivity | assumption].
  - intros s q0 out0 k0 _ HI. rewrite list_sum_app.
    unfold list_sum in *. simpl in *. lia.
  - intros s q0 out0 k0 l rr _ Hsp HI.
    apply split_size_bounds in Hsp.
    rewrite !list_sum_app.
    pose proof (requeued_finished_sum [l; rr]) as Hpart.
    unfold list_sum in *. simpl in *. lia.
Qed.

Lemma deferred_loop_positive fuel q out k res k' :
  2 <= B ->
  Forall (fun s => 1 <= s) q -> Forall (fun s => 1 <= s) out ->
  deferred_loop B p rounding fuel q out k = Done (res, k') ->
  Forall (fun s => 1 <= s) res.
Proof.
  intros HB Hq Hout H.
  enough (Forall (fun s => 1 <= s) [] /\ Forall (fun s => 1 <= s) res) by tauto.
  apply (deferred_loop_invariant
           (fun q out _ => Forall (fun s => 1 <= s) q /\ Forall (fun s => 1 <= s) out))
    with (fuel := fuel) (q := q) (out := out) (k := k) (k' := k');
    [| | tauto | assumption].
  - intros s q0 out0 k0 _ [HIq HIo]. inversion HIq; subst.
    split; [assumption |]. apply Forall_app. split; [assumption |].
    constructor; [assumption | constructor].
  - intros s q0 out0 k0 l rr Hs Hsp [HIq HIo]. inversion HIq; subst.
    apply split_size_bounds in Hsp.
    assert (Hch : Forall (fun s => 1 <= s) [l; rr]).
    { constructor; [lia |]. constructor; [lia | constructor]. }
    split; apply Forall_app; (split; [assumption |]).
    + unfold requeued. apply Forall_forall. intros x Hx.
      apply filter_In in Hx. rewrite Forall_forall in Hch. apply Hch. tauto.
    + unfold finished. apply Forall_forall. intros x Hx.
      apply filter_In in Hx. rewrite Forall_forall in Hch. apply Hch. tauto.
Qed.

(** The work left in a queue: every queued block of size [s] can be split
    at most [s - 1] times. *)
Lemma deferred_loop_terminates fuel : forall q out k,
  2 <= B ->
  Forall (fun s => B <= s) q ->
  list_sum q - Z.of_nat (List.length q) <= Z.of_nat fuel ->
  deferred_loop B p rounding fuel q out k <> OutOfFuel.
Proof.
  induction fuel as [| fuel IH]; intros q out k HB Hq Hwork.
  - destruct q as [| s q]; [discriminate |].
    exfalso. inversion Hq as [| ? ? Hs Hq']; subst.
    assert (Z.of_nat (List.length q) <= list_sum q).
    { clear - Hq' HB. unfold list_sum.
      induction Hq' as [| x l Hx _ IHl]; cbn [List.length fold_right]; lia. }
    unfold list_sum in *. cbn [List.length fold_right] in Hwork. lia.
  - destruct q as [| s q]; [discriminate |].
    inversion Hq as [| ? ? Hs Hq']; subst.
    rewrite deferred_loop_cons.
    destruct (Z.ltb_spec s B) as [Hlt | _]; [lia |].
    destruct (split_size p rounding s) as [[l rr] | e |] eqn:Hsp;
      cbn [bind]; [| discriminate | now apply split_size_not_OutOfFuel in Hsp].
    apply split_size_bounds in Hsp.
    apply IH; [assumption | |].
    + apply Forall_app. split; [assumption | apply requeued_Forall].
    + rewrite list_sum_app, length_app.
      assert (Hreq : list_sum (requeued B [l; rr]) -
                     Z.of_nat (List.length (requeued B [l; rr])) <= s - 2).
      { unfold requeued, list_sum. cbn [filter].
        destruct (Z.leb_spec B l), (Z.leb_spec B rr);
          cbn [List.length fold_right]; lia. }
      unfold list_sum in *. cbn [List.length fold_right] in Hwork. lia.
Qed.

(** The loop is the FIFO cascade. *)
Lemma deferred_loop_cascade fuel : forall q out k res k',
  deferred_loop B p rounding fuel q out k = Done (res, k') ->
  cascade B p rounding FIFO q out k res k'.
Proof.
  induction fuel as [| fuel IH]; intros q out k res k' H.
  - destruct q; simpl in H; [| discriminate]. injection H as <- <-. constructor.
  - destruct q as [| s q]; [simpl in H; injection H as <- <-; constructor |].
    rewrite deferred_loop_cons in H.
    destruct (Z.ltb_spec s B) as [Hlt | Hge].
    + eapply cascade_final; [reflexivity | assumption | now apply IH].
    + bind_inv H. destruct a as [l rr].
      eapply cascade_split; [reflexivity | assumption | eassumption | now apply IH].
Qed.

Lemma cascade_deferred_loop q out k res k' :
  cascade B p rounding FIFO q out k res k' ->
  exists fuel, deferred_loop B p rounding fuel q out k = Done (res, k').
Proof.
  induction 1 as [out k
                 | q s q' out k res k' Hpop Hs _ [fuel IH]
                 | q s q' l rr out k res k' Hpop Hs Hsp _ [fuel IH]].
  - exists O. reflexivity.
  - destruct q as [| s0 q0]; [discriminate |]. injection Hpop as -> ->.
    exists (S fuel). rewrite deferred_loop_cons.
    destruct (Z.ltb_spec s B); [assumption | lia].
  - destruct q as [| s0 q0]; [discriminate |]. injection Hpop as -> ->.
    exists (S fuel). rewrite deferred_loop_cons.
    destruct (Z.ltb_spec s B); [lia |].
    rewrite Hsp. exact IH.
Qed.

(** A cascade has one outcome. *)
Lemma cascade_deterministic d q out k res1 k1 :
  cascade B p rounding d q out k res1 k1 ->
  forall res2 k2, cascade B p rounding d q out k res2 k2 ->
  res1 = res2 /\ k1 = k2.
Proof.
  induction 1 as [out k
                 | q s q' out k res k' Hpop Hs _ IH
                 | q s q' l rr out k res k' Hpop Hs Hsp _ IH];
    intros res2 k2 H2.
  - inversion H2 as [| ? ? ? ? ? ? ? Hpop2 | ? ? ? ? ? ? ? ? ? Hpop2]; subst;
      [tauto | |]; destruct d; discriminate.
  - inversion H2 as [| ? s2 q2 ? ? ? ? Hpop2 Hs2 Hrest
                      | ? s2 q2 ? ? ? ? ? ? Hpop2 Hs2 Hsp2 Hrest]; subst.
    + destruct d; discriminate.
    + rewrite Hpop in Hpop2. injection Hpop2 as <- <-. now apply IH.
    + rewrite Hpop in Hpop2. injection Hpop2 as <- <-. lia.
  - inversion H2 as [| ? s2 q2 ? ? ? ? Hpop2 Hs2 Hrest
                      | ? s2 q2 l2 rr2 ? ? ? ? Hpop2 Hs2 Hsp2 Hrest]; subst.
    + destruct d; discriminate.
    + rewrite Hpop in Hpop2. injection Hpop2 as <- <-. lia.
    + rewrite Hpop in Hpop2. injection Hpop2 as <- <-.
      rewrite Hsp in Hsp2. injection Hsp2 as <- <-. now apply IH.
Qed.

End Deferred.

Lemma deferred_loop_returns B p rounding fuel : forall q out k,
  2 <= B ->
  PyFloat.in_unit_interval p ->
  Forall (fun s => B <= s < PyFloat.dbl_max) q ->
  list_sum q - Z.of_nat (List.length q) <= Z.of_nat fuel ->
  exists res k', deferred_loop B p rounding fuel q out k = Done (res, k').
Proof.
  induction fuel as [| fuel IH]; intros q out k HB Hp Hq Hwork.
  - destruct q as [| s q]; [simpl; eauto |].
    exfalso. inversion Hq as [| ? ? Hs Hq']; subst.
    assert (Z.of_nat (List.length q) <= list_sum q).
    { clear - Hq' HB. unfold list_sum.
      induction Hq' as [| x l Hx _ IHl]; cbn [List.length fold_right]; lia. }
    unfold list_sum in *. cbn [List.length fold_right] in Hwork. lia.
  - destruct q as [| s q]; [simpl; eauto |].
    inversion Hq as [| ? ? Hs Hq']; subst.
    rewrite deferred_loop_cons.
    destruct (Z.ltb_spec s B) as [Hlt | _]; [lia |].
    destruct (split_size_returns p rounding s Hp) as [l [rr Hsp]]; [lia |].
    rewrite Hsp. cbn [bind].
    apply split_size_bounds in Hsp.
    apply IH; [assumption | assumption | |].
    + apply Forall_app. split; [assumption |].
      unfold requeued. apply Forall_forall. intros x Hx.
      apply filter_In in Hx. destruct Hx as [Hin Hx].
      simpl in Hin. lia.
    + rewrite list_sum_app, length_app.
      assert (Hreq : list_sum (requeued B [l; rr]) -
                     Z.of_nat (List.length (requeued B [l; rr])) <= s - 2).
      { unfold requeued, list_sum. cbn [filter].
        destruct (Z.leb_spec B l), (Z.leb_spec B rr);
          cbn [List.length fold_right]; lia. }
      unfold list_sum in *. cbn [List.length fold_right] in Hwork. lia.
Qed.

(** C7: the deferred policy is called without the offset and adds the whole
    batch to the sampled block; below capacity it returns [[new_size]] and no
    split; otherwise what it returns is exactly the outcome of the FIFO
    work-queue cascade started on [new_size], and every returned occupancy
    is below [B]; for a capacity of at least 2 the queue empties within
    [new_size] turns, and inside the range of the doubles the policy then
    returns its list. *)
Theorem insert_deferred_fifo (B : Z) (p : PyFloat.float) (rounding : string)
    (occupancy r : Z) (fuel : nat) :
  0 <= occupancy -> 1 <= r ->
  let new_size := occupancy + r in
  (forall offset,
     insert_batch B r p rounding "deferred" fuel occupancy offset =
     insert_deferred B p rounding fuel occupancy r) /\
  (new_size < B ->
     insert_deferred B p rounding fuel occupancy r = Done ([new_size], 0)) /\
  (B <= new_size ->
     forall res k,
       insert_deferred B p rounding fuel occupancy r = Done (res, k) ->
       cascade B p rounding FIFO [new_size] [] 0 res k /\
       (forall res' k', cascade B p rounding FIFO [new_size] [] 0 res' k' ->
          res' = res /\ k' = k) /\
       Forall (fun s => s < B) res) /\
  (B <= new_size ->
     forall res k,
       cascade B p rounding FIFO [new_size] [] 0 res k ->
       exists fuel', insert_deferred B p rounding fuel' occupancy r = Done (res, k)) /\
  (2 <= B -> (Z.to_nat new_size <= fuel)%nat ->
     insert_deferred B p rounding fuel occupancy r <> OutOfFuel) /\
  (2 <= B -> PyFloat.in_unit_interval p -> new_size < PyFloat.dbl_max ->
     (Z.to_nat new_size <= fuel)%nat ->
     exists res k, insert_deferred B p rounding fuel occupancy r = Done (res, k)).
Proof.
  intros Hocc Hr new_size. split; [reflexivity |].
  unfold insert_deferred. fold new_size.
  destruct (Z.ltb_spec new_size B) as [Hlt | Hge].
  - split; [reflexivity |]. split; [lia |]. split; [lia |].
    split; [intros _ _; discriminate | eauto].
  - split; [lia |]. split; [| split; [| split]].
    + intros _ res k H.
      pose proof (deferred_loop_cascade _ _ _ _ _ _ _ _ _ H) as Hc.
      split; [exact Hc |]. split.
      * intros res' k' Hc'.
        destruct (cascade_deterministic _ _ _ _ _ _ _ _ _ Hc' _ _ Hc). auto.
      * eapply deferred_loop_below; [| exact H]. constructor.
    + intros _ res k Hc. now apply cascade_deferred_loop.
    + intros HB Hfuel. apply deferred_loop_terminates; [assumption | |].
      * constructor; [assumption | constructor].
      * unfold list_sum. cbn [List.length fold_right]. lia.
    + intros HB Hp Hmax Hfuel. apply deferred_loop_returns; try assumption.
      * constructor; [lia | constructor].
      * unfold list_sum. cbn [List.length fold_right]. lia.
Qed.

Lemma insert_deferred_fifo_witness :
  let new_size := 2 + 5 in
  (forall offset,
     insert_batch 3 5 PyFloat.half "floor" "deferred" 7 2 offset =
     insert_deferred 3 PyFloat.half "floor" 7 2 5) /\
  (new_size < 3 ->
     insert_deferred 3 PyFloat.half "floor" 7 2 5 = Done ([new_size], 0)) /\
  (3 <= new_size ->
     forall res k,
       insert_deferred 3 PyFloat.half "floor" 7 2 5 = Done (res, k) ->
       cascade 3 PyFloat.half "floor" FIFO [new_size] [] 0 res k /\
       (forall res' k', cascade 3 PyFloat.half "floor" FIFO [new_size] [] 0 res' k' ->
          res' = res /\ k' = k) /\
       Forall (fun s => s < 3) res) /\
  (3 <= new_size ->
     forall res k,
       cascade 3 PyFloat.half "floor" FIFO [new_size] [] 0 res k ->
       exists fuel', insert_deferred 3 PyFloat.half "floor" fuel' 2 5 = Done (res, k)) /\
  (2 <= 3 -> (Z.to_nat new_size <= 7)%nat ->
     insert_deferred 3 PyFloat.half "floor" 7 2 5 <> OutOfFuel) /\
  (2 <= 3 -> PyFloat.in_unit_interval PyFloat.half -> new_size < PyFloat.dbl_max ->
     (Z.to_nat new_size <= 7)%nat ->
     exists res k, insert_deferred 3 PyFloat.half "floor" 7 2 5 = Done (res, k)).
Proof.
  apply (insert_deferred_fifo 3 PyFloat.half "floor" 2 5 7); lia.
Defined.

(** On a block of 2 that receives 5 with [B = 3] and [p = 0.5] the policy
    returns [[1; 2; 2; 2]]; popping the newest candidate first would give
    [[2; 2; 1; 2]]. *)
Example insert_deferred_not_lifo :
  insert_deferred 3 PyFloat.half "floor" 7 2 5 = Done ([1; 2; 2; 2], 3) /\
  cascade 3 PyFloat.half "floor" LIFO [7] [] 0 [2; 2; 1; 2] 3.
Proof.
  split; [vm_compute; reflexivity |].
  eapply cascade_split; [reflexivity | lia | vm_compute; reflexivity |].
  eapply cascade_split; [reflexivity | lia | vm_compute; reflexivity |].
  eapply cascade_split; [reflexivity | lia | vm_compute; reflexivity |].
  apply cascade_empty.
Qed.

(** ** The position-sensitive policies *)

Section Fill.

Variable B : Z.
Variable choose : Z -> Z -> outcome (Z * Z).
Hypothesis choose_splits : splits_block choose.

(** An invariant of the live block, what remains of the batch and the
    results so far that the continuing turns keep, and that gives [Q] on
    the two ways out of the loop, gives [Q] of the returned list. *)
Lemma fill_loop_invariant (I : Z -> Z -> list Z -> Prop) (Q : list Z -> Prop) :
  (forall cs rem out,
      I cs rem out -> rem < B - cs -> Q (out ++ [cs + rem])) ->
  (forall cs rem out e l rr,
      I cs rem out -> rem = B - cs -> choose B e = Done (l, rr) ->
      Q (out ++ [l; rr]) /\ I rr 0 (out ++ [l])) ->
  (forall cs rem out e l rr,
      I cs rem out -> B - cs < rem -> choose B e = Done (l, rr) ->
      I l (rem - (B - cs)) (out ++ [rr]) /\
      I rr (rem - (B - cs)) (out ++ [l])) ->
  forall fuel cs pos rem out k res k',
    I cs rem out ->
    fill_loop B choose fuel cs pos rem out k = Done (res, k') ->
    Q res.
Proof.
  intros Hfit Hexact Hover.
  induction fuel as [| fuel IH]; intros cs pos rem out k res k' HI H;
    [discriminate |].
  cbn [fill_loop] in H. cbv zeta in H.
  destruct (Z.ltb_spec rem (B - cs)) as [Hlt | Hge].
  - injection H as <- _. now apply Hfit.
  - destruct (Z.eqb_spec rem (B - cs)) as [Heq | Hne].
    + bind_inv H. destruct a as [l rr].
      destruct (Hexact _ _ _ _ _ _ HI Heq Ha) as [HQ HI'].
      destruct (pos + (B - cs) <=? l).
      * injection H as <- _. exact HQ.
      * eapply IH; [exact HI' | exact H].
    + bind_inv H. destruct a as [l rr].
      assert (Hgt : B - cs < rem) by lia.
      destruct (Hover _ _ _ _ _ _ HI Hgt Ha) as [HIl HIr].
      destruct (pos + (B - cs) <=? l).
      * eapply IH; [exact HIl | exact H].
      * eapply IH; [exact HIr | exact H].
Qed.

(** The loop moves elements around and loses none. *)
Lemma fill_loop_sum fuel cs pos rem out k res k' :
  fill_loop B choose fuel cs pos rem out k = Done (res, k') ->
  list_sum res = list_sum out + cs + rem.
Proof.
  intros H. pose (total := list_sum out + cs + rem).
  apply (fill_loop_invariant
           (fun cs rem out => list_sum out + cs + rem = total)
           (fun res => list_sum res = total))
    with (fuel := fuel) (cs := cs) (pos := pos) (rem := rem) (out := out)
         (k := k) (k' := k'); [| | | reflexivity | assumption].
  - intros cs0 rem0 out0 HI _. rewrite list_sum_app.
    unfold list_sum in *. simpl. lia.
  - intros cs0 rem0 out0 e l rr HI Heq Hch.
    destruct (choose_splits B e) as [_ Hsp].
    destruct (Hsp _ _ Hch) as [Hsum _].
    rewrite !list_sum_app. unfold list_sum in *. simpl. lia.
  - intros cs0 rem0 out0 e l rr HI Hgt Hch.
    destruct (choose_splits B e) as [_ Hsp].
    destruct (Hsp _ _ Hch) as [Hsum _].
    rewrite !list_sum_app. unfold list_sum in *. simpl. lia.
Qed.

(** With a capacity of at least 2, a live block below capacity and a batch
    that is not empty, every returned block holds at least one element and
    fewer than [B]. *)
Lemma fill_loop_within fuel cs pos rem out k res k' :
  2 <= B ->
  0 <= cs < B -> 0 <= rem -> 1 <= cs + rem ->
  Forall (fun s => 1 <= s <= B - 1) out ->
  fill_loop B choose fuel cs pos rem out k = Done (res, k') ->
  Forall (fun s => 1 <= s <= B - 1) res.
Proof.
  intros HB Hcs Hrem Hone Hout H.
  apply (fill_loop_invariant
           (fun cs rem out =>
              0 <= cs < B /\ 0 <= rem /\ 1 <= cs + rem /\
              Forall (fun s => 1 <= s <= B - 1) out)
           (fun res => Forall (fun s => 1 <= s <= B - 1) res))
    with (fuel := fuel) (cs := cs) (pos := pos) (rem := rem) (out := out)
         (k := k) (k' := k'); [| | | tauto | assumption].
  - intros cs0 rem0 out0 [Hc [Hr [H1 Ho]]] Hlt.
    apply Forall_app. split; [assumption |].
    constructor; [lia | constructor].
  - intros cs0 rem0 out0 e l rr [Hc [Hr [H1 Ho]]] Heq Hch.
    destruct (choose_splits B e) as [_ Hsp].
    destruct (Hsp _ _ Hch) as [Hsum [Hin _]]. specialize (Hin HB).
    split.
    + apply Forall_app. split; [assumption |].
      constructor; [lia |]. constructor; [lia | constructor].
    + split; [lia |]. split; [lia |]. split; [lia |].
      apply Forall_app. split; [assumption |].
      constructor; [lia | constructor].
  - intros cs0 rem0 out0 e l rr [Hc [Hr [H1 Ho]]] Hgt Hch.
    destruct (choose_splits B e) as [_ Hsp].
    destruct (Hsp _ _ Hch) as [Hsum [Hin _]]. specialize (Hin HB).
    split; (split; [lia |]; split; [lia |]; split; [lia |];
            apply Forall_app; split; [assumption |];
            constructor; [lia | constructor]).
Qed.

(** With a capacity of at least 1 no returned block exceeds it. *)
Lemma fill_loop_at_most fuel cs pos rem out k res k' :
  1 <= B ->
  Forall (fun s => s <= B) out ->
  fill_loop B choose fuel cs pos rem out k = Done (res, k') ->
  Forall (fun s => s <= B) res.
Proof.
  intros HB Hout H.
  apply (fill_loop_invariant
           (fun _ _ out => Forall (fun s => s <= B) out)
           (fun res => Forall (fun s => s <= B) res))
    with (fuel := fuel) (cs := cs) (pos := pos) (rem := rem) (out := out)
         (k := k) (k' := k'); [| | | assumption | assumption].
  - intros cs0 rem0 out0 Ho Hlt.
    apply Forall_app. split; [assumption |].
    constructor; [lia | constructor].
  - intros cs0 rem0 out0 e l rr Ho Heq Hch.
    destruct (choose_splits B e) as [_ Hsp].
    destruct (Hsp _ _ Hch) as [Hsum [_ Hin]]. specialize (Hin HB).
    split; apply Forall_app; (split; [assumption |]).
    + constructor; [lia |]. constructor; [lia | constructor].
    + constructor; [lia | constructor].
  - intros cs0 rem0 out0 e l rr Ho Hgt Hch.
    destruct (choose_splits B e) as [_ Hsp].
    destruct (Hsp _ _ Hch) as [Hsum [_ Hin]]. specialize (Hin HB).
    split; apply Forall_app; (split; [assumption |]);
      (constructor; [lia | constructor]).
Qed.

(** Each overflowing turn consumes at least one element of the batch, and
    a turn that fills the block exactly is followed by at most one more. *)
Lemma fill_loop_terminates fuel : forall cs pos rem out k,
  2 <= B -> cs < B -> 0 <= rem ->
  rem + 2 <= Z.of_nat fuel ->
  fill_loop B choose fuel cs pos rem out k <> OutOfFuel.
Proof.
  induction fuel as [| fuel IH]; intros cs pos rem out k HB Hcs Hrem Hfuel;
    [lia |].
  cbn [fill_loop]. cbv zeta.
  destruct (Z.ltb_spec rem (B - cs)) as [Hlt | Hge]; [discriminate |].
  destruct (choose_splits B (pos + (B - cs))) as [Hnot Hsp].
  destruct (Z.eqb_spec rem (B - cs)) as [Heq | Hne].
  - destruct (choose B (pos + (B - cs))) as [[l rr] | e |] eqn:Hch;
      cbn [bind]; [| discriminate | congruence].
    destruct (Hsp _ _ eq_refl) as [Hsum [Hin _]]. specialize (Hin HB).
    destruct (pos + (B - cs) <=? l); [discriminate |].
    apply IH; lia.
  - destruct (choose B (pos + (B - cs))) as [[l rr] | e |] eqn:Hch;
      cbn [bind]; [| discriminate | congruence].
    destruct (Hsp _ _ eq_refl) as [Hsum [Hin _]]. specialize (Hin HB).
    destruct (pos + (B - cs) <=? l); apply IH; lia.
Qed.

End Fill.

Lemma fill_loop_returns B choose fuel : forall cs pos rem out k,
  splits_block choose ->
  (forall e, exists l rr, choose B e = Done (l, rr)) ->
  2 <= B -> cs < B -> 0 <= rem ->
  rem + 2 <= Z.of_nat fuel ->
  exists res k', fill_loop B choose fuel cs pos rem out k = Done (res, k').
Proof.
  induction fuel as [| fuel IH]; intros cs pos rem out k Hsplits Htotal HB Hcs Hrem Hfuel;
    [lia |].
  cbn [fill_loop]. cbv zeta.
  destruct (Z.ltb_spec rem (B - cs)) as [Hlt | Hge]; [eauto |].
  destruct (Htotal (pos + (B - cs))) as [l [rr Hch]].
  destruct (Hsplits B (pos + (B - cs))) as [_ Hsp].
  destruct (Hsp _ _ Hch) as [Hsum [Hin _]]. specialize (Hin HB).
  rewrite Hch. cbn [bind].
  destruct (Z.eqb_spec rem (B - cs)) as [Heq | Hne].
  - destruct (pos + (B - cs) <=? l); [eauto |].
    apply IH; try assumption; lia.
  - destruct (pos + (B - cs) <=? l); apply IH; try assumption; lia.
Qed.

(** ** One batch *)

Section Batch.

Variable B : Z.
Variable r : Z.
Variable p : PyFloat.float.
Variable rounding : string.
Variable rand : nat -> Z.
Variable method : string.
Variable fuel : nat.

(** Splits the goal along the [if method == ...] chain, leaving in each of
    the four branches the policy call as hypothesis [H]. *)
Ltac by_method H :=
  unfold insert_batch in H;
  destruct (String.eqb method "deferred");
    [| destruct (String.eqb method "adaptive");
       [| destruct (String.eqb method "adaptive2");
          [| destruct (String.eqb method "immediately");
             [| try discriminate H]]]].

Lemma insert_batch_valid old_size insert_pos :
  insert_batch B r p rounding method fuel old_size insert_pos = Raised ValueError \/
  valid_method method.
Proof.
  unfold insert_batch, valid_method.
  destruct (String.eqb_spec method "deferred"); [tauto |].
  destruct (String.eqb_spec method "adaptive"); [tauto |].
  destruct (String.eqb_spec method "adaptive2"); [tauto |].
  destruct (String.eqb_spec method "immediately"); [tauto |].
  left; reflexivity.
Qed.

Lemma insert_batch_sum old_size insert_pos new_blocks num_splits :
  insert_batch B r p rounding method fuel old_size insert_pos =
    Done (new_blocks, num_splits) ->
  list_sum new_blocks = old_size + r.
Proof.
  intros H. by_method H.
  - unfold insert_deferred in H.
    destruct (old_size + r <? B).
    + injection H as <- _. unfold list_sum. simpl. lia.
    + apply deferred_loop_sum in H. unfold list_sum in *. simpl in *. lia.
  - apply (fill_loop_sum _ _ (adaptive_split_splits p)) in H.
    unfold list_sum in *. simpl in *. lia.
  - apply (fill_loop_sum _ _ (adaptive2_split_splits p)) in H.
    unfold list_sum in *. simpl in *. lia.
  - apply (fill_loop_sum _ _ (split_size_splits p rounding)) in H.
    unfold list_sum in *. simpl in *. lia.
Qed.

Lemma insert_batch_within old_size insert_pos new_blocks num_splits :
  2 <= B -> 1 <= r -> 0 <= old_size < B ->
  insert_batch B r p rounding method fuel old_size insert_pos =
    Done (new_blocks, num_splits) ->
  Forall (fun s => 1 <= s <= B - 1) new_blocks.
Proof.
  intros HB Hr Hold H. by_method H.
  - unfold insert_deferred in H.
    destruct (Z.ltb_spec (old_size + r) B).
    + injection H as <- _. constructor; [lia | constructor].
    + pose proof (deferred_loop_below _ _ _ _ _ _ _ _ _ (Forall_nil _) H) as Hlt.
      assert (Hpos : Forall (fun s => 1 <= s) new_blocks).
      { eapply deferred_loop_positive; [exact HB | | | exact H].
        - constructor; [lia | constructor].
        - constructor. }
      rewrite Forall_forall in *. intros x Hx.
      specialize (Hlt x Hx). specialize (Hpos x Hx). lia.
  - eapply (fill_loop_within _ _ (adaptive_split_splits p)); try exact H;
      try lia; constructor.
  - eapply (fill_loop_within _ _ (adaptive2_split_splits p)); try exact H;
      try lia; constructor.
  - eapply (fill_loop_within _ _ (split_size_splits p rounding)); try exact H;
      try lia; constructor.
Qed.

Lemma insert_batch_at_most old_size insert_pos new_blocks num_splits :
  1 <= B ->
  insert_batch B r p rounding method fuel old_size insert_pos =
    Done (new_blocks, num_splits) ->
  Forall (fun s => s <= B) new_blocks.
Proof.
  intros HB H. by_method H.
  - unfold insert_deferred in H.
    destruct (Z.ltb_spec (old_size + r) B).
    + injection H as <- _. constructor; [lia | constructor].
    + pose proof (deferred_loop_below _ _ _ _ _ _ _ _ _ (Forall_nil _) H) as Hlt.
      rewrite Forall_forall in *. intros x Hx. specialize (Hlt x Hx). lia.
  - eapply (fill_loop_at_most _ _ (adaptive_split_splits p)); try exact H;
      try lia; constructor.
  - eapply (fill_loop_at_most _ _ (adaptive2_split_splits p)); try exact H;
      try lia; constructor.
  - eapply (fill_loop_at_most _ _ (split_size_splits p rounding)); try exact H;
      try lia; constructor.
Qed.

Lemma insert_batch_terminates old_size insert_pos :
  2 <= B -> 1 <= r -> 0 <= old_size < B ->
  B + r <= Z.of_nat fuel ->
  insert_batch B r p rounding method fuel old_size insert_pos <> OutOfFuel.
Proof.
  intros HB Hr Hold Hfuel H. by_method H.
  - unfold insert_deferred in H.
    destruct (Z.ltb_spec (old_size + r) B); [discriminate |].
    revert H. apply deferred_loop_terminates; [assumption | |].
    + constructor; [assumption | constructor].
    + unfold list_sum. cbn [List.length fold_right]. lia.
  - revert H. apply (fill_loop_terminates _ _ (adaptive_split_splits p)); lia.
  - revert H. apply (fill_loop_terminates _ _ (adaptive2_split_splits p)); lia.
  - revert H. apply (fill_loop_terminates _ _ (split_size_splits p rounding)); lia.
Qed.

Lemma batch_step_inv batch_idx st st' :
  batch_step B r p rounding rand method fuel batch_idx st = Done st' ->
  exists old_size insert_pos h1 new_blocks num_splits,
    sample_block (size_counts st) (rand batch_idx) = Done (old_size, insert_pos) /\
    remove_block (size_counts st) old_size = Done h1 /\
    insert_batch B r p rounding method fuel old_size insert_pos =
      Done (new_blocks, num_splits) /\
    st' = update_state B r st (add_blocks h1 new_blocks) num_splits.
Proof.
  unfold batch_step. intros H.
  bind_inv H. destruct a as [old_size insert_pos].
  bind_inv H. bind_inv H. destruct a0 as [new_blocks num_splits].
  injection H as <-.
  exists old_size, insert_pos, a, new_blocks, num_splits. auto.
Qed.

Lemma run_batches_succ k st' :
  run_batches B r p rounding rand method fuel (S k) = Done st' ->
  exists st,
    run_batches B r p rounding rand method fuel k = Done st /\
    batch_step B r p rounding rand method fuel k st = Done st'.
Proof. cbn [run_batches]. intros H. bind_inv H. eauto. Qed.

(** The histogram is the block population, counted by size. *)
Lemma run_batches_population k : forall st,
  run_batches B r p rounding rand method fuel k = Done st ->
  exists blocks,
    block_population B r p rounding rand method fuel k = Done blocks /\
    hist_wf (size_counts st) /\
    (forall s, hist_count (size_counts st) s =
               Z.of_nat (count_occ Z.eq_dec blocks s)) /\
    hist_blocks (size_counts st) = Z.of_nat (List.length blocks) /\
    hist_weight (size_counts st) = list_sum blocks /\
    list_sum blocks = Z.of_nat k * r /\
    total_keys st = Z.of_nat k * r /\
    inserts (stats st) = Z.of_nat k * r.
Proof.
  induction k as [| k IH]; intros st' H.
  - injection H as <-. exists [0]. split; [reflexivity |].
    split.
    { split; repeat constructor; simpl; tauto. }
    split.
    { intros s. unfold hist_count. cbn [init_state size_counts hist_get].
      destruct (Z.eqb_spec 0 s) as [E | Hne].
      - subst s. reflexivity.
      - rewrite count_occ_cons_neq by assumption. reflexivity. }
    repeat split; reflexivity.
  - destruct (run_batches_succ _ _ H) as [st [Hrun Hstep]].
    destruct (IH _ Hrun) as
      [blocks [Hpop [Hwf [Hcount [Hblocks [Hweight [Hsum [Hkeys Hins]]]]]]]].
    destruct (batch_step_inv _ _ _ Hstep) as
      [old [pos [h1 [new_blocks [ns [Hsample [Hrem [Hpol ->]]]]]]]].
    exists (remove_one old blocks ++ new_blocks).
    assert (Hin : In old blocks).
    { destruct (remove_block_present _ _ _ Hrem) as [c Hc].
      pose proof (hist_wf_get_pos _ _ _ Hwf Hc) as Hpos.
      apply hist_count_get in Hc. rewrite Hcount in Hc.
      apply (count_occ_In Z.eq_dec). lia. }
    destruct (remove_block_sums _ _ _ Hrem) as [Hb1 Hw1].
    destruct (add_blocks_sums new_blocks h1) as [Hb2 Hw2].
    pose proof (insert_batch_sum _ _ _ _ Hpol) as Hnew.
    split.
    { cbn [block_population]. rewrite Hpop, Hrun. cbn [bind].
      rewrite Hsample. cbn [bind]. rewrite Hpol. reflexivity. }
    cbn [update_state size_counts total_keys stats inserts].
    split.
    { apply add_blocks_wf. eapply remove_block_wf; eauto. }
    split.
    { intros s. rewrite add_blocks_count.
      rewrite (remove_block_count _ _ _ s Hwf Hrem), Hcount.
      rewrite count_occ_app, Nat2Z.inj_add, remove_one_count by assumption.
      lia. }
    split.
    { rewrite Hb2, Hb1, Hblocks, length_app, Nat2Z.inj_add.
      rewrite remove_one_length by assumption. lia. }
    split.
    { rewrite Hw2, Hw1, Hweight, list_sum_app.
      rewrite remove_one_sum by assumption. lia. }
    rewrite list_sum_app, remove_one_sum by assumption.
    repeat split; lia.
Qed.

End Batch.

Lemma insert_batch_returns B r p rounding method fuel old_size insert_pos :
  valid_method method ->
  PyFloat.in_unit_interval p ->
  2 <= B -> 1 <= r -> 0 <= old_size < B ->
  B + r < PyFloat.dbl_max ->
  B + r <= Z.of_nat fuel ->
  exists new_blocks num_splits,
    insert_batch B r p rounding method fuel old_size insert_pos =
    Done (new_blocks, num_splits).
Proof.
  intros Hvalid Hp HB Hr Hold Hmax Hfuel. unfold insert_batch.
  destruct (String.eqb_spec method "deferred") as [E0 | N0].
  { unfold insert_deferred.
    destruct (Z.ltb_spec (old_size + r) B); [eauto |].
    apply deferred_loop_returns; try assumption.
    - constructor; [lia | constructor].
    - unfold list_sum. cbn [List.length fold_right]. lia. }
  destruct (String.eqb_spec method "adaptive") as [E1 | N1].
  { apply fill_loop_returns; try lia.
    - apply adaptive_split_splits.
    - intros e'. apply adaptive_split_returns; [assumption | lia]. }
  destruct (String.eqb_spec method "adaptive2") as [E2 | N2].
  { apply fill_loop_returns; try lia.
    - apply adaptive2_split_splits.
    - intros e'. apply adaptive2_split_returns; [assumption | lia]. }
  destruct (String.eqb_spec method "immediately") as [E3 | N3].
  { apply fill_loop_returns; try lia.
    - apply split_size_splits.
    - intros e'. apply split_size_returns; [assumption | lia]. }
  unfold valid_method in Hvalid. tauto.
Qed.

(** ** Runs *)

Lemma hist_weight_le_capacity B h :
  keys_all (fun s => s <= B) h -> Forall (fun sc => 0 < snd sc) h ->
  hist_weight h <= B * hist_blocks h.
Proof.
  unfold keys_all, hist_weight, hist_blocks.
  induction h as [| [s c] h IH]; simpl; intros Hk Hp; [lia |].
  inversion Hk; inversion Hp; subst; simpl in *.
  specialize (IH ltac:(assumption) ltac:(assumption)). nia.
Qed.

Lemma remove_block_not_OutOfFuel h old : remove_block h old <> OutOfFuel.
Proof.
  unfold remove_block. destruct (hist_get h old) as [c |]; [| discriminate].
  destruct (c - 1 =? 0); discriminate.
Qed.

Lemma sample_initial raw : sample_block [(0, 1)] raw = Done (0, 0).
Proof.
  rewrite sample_block_degenerate by reflexivity.
  unfold randbelow. simpl. rewrite Z.mod_1_r. reflexivity.
Qed.

Section Run.

Variable B : Z.
Variable r : Z.
Variable p : PyFloat.float.
Variable rounding : string.
Variable rand : nat -> Z.
Variable method : string.
Variable fuel : nat.

(** Between batches no block is empty or at capacity. *)
Lemma run_batches_capacity k : forall st,
  2 <= B -> 1 <= r ->
  run_batches B r p rounding rand method fuel k = Done st ->
  (k = O -> size_counts st = [(0, 1)]) /\
  (k <> O -> keys_all (fun s => 1 <= s <= B - 1) (size_counts st)).
Proof.
  induction k as [| k IH]; intros st' HB Hr H.
  - injection H as <-. split; [reflexivity | congruence].
  - split; [discriminate |]. intros _.
    destruct (run_batches_succ _ _ _ _ _ _ _ _ _ H) as [st [Hrun Hstep]].
    destruct (IH _ HB Hr Hrun) as [Hzero Hpos].
    destruct (batch_step_inv _ _ _ _ _ _ _ _ _ _ Hstep) as
      [old [pos [h1 [new_blocks [ns [Hsample [Hrem [Hpol ->]]]]]]]].
    cbn [update_state size_counts].
    pose proof (sample_block_key _ _ _ _ Hsample) as Hkey.
    destruct k as [| k'].
    + rewrite (Hzero eq_refl) in *. simpl in Hkey.
      destruct Hkey as [<- | []].
      cbv in Hrem. injection Hrem as <-.
      apply add_blocks_keys; [constructor |].
      eapply insert_batch_within; [exact HB | exact Hr | | exact Hpol]. lia.
    + specialize (Hpos ltac:(discriminate)).
      assert (Hold : 1 <= old <= B - 1).
      { unfold keys_all in Hpos. rewrite Forall_forall in Hpos.
        unfold hist_keys in Hkey. apply in_map_iff in Hkey.
        destruct Hkey as [sc [<- Hin]]. exact (Hpos _ Hin). }
      apply add_blocks_keys.
      * eapply remove_block_keys; eauto.
      * eapply insert_batch_within; [exact HB | exact Hr | | exact Hpol]. lia.
Qed.

(** No block ever exceeds the capacity, so the tallies of elements stay
    below the tallies of capacity. *)
Lemma run_batches_tallies k : forall st,
  1 <= B -> 1 <= r ->
  run_batches B r p rounding rand method fuel k = Done st ->
  keys_all (fun s => s <= B) (size_counts st) /\
  0 <= elem_tally (stats st) <= capacity_tally (stats st) /\
  (k <> O -> 0 < elem_tally (stats st)).
Proof.
  induction k as [| k IH]; intros st' HB Hr H.
  - injection H as <-. simpl. split.
    + repeat constructor. simpl. lia.
    + split; [lia | congruence].
  - destruct (run_batches_succ _ _ _ _ _ _ _ _ _ H) as [st [Hrun Hstep]].
    destruct (IH _ HB Hr Hrun) as [Hkeys [Htally _]].
    destruct (run_batches_population _ _ _ _ _ _ _ _ _ Hrun) as
      [_ [_ [_ [_ [_ [_ [_ [Htk _]]]]]]]].
    destruct (run_batches_population _ _ _ _ _ _ _ _ _ H) as
      [blocks' [_ [Hwf' [_ [_ [Hw' [Hs' _]]]]]]].
    destruct (batch_step_inv _ _ _ _ _ _ _ _ _ _ Hstep) as
      [old [pos [h1 [new_blocks [ns [Hsample [Hrem [Hpol ->]]]]]]]].
    cbn [update_state size_counts stats elem_tally capacity_tally] in *.
    assert (Hkeys' : keys_all (fun s => s <= B) (add_blocks h1 new_blocks)).
    { apply add_blocks_keys.
      - eapply remove_block_keys; eauto.
      - eapply insert_batch_at_most; eauto. }
    split; [exact Hkeys' |].
    pose proof (hist_weight_le_capacity B _ Hkeys' (proj2 Hwf')) as Hcap.
    rewrite Hw', Hs' in Hcap. rewrite Htk.
    assert (Hk : 0 <= Z.of_nat k) by lia.
    rewrite Nat2Z.inj_succ in Hcap.
    split; [| intros _]; nia.
Qed.

Lemma run_batches_terminates k :
  2 <= B -> 1 <= r -> B + r <= Z.of_nat fuel ->
  run_batches B r p rounding rand method fuel k <> OutOfFuel.
Proof.
  intros HB Hr Hfuel.
  induction k as [| k IH]; [discriminate |].
  cbn [run_batches]. intros H.
  apply bind_OutOfFuel in H. destruct H as [H | [st [Hrun H]]]; [contradiction |].
  destruct (run_batches_capacity _ _ HB Hr Hrun) as [Hzero Hpos].
  unfold batch_step in H.
  apply bind_OutOfFuel in H. destruct H as [H | [[old pos] [Hsample H]]].
  { eapply sample_block_not_OutOfFuel; eauto. }
  apply bind_OutOfFuel in H. destruct H as [H | [h1 [Hrem H]]].
  { eapply remove_block_not_OutOfFuel; eauto. }
  apply bind_OutOfFuel in H. destruct H as [H | [[nb ns] [_ H]]];
    [| discriminate].
  revert H. apply insert_batch_terminates; try assumption.
  pose proof (sample_block_key _ _ _ _ Hsample) as Hkey.
  destruct k as [| k'].
  - rewrite (Hzero eq_refl) in Hkey. simpl in Hkey.
    destruct Hkey as [<- | []]. lia.
  - specialize (Hpos ltac:(discriminate)).
    unfold keys_all in Hpos. rewrite Forall_forall in Hpos.
    unfold hist_keys in Hkey. apply in_map_iff in Hkey.
    destruct Hkey as [sc [<- Hin]]. specialize (Hpos _ Hin). simpl in Hpos. lia.
Qed.

End Run.

Lemma run_batches_returns B r p rounding rand method fuel k :
  valid_method method ->
  PyFloat.in_unit_interval p ->
  2 <= B -> 1 <= r ->
  B + r < PyFloat.dbl_max ->
  B + r <= Z.of_nat fuel ->
  exists st, run_batches B r p rounding rand method fuel k = Done st.
Proof.
  intros Hvalid Hp HB Hr Hmax Hfuel.
  induction k as [| k [st Hrun]]; [simpl; eauto |].
  cbn [run_batches]. rewrite Hrun. cbn [bind]. unfold batch_step.
  destruct (run_batches_population _ _ _ _ _ _ _ _ _ Hrun) as
    [blocks [_ [Hwf [_ [_ [Hw [Hs _]]]]]]].
  destruct (run_batches_capacity _ _ _ _ _ _ _ _ _ HB Hr Hrun) as [Hzero Hpos].
  destruct (sample_block_returns (size_counts st) (rand k)) as [old [pos Hsample]].
  { rewrite Hw, Hs. nia. }
  { intros Hz. destruct k as [| k'].
    - rewrite (Hzero eq_refl). discriminate.
    - rewrite Hw, Hs in Hz. nia. }
  rewrite Hsample. cbn [bind].
  pose proof (sample_block_key _ _ _ _ Hsample) as Hkey.
  destruct (hist_key_get _ _ Hkey) as [c Hc].
  assert (Hrem : exists h1, remove_block (size_counts st) old = Done h1).
  { unfold remove_block. rewrite Hc. destruct (c - 1 =? 0); eauto. }
  destruct Hrem as [h1 ->]. cbn [bind].
  assert (Hold : 0 <= old < B).
  { destruct k as [| k'].
    - rewrite (Hzero eq_refl) in Hkey. simpl in Hkey.
      destruct Hkey as [<- | []]. lia.
    - specialize (Hpos ltac:(discriminate)).
      unfold keys_all in Hpos. rewrite Forall_forall in Hpos.
      apply hist_get_In in Hc. specialize (Hpos _ Hc). simpl in Hpos. lia. }
  destruct (insert_batch_returns B r p rounding method fuel old pos)
    as [nb [ns ->]]; try assumption.
  cbn [bind]. eauto.
Qed.

(** C1: after every completed batch the histogram is the block population
    counted by size: its weighted sum is the number of elements inserted so
    far, which is the number of completed batches times [r], and the sum of
    its counts is the number of blocks.  With valid arguments inside the
    range of the doubles every batch does complete. *)
Theorem histogram_conservation (B r : Z) (p : PyFloat.float) (rounding : string)
    (rand : nat -> Z) (method : string) (fuel k : nat) :
  1 <= r ->
  (valid_method method -> PyFloat.in_unit_interval p -> 2 <= B ->
   B + r < PyFloat.dbl_max -> B + r <= Z.of_nat fuel ->
   exists st, run_batches B r p rounding rand method fuel k = Done st) /\
  forall st,
    run_batches B r p rounding rand method fuel k = Done st ->
    exists blocks,
      block_population B r p rounding rand method fuel k = Done blocks /\
      hist_weight (size_counts st) = Z.of_nat k * r /\
      hist_weight (size_counts st) = list_sum blocks /\
      hist_blocks (size_counts st) = Z.of_nat (List.length blocks) /\
      (forall s, hist_count (size_counts st) s =
                 Z.of_nat (count_occ Z.eq_dec blocks s)) /\
      total_keys st = Z.of_nat k * r /\
      inserts (stats st) = Z.of_nat k * r.
Proof.
  intros Hr. split.
  - intros Hvalid Hp HB Hmax Hfuel. now apply run_batches_returns.
  - intros st H.
    destruct (run_batches_population _ _ _ _ _ _ _ _ _ H) as
      [blocks [Hpop [Hwf [Hcount [Hblocks [Hweight [Hsum [Hkeys Hins]]]]]]]].
    exists blocks. repeat split; try assumption. lia.
Qed.

Lemma histogram_conservation_witness :
  exists st,
    run_batches 4 3 PyFloat.three_tenths "nearest" rand_lcg "adaptive2" 9 5 = Done st /\
    exists blocks,
      block_population 4 3 PyFloat.three_tenths "nearest" rand_lcg "adaptive2" 9 5 =
        Done blocks /\
      hist_weight (size_counts st) = Z.of_nat 5 * 3 /\
      hist_weight (size_counts st) = list_sum blocks /\
      hist_blocks (size_counts st) = Z.of_nat (List.length blocks) /\
      (forall s, hist_count (size_counts st) s =
                 Z.of_nat (count_occ Z.eq_dec blocks s)) /\
      total_keys st = Z.of_nat 5 * 3 /\
      inserts (stats st) = Z.of_nat 5 * 3.
Proof.
  eexists. split; [vm_compute; reflexivity |].
  apply (histogram_conservation 4 3 PyFloat.three_tenths "nearest" rand_lcg
           "adaptive2" 9 5); [lia |].
  vm_compute. reflexivity.
Defined.

(** ** The whole simulation *)

Lemma int_true_div_not_OutOfFuel a b : PyFloat.int_true_div a b <> OutOfFuel.
Proof.
  unfold PyFloat.int_true_div.
  destruct b; [discriminate | |]; (destruct a; [discriminate | |]);
    match goal with
    | |- context [SFdiv ?pr ?em ?x ?y] => destruct (SFdiv pr em x y)
    end; discriminate.
Qed.

Lemma int_true_div_zero b : 0 < b -> PyFloat.int_true_div 0 b = Done PyFloat.zero.
Proof. intros Hb. destruct b; [lia | reflexivity | lia]. Qed.

(** [0 / -5] is [-0.0]. *)
Example int_true_div_negative_zero :
  PyFloat.int_true_div 0 (-5) = Done (S754_zero true).
Proof. reflexivity. Qed.

Lemma finish_inv B r p method n st res :
  finish B r p method n st = Done res ->
  res_method res = method /\
  res_stats res = stats st /\
  res_size_counts res = size_counts st /\
  res_final_blocks res = hist_blocks (size_counts st) /\
  res_total_insertions res = n /\
  (if hist_blocks (size_counts st) >? 0
   then PyFloat.int_true_div n (B * hist_blocks (size_counts st))
   else Done PyFloat.zero) = Done (res_final_fullness res) /\
  (if capacity_tally (stats st) >? 0
   then PyFloat.int_true_div (elem_tally (stats st)) (capacity_tally (stats st))
   else Done PyFloat.zero) = Done (res_time_avg_fullness res).
Proof.
  unfold finish. intros H.
  bind_inv H. bind_inv H.
  destruct (String.eqb method "deferred").
  - bind_inv H. bind_inv H. injection H as <-. simpl. repeat split; assumption.
  - injection H as <-. simpl. repeat split; assumption.
Qed.

Lemma finish_not_OutOfFuel B r p method n st :
  finish B r p method n st <> OutOfFuel.
Proof.
  unfold finish. intros H.
  repeat match type of H with
  | bind (if ?c then _ else _) _ = OutOfFuel =>
      apply bind_OutOfFuel in H; destruct H as [H | [? [_ H]]];
      [destruct c; [now apply int_true_div_not_OutOfFuel in H | discriminate] |]
  | (if ?c then _ else _) = OutOfFuel => destruct c
  end; discriminate.
Qed.

Lemma simulate_inv B r p rounding rand method fuel total res :
  simulate B r p rounding rand method fuel total = Done res ->
  1 <= r /\
  exists st,
    run_batches B r p rounding rand method fuel (Z.to_nat (total / r)) = Done st /\
    finish B r p method (total / r * r) st = Done res.
Proof.
  unfold simulate. destruct (Z.geb_spec r 1) as [Hr | Hr]; [| discriminate].
  intros H. bind_inv H. split; [lia |]. eauto.
Qed.

Lemma SFdiv_core_binary_int m1 m2 :
  0 < m1 -> 0 < m2 ->
  exists q e' l,
    SFdiv_core_binary PyFloat.prec PyFloat.emax m1 0 m2 0 = (q, e', l) /\
    e' <= 0 /\ q = m1 * 2 ^ (- e') / m2.
Proof.
  intros H1 H2. unfold SFdiv_core_binary.
  set (e' := Z.min (fexp PyFloat.prec PyFloat.emax
                      (Zdigits2 m1 + 0 - (Zdigits2 m2 + 0))) (0 - 0)).
  assert (He' : e' <= 0) by (subst e'; lia).
  set (m' := match 0 - 0 - e' with
             | Z0 => m1
             | Zpos _ => Z.shiftl m1 (0 - 0 - e')
             | Zneg _ => 0
             end).
  assert (Hm' : m' = m1 * 2 ^ (- e')).
  { subst m'. replace (0 - 0 - e') with (- e') by lia.
    destruct (- e') as [| s | s] eqn:Es.
    - simpl. lia.
    - rewrite Z.shiftl_mul_pow2 by lia. reflexivity.
    - lia. }
  destruct (Z.div_eucl m' m2) as [q r0] eqn:Ediv.
  exists q, e', (new_location m2 r0).
  split; [reflexivity |]. split; [assumption |].
  rewrite <- Hm'. unfold Z.div. rewrite Ediv. reflexivity.
Qed.

(** A quotient of two positive integers that is below the largest double is
    a double. *)
Lemma int_true_div_returns a b K :
  0 < b -> 0 <= a <= K * b -> K < PyFloat.dbl_max ->
  exists x, PyFloat.int_true_div a b = Done x.
Proof.
  intros Hb Ha HK. unfold PyFloat.int_true_div.
  destruct b as [| pb | pb]; [lia | | lia].
  destruct a as [| pa | pa]; [eauto | | lia].
  change (Z.pos pa <? 0) with false. change (Z.pos pb <? 0) with false.
  change (Z.to_pos (Z.abs (Z.pos pa))) with pa.
  change (Z.to_pos (Z.abs (Z.pos pb))) with pb.
  unfold SFdiv.
  destruct (SFdiv_core_binary_int (Zpos pa) (Zpos pb)) as [q [e' [l [Hcore [He' Hq]]]]];
    [lia | lia |].
  rewrite Hcore.
  assert (Hpow : 0 < 2 ^ (- e')) by (apply Z.pow_pos_nonneg; lia).
  assert (Hq0 : 0 <= q).
  { rewrite Hq. apply Z.div_pos; nia. }
  assert (Hqle : q <= K * 2 ^ (- e')).
  { rewrite Hq. apply Z.div_le_upper_bound; [lia |]. nia. }
  destruct (binary_round_aux_finite (xorb false false) q e' l) as [Hz | [m [e Hf]]];
    [assumption | lia | | |].
  - replace (971 - e') with (971 + - e') by lia.
    rewrite Z.pow_add_r by lia. unfold PyFloat.dbl_max in HK. nia.
  - rewrite Hz. eauto.
  - rewrite Hf. eauto.
Qed.

Lemma high_count_le_blocks B r h :
  Forall (fun sc => 0 < snd sc) h ->
  0 <= high_count B r h <= hist_blocks h.
Proof.
  unfold high_count, hist_blocks.
  induction h as [| [s c] h IH]; simpl; intros Hp; [lia |].
  inversion Hp; subst; simpl in *. specialize (IH ltac:(assumption)).
  destruct (s >? B - r); lia.
Qed.

Lemma finish_returns B r p method n st :
  1 <= B < PyFloat.dbl_max ->
  hist_wf (size_counts st) ->
  0 <= n <= B * hist_blocks (size_counts st) ->
  0 <= total_keys st <= B * hist_blocks (size_counts st) ->
  0 <= elem_tally (stats st) <= capacity_tally (stats st) ->
  exists res, finish B r p method n st = Done res.
Proof.
  intros HB [_ Hpos] Hn Htk Htally. unfold finish.
  assert (Hone : 1 < PyFloat.dbl_max) by (apply Z.ltb_lt; vm_compute; reflexivity).
  assert (Hff : exists x,
            (if hist_blocks (size_counts st) >? 0
             then PyFloat.int_true_div n (B * hist_blocks (size_counts st))
             else Done PyFloat.zero) = Done x).
  { destruct (Z.gtb_spec (hist_blocks (size_counts st)) 0); [| eauto].
    apply int_true_div_returns with (K := 1); [nia | lia | assumption]. }
  destruct Hff as [ff ->]. cbn [bind].
  assert (Hta : exists x,
            (if capacity_tally (stats st) >? 0
             then PyFloat.int_true_div (elem_tally (stats st)) (capacity_tally (stats st))
             else Done PyFloat.zero) = Done x).
  { destruct (Z.gtb_spec (capacity_tally (stats st)) 0); [| eauto].
    apply int_true_div_returns with (K := 1); [lia | lia | assumption]. }
  destruct Hta as [ta ->]. cbn [bind].
  destruct (String.eqb method "deferred"); [| eauto].
  pose proof (high_count_le_blocks B r _ Hpos) as Hhigh.
  assert (Hfh : exists x,
            (if hist_blocks (size_counts st) >? 0
             then PyFloat.int_true_div (high_count B r (size_counts st))
                    (hist_blocks (size_counts st))
             else Done PyFloat.zero) = Done x).
  { destruct (Z.gtb_spec (hist_blocks (size_counts st)) 0); [| eauto].
    apply int_true_div_returns with (K := 1); [lia | lia | assumption]. }
  destruct Hfh as [fh ->]. cbn [bind].
  assert (Hmu : exists x,
            (if hist_blocks (size_counts st) >? 0
             then PyFloat.int_true_div (total_keys st) (hist_blocks (size_counts st))
             else Done PyFloat.zero) = Done x).
  { destruct (Z.gtb_spec (hist_blocks (size_counts st)) 0); [| eauto].
    apply int_true_div_returns with (K := B); [lia | lia | lia]. }
  destruct Hmu as [mu ->]. cbn [bind]. eauto.
Qed.

(** Inside the range of the doubles a run with valid arguments returns its
    result record. *)
Lemma simulate_returns B r p rounding rand method fuel total :
  valid_method method ->
  PyFloat.in_unit_interval p ->
  2 <= B -> 1 <= r -> 0 <= total ->
  B + r < PyFloat.dbl_max ->
  B + r <= Z.of_nat fuel ->
  exists res, simulate B r p rounding rand method fuel total = Done res.
Proof.
  intros Hvalid Hp HB Hr Htotal Hmax Hfuel. unfold simulate.
  destruct (Z.geb_spec r 1); [| lia].
  destruct (run_batches_returns B r p rounding rand method fuel
              (Z.to_nat (total / r))) as [st Hrun]; try assumption.
  rewrite Hrun. cbn [bind].
  destruct (run_batches_population _ _ _ _ _ _ _ _ _ Hrun) as
    [blocks [_ [Hwf [_ [_ [Hw [Hs [Htk _]]]]]]]].
  assert (HB1 : 1 <= B) by lia.
  destruct (run_batches_tallies _ _ _ _ _ _ _ _ _ HB1 Hr Hrun) as
    [Hkeys [Htally _]].
  pose proof (hist_weight_le_capacity B _ Hkeys (proj2 Hwf)) as Hcap.
  assert (Hnb : 0 <= total / r) by (apply Z.div_pos; lia).
  rewrite Z2Nat.id in * by assumption.
  apply finish_returns; try assumption; try lia; nia.
Qed.

(** C10: with a capacity of at least 2 the histogram starts as [{0: 1}],
    and after every completed batch every key lies in [1, B - 1], every
    stored count is positive and no key is stored twice.  With a valid
    method inside the range of the doubles every batch does complete. *)
Theorem capacity_invariant (B r : Z) (p : PyFloat.float) (rounding : string)
    (rand : nat -> Z) (method : string) (fuel : nat) :
  2 <= B -> 1 <= r ->
  size_counts init_state = [(0, 1)] /\
  run_batches B r p rounding rand method fuel 0 = Done init_state /\
  (valid_method method -> PyFloat.in_unit_interval p ->
   B + r < PyFloat.dbl_max -> B + r <= Z.of_nat fuel ->
   forall k, exists st, run_batches B r p rounding rand method fuel k = Done st) /\
  forall k st,
    run_batches B r p rounding rand method fuel (S k) = Done st ->
    Forall (fun sc => 1 <= fst sc <= B - 1 /\ 0 < snd sc) (size_counts st) /\
    NoDup (hist_keys (size_counts st)).
Proof.
  intros HB Hr. split; [reflexivity |]. split; [reflexivity |]. split.
  { intros Hvalid Hp Hmax Hfuel k. now apply run_batches_returns. }
  intros k st H.
  destruct (run_batches_capacity _ _ _ _ _ _ _ _ _ HB Hr H) as [_ Hkeys].
  specialize (Hkeys ltac:(discriminate)).
  destruct (run_batches_population _ _ _ _ _ _ _ _ _ H) as [_ [_ [[Hnd Hpos] _]]].
  split; [| exact Hnd].
  unfold keys_all in Hkeys. rewrite Forall_forall in *.
  intros sc Hin. split; [exact (Hkeys _ Hin) | exact (Hpos _ Hin)].
Qed.

Lemma capacity_invariant_witness :
  size_counts init_state = [(0, 1)] /\
  run_batches 10 7 PyFloat.three_tenths "floor" rand_lcg "immediately" 17 0 =
    Done init_state /\
  (valid_method "immediately" -> PyFloat.in_unit_interval PyFloat.three_tenths ->
   10 + 7 < PyFloat.dbl_max -> 10 + 7 <= Z.of_nat 17 ->
   forall k, exists st,
     run_batches 10 7 PyFloat.three_tenths "floor" rand_lcg "immediately" 17 k =
       Done st) /\
  forall k st,
    run_batches 10 7 PyFloat.three_tenths "floor" rand_lcg "immediately" 17 (S k) =
      Done st ->
    Forall (fun sc => 1 <= fst sc <= 10 - 1 /\ 0 < snd sc) (size_counts st) /\
    NoDup (hist_keys (size_counts st)).
Proof.
  apply (capacity_invariant 10 7 PyFloat.three_tenths "floor" rand_lcg
           "immediately" 17); lia.
Defined.

(** The invariant is not vacuous: seven batches of the run above complete. *)
Example seven_batches_complete :
  exists st,
    run_batches 10 7 PyFloat.three_tenths "floor" rand_lcg "immediately" 17 7 =
      Done st /\
    size_counts st = [(3, 8); (7, 1); (9, 2)].
Proof. eexists. split; vm_compute; reflexivity. Qed.

(** C3, as amended: with a capacity of at least 2 (and [r >= 1],
    [total_insertions >= 0], whatever the method, [p], rounding mode and
    seed) a run ends, with a result record or with an exception, as soon as
    the loops are allowed [B + r] turns; in particular the deferred cascade
    empties its queue, or fails, for every occupancy below [B]; with a valid
    method inside the range of the doubles the run returns its record. *)
Theorem simulate_terminates (B r : Z) (p : PyFloat.float) (rounding : string)
    (rand : nat -> Z) (method : string) (fuel : nat) (total_insertions : Z) :
  2 <= B -> 1 <= r -> 0 <= total_insertions ->
  B + r <= Z.of_nat fuel ->
  simulate B r p rounding rand method fuel total_insertions <> OutOfFuel /\
  (forall occupancy, 0 <= occupancy < B ->
     insert_deferred B p rounding fuel occupancy r <> OutOfFuel) /\
  (valid_method method -> PyFloat.in_unit_interval p ->
   B + r < PyFloat.dbl_max ->
   exists res, simulate B r p rounding rand method fuel total_insertions = Done res).
Proof.
  intros HB Hr Htotal Hfuel. split; [| split].
  - unfold simulate. destruct (r >=? 1); [| discriminate].
    intros H. apply bind_OutOfFuel in H. destruct H as [H | [st [_ H]]].
    + revert H. now apply run_batches_terminates.
    + revert H. apply finish_not_OutOfFuel.
  - intros occupancy Hocc. unfold insert_deferred.
    destruct (Z.ltb_spec (occupancy + r) B); [discriminate |].
    apply deferred_loop_terminates; [assumption | |].
    + constructor; [assumption | constructor].
    + unfold list_sum. cbn [List.length fold_right]. lia.
  - intros Hvalid Hp Hmax. now apply simulate_returns.
Qed.

Lemma simulate_terminates_witness :
  simulate 4 2 PyFloat.half "floor" rand_lcg "deferred" 6 20 <> OutOfFuel /\
  (forall occupancy, 0 <= occupancy < 4 ->
     insert_deferred 4 PyFloat.half "floor" 6 occupancy 2 <> OutOfFuel) /\
  (valid_method "deferred" -> PyFloat.in_unit_interval PyFloat.half ->
   4 + 2 < PyFloat.dbl_max ->
   exists res, simulate 4 2 PyFloat.half "floor" rand_lcg "deferred" 6 20 = Done res).
Proof.
  apply (simulate_terminates 4 2 PyFloat.half "floor" rand_lcg "deferred" 6 20);
    simpl; lia.
Defined.

Lemma deferred_loop_capacity_one fuel : forall out k,
  deferred_loop 1 PyFloat.half "floor" fuel [1] out k = OutOfFuel.
Proof.
  induction fuel as [| fuel IH]; intros out k; [reflexivity |].
  rewrite deferred_loop_cons.
  change (split_size PyFloat.half "floor" 1) with (Done (1, 0) : outcome (Z * Z)).
  simpl. apply IH.
Qed.

(** With [B = 1], [r = 1], one insertion and the deferred policy, the block
    of size 1 is split into 1 and 0 and queued again for ever: whatever the
    number of turns allowed, the queue is not empty at the end of them. *)
Lemma simulate_capacity_one_diverges :
  1 <= 1 /\ valid_method "deferred" /\ PyFloat.in_unit_interval PyFloat.half /\
  forall fuel,
    simulate 1 1 PyFloat.half "floor" rand_zero "deferred" fuel 1 = OutOfFuel.
Proof.
  split; [lia |]. split; [left; reflexivity |].
  split; [split; [reflexivity | simpl; lia] |].
  intros fuel. unfold simulate. simpl (1 >=? 1). cbv iota.
  change (Z.to_nat (1 / 1)) with 1%nat.
  cbn [run_batches bind]. unfold batch_step.
  cbn [init_state size_counts]. rewrite sample_initial. cbn [bind].
  change (remove_block [(0, 1)] 0) with (Done ([] : histogram)). cbn [bind].
  unfold insert_batch. simpl (String.eqb "deferred" "deferred"). cbv iota.
  unfold insert_deferred. simpl (0 + 1 <? 1). cbv iota.
  rewrite deferred_loop_capacity_one. reflexivity.
Qed.

Lemma valid_method_eqb method :
  ~ valid_method method ->
  String.eqb method "deferred" = false /\
  String.eqb method "adaptive" = false /\
  String.eqb method "adaptive2" = false /\
  String.eqb method "immediately" = false.
Proof.
  unfold valid_method. intros H.
  repeat split; apply String.eqb_neq; intros ->; tauto.
Qed.

(** As soon as one batch runs, an unknown method name is refused. *)
Lemma simulate_unknown_method_raises B r p rounding rand method fuel total :
  1 <= r -> r <= total -> ~ valid_method method ->
  simulate B r p rounding rand method fuel total = Raised ValueError.
Proof.
  intros Hr Htotal Hbad.
  destruct (valid_method_eqb _ Hbad) as [E1 [E2 [E3 E4]]].
  unfold simulate. destruct (Z.geb_spec r 1); [| lia].
  assert (Hk : exists k, Z.to_nat (total / r) = S k).
  { assert (1 <= total / r) by (apply Z.div_le_lower_bound; lia).
    exists (Z.to_nat (total / r - 1)). lia. }
  destruct Hk as [k ->].
  assert (Hrun : run_batches B r p rounding rand method fuel (S k) = Raised ValueError).
  { induction k as [| k IH].
    - cbn [run_batches bind]. unfold batch_step.
      cbn [init_state size_counts]. rewrite sample_initial. cbn [bind].
      change (remove_block [(0, 1)] 0) with (Done ([] : histogram)). cbn [bind].
      unfold insert_batch. rewrite E1, E2, E3, E4. reflexivity.
    - change (run_batches B r p rounding rand method fuel (S (S k)))
        with (bind (run_batches B r p rounding rand method fuel (S k))
                (batch_step B r p rounding rand method fuel (S k))).
      rewrite IH. reflexivity. }
  rewrite Hrun. reflexivity.
Qed.

(** C4 on the code: when [total_insertions < r] no batch runs, the method
    name is never looked at, and a name outside the accepted set comes back
    in a result record instead of being refused. *)
Theorem simulate_unknown_method_no_batch (B r : Z) (p : PyFloat.float)
    (rounding : string) (rand : nat -> Z) (method : string) (fuel : nat)
    (total_insertions : Z) :
  1 <= B -> 1 <= r -> 0 <= total_insertions < r ->
  ~ valid_method method ->
  simulate B r p rounding rand method fuel total_insertions =
  Done (PolicyResult method (mkStats 0 0 0 0 0 0) [(0, 1)] 1
          PyFloat.zero PyFloat.zero 0 B r p 0 0).
Proof.
  intros HB Hr Htotal Hbad.
  destruct (valid_method_eqb _ Hbad) as [E1 _].
  unfold simulate. destruct (Z.geb_spec r 1); [| lia].
  rewrite Z.div_small by lia. cbn [Z.to_nat run_batches bind].
  unfold finish. cbn [init_state size_counts stats capacity_tally elem_tally
                      inserts splits total_keys hist_blocks fold_right snd].
  simpl (1 + 0 >? 0). simpl (0 >? 0). cbv iota. simpl (0 * r).
  rewrite int_true_div_zero by lia. cbn [bind]. rewrite E1. reflexivity.
Qed.

Lemma simulate_unknown_method_no_batch_witness :
  simulate 10 5 PyFloat.half "floor" rand_zero "bogus" 0 3 =
  Done (PolicyResult "bogus" (mkStats 0 0 0 0 0 0) [(0, 1)] 1
          PyFloat.zero PyFloat.zero 0 10 5 PyFloat.half 0 0).
Proof.
  apply (simulate_unknown_method_no_batch 10 5 PyFloat.half "floor" rand_zero
           "bogus" 0 3); try lia.
  unfold valid_method. intros [H | [H | [H | H]]]; discriminate H.
Defined.

(** ** Splits and blocks *)

Lemma requeued_finished_length B children :
  (List.length (requeued B children) + List.length (finished B children))%nat =
  List.length children.
Proof.
  unfold requeued, finished.
  induction children as [| c cs IH]; [reflexivity |].
  cbn [filter].
  destruct (Z.leb_spec B c), (Z.ltb_spec c B); cbn [List.length]; lia.
Qed.

(** Every pass of the cascade that splits a block counts it. *)
Lemma deferred_loop_split_count B p rounding fuel q out k res k' :
  deferred_loop B p rounding fuel q out k = Done (res, k') ->
  k <= k' /\
  Z.of_nat (List.length res) - k' =
  Z.of_nat (List.length q) + Z.of_nat (List.length out) - k.
Proof.
  intros H.
  pose (c := Z.of_nat (List.length q) + Z.of_nat (List.length out) - k).
  assert (HI : k <= k' /\
               Z.of_nat (List.length (@nil Z)) + Z.of_nat (List.length res) - k' = c).
  { apply (deferred_loop_invariant B p rounding
             (fun q out k0 => k <= k0 /\
                Z.of_nat (List.length q) + Z.of_nat (List.length out) - k0 = c))
      with (fuel := fuel) (q := q) (out := out) (k := k); [| | | exact H].
    - intros s q0 out0 k0 _ [Hk Hc]. split; [assumption |].
      rewrite length_app. cbn [List.length] in *. lia.
    - intros s q0 out0 k0 l rr _ _ [Hk Hc]. split; [lia |].
      rewrite !length_app.
      pose proof (requeued_finished_length B [l; rr]) as Hlen.
      cbn [List.length] in *. lia.
    - split; [lia | reflexivity]. }
  cbn [List.length] in HI. subst c. lia.
Qed.

(** The filling loop counts every split but the one of an exact fill whose
    end falls in the left child. *)
Lemma fill_loop_split_count B choose fuel : forall cs pos rem out k res k',
  fill_loop B choose fuel cs pos rem out k = Done (res, k') ->
  k <= k' /\
  k' - k + 1 <= Z.of_nat (List.length res) - Z.of_nat (List.length out)
    <= k' - k + 2.
Proof.
  induction fuel as [| fuel IH]; intros cs pos rem out k res k' H;
    [discriminate |].
  cbn [fill_loop] in H. cbv zeta in H.
  destruct (rem <? B - cs).
  - injection H as <- <-. rewrite length_app. cbn [List.length]. lia.
  - destruct (rem =? B - cs).
    + bind_inv H. destruct a as [l rr].
      destruct (pos + (B - cs) <=? l).
      * injection H as <- <-. rewrite length_app. cbn [List.length app]. lia.
      * apply IH in H. rewrite length_app in H. cbn [List.length] in H. lia.
    + bind_inv H. destruct a as [l rr].
      destruct (pos + (B - cs) <=? l);
        apply IH in H; rewrite length_app in H; cbn [List.length] in H; lia.
Qed.

Lemma insert_batch_split_count B r p rounding method fuel old_size insert_pos
    new_blocks num_splits :
  insert_batch B r p rounding method fuel old_size insert_pos =
    Done (new_blocks, num_splits) ->
  0 <= num_splits /\
  num_splits + 1 <= Z.of_nat (List.length new_blocks) <= num_splits + 2 /\
  (method = "deferred"%string ->
   Z.of_nat (List.length new_blocks) = num_splits + 1).
Proof.
  intros H. unfold insert_batch in H.
  destruct (String.eqb_spec method "deferred") as [E | N].
  - assert (Hd : 0 <= num_splits /\
                 Z.of_nat (List.length new_blocks) = num_splits + 1).
    { unfold insert_deferred in H. destruct (old_size + r <? B).
      - injection H as <- <-. cbn [List.length]. lia.
      - apply deferred_loop_split_count in H. cbn [List.length] in H. lia. }
    lia.
  - assert (Hf : forall choose,
               fill_loop B choose fuel old_size insert_pos r [] 0 =
                 Done (new_blocks, num_splits) ->
               0 <= num_splits /\
               num_splits + 1 <= Z.of_nat (List.length new_blocks) <= num_splits + 2).
    { intros choose Hc. apply fill_loop_split_count in Hc.
      cbn [List.length] in Hc. lia. }
    destruct (String.eqb method "adaptive");
      [| destruct (String.eqb method "adaptive2");
         [| destruct (String.eqb method "immediately"); [| discriminate]]];
      apply Hf in H; (split; [tauto | split; [tauto | congruence]]).
Qed.

(** ** Tallies *)

Section RunStatistics.

Variable B : Z.
Variable r : Z.
Variable p : PyFloat.float.
Variable rounding : string.
Variable rand : nat -> Z.
Variable method : string.
Variable fuel : nat.

Lemma run_batches_split_stat k : forall st,
  run_batches B r p rounding rand method fuel k = Done st ->
  0 <= splits (stats st) /\
  1 + splits (stats st) <= hist_blocks (size_counts st)
    <= 1 + splits (stats st) + Z.of_nat k /\
  (method = "deferred"%string ->
   hist_blocks (size_counts st) = 1 + splits (stats st)).
Proof.
  induction k as [| k IH]; intros st' H.
  - injection H as <-. cbn. lia.
  - destruct (run_batches_succ _ _ _ _ _ _ _ _ _ H) as [st [Hrun Hstep]].
    specialize (IH _ Hrun).
    destruct (batch_step_inv _ _ _ _ _ _ _ _ _ _ Hstep) as
      [old [pos [h1 [new_blocks [ns [Hsample [Hrem [Hpol ->]]]]]]]].
    destruct (remove_block_sums _ _ _ Hrem) as [Hb1 _].
    destruct (add_blocks_sums new_blocks h1) as [Hb2 _].
    apply insert_batch_split_count in Hpol.
    cbn [update_state size_counts stats splits].
    rewrite Hb2, Hb1, Nat2Z.inj_succ.
    split; [lia |]. split; [lia |]. intros E.
    destruct IH as [_ [_ IH]]. destruct Hpol as [_ [_ Hpol]].
    specialize (IH E). specialize (Hpol E). lia.
Qed.

Lemma run_batches_tally_forms k : forall st,
  run_batches B r p rounding rand method fuel k = Done st ->
  moves (stats st) = 0 /\
  capacity_tally (stats st) = B * blocks_tally (stats st) /\
  2 * elem_tally (stats st) = r * r * Z.of_nat k * (Z.of_nat k + 1).
Proof.
  induction k as [| k IH]; intros st' H.
  - injection H as <-. cbn. lia.
  - destruct (run_batches_succ _ _ _ _ _ _ _ _ _ H) as [st [Hrun Hstep]].
    specialize (IH _ Hrun).
    destruct (run_batches_population _ _ _ _ _ _ _ _ _ Hrun) as
      [_ [_ [_ [_ [_ [_ [_ [Htk _]]]]]]]].
    destruct (batch_step_inv _ _ _ _ _ _ _ _ _ _ Hstep) as
      [old [pos [h1 [new_blocks [ns [_ [_ [_ ->]]]]]]]].
    cbn [update_state size_counts stats moves capacity_tally blocks_tally elem_tally].
    rewrite Htk, Nat2Z.inj_succ. nia.
Qed.

End RunStatistics.

(** ** Quotients of integers as doubles *)

(** A value of at least the smallest subnormal does not round to zero. *)
Lemma binary_round_aux_nonzero s mx ex lx :
  1 <= mx -> -1074 <= ex ->
  binary_round_aux PyFloat.prec PyFloat.emax s mx ex lx <> S754_zero s.
Proof.
  intros Hmx Hex.
  destruct (binary_round_aux_cases s mx ex lx ltac:(lia)) as [m2 [Hm2 Heq]].
  cbv zeta in Heq. rewrite Heq. clear Heq.
  set (n := fexp PyFloat.prec PyFloat.emax (Zdigits2 mx + ex) - ex) in *.
  set (m1 := if 0 <? n then mx / 2 ^ n else mx) in *.
  set (e1 := if 0 <? n then ex + n else ex) in *.
  set (n2 := fexp PyFloat.prec PyFloat.emax (Zdigits2 m2 + e1) - e1) in *.
  assert (Hshift : forall m e,
             1 <= m -> -1074 <= e ->
             let k := fexp PyFloat.prec PyFloat.emax (Zdigits2 m + e) - e in
             1 <= (if 0 <? k then m / 2 ^ k else m) /\
             -1074 <= (if 0 <? k then e + k else e)).
  { intros m e Hm He k.
    destruct (Z.ltb_spec 0 k) as [Hk | Hk]; [| lia].
    assert (Ek : k = Zdigits2 m - 53).
    { subst k. unfold fexp, emin, PyFloat.prec, PyFloat.emax in *. lia. }
    split; [| lia].
    destruct m as [| q | q]; [lia | | lia].
    pose proof (digits2_pos_bounds q) as [Hlow _].
    cbn [Zdigits2] in Ek.
    apply Z.div_le_lower_bound; [apply Z.pow_pos_nonneg; lia |].
    eapply Z.le_trans; [| exact Hlow].
    rewrite Z.mul_1_r. apply Z.pow_le_mono_r; lia. }
  destruct (Hshift mx ex Hmx Hex) as [Hm1 He1]. fold n in Hm1, He1.
  fold m1 in Hm1. fold e1 in He1.
  destruct (Hshift m2 e1 ltac:(lia) He1) as [Hm3 _]. fold n2 in Hm3.
  destruct (if 0 <? n2 then m2 / 2 ^ n2 else m2) as [| q | q]; [lia | | lia].
  destruct (_ <=? 971); discriminate.
Qed.

(** A value below one rounds to one at most. *)
Lemma binary_round_aux_below_one s mx ex lx :
  0 <= mx -> ex <= -53 -> mx < 2 ^ (- ex) ->
  binary_round_aux PyFloat.prec PyFloat.emax s mx ex lx = S754_zero s \/
  exists m e,
    binary_round_aux PyFloat.prec PyFloat.emax s mx ex lx = S754_finite s m e /\
    (e < -52 \/ (e = -52 /\ Zpos m = 2 ^ 52)).
Proof.
  intros Hmx Hex Hlt.
  destruct (binary_round_aux_cases s mx ex lx Hmx) as [m2 [Hm2 Heq]].
  cbv zeta in Heq. rewrite Heq. clear Heq.
  set (n := fexp PyFloat.prec PyFloat.emax (Zdigits2 mx + ex) - ex) in *.
  set (m1 := if 0 <? n then mx / 2 ^ n else mx) in *.
  set (e1 := if 0 <? n then ex + n else ex) in *.
  set (n2 := fexp PyFloat.prec PyFloat.emax (Zdigits2 m2 + e1) - e1) in *.
  pose proof (Zdigits2_nonneg mx) as Hd0.
  assert (Hd : Zdigits2 mx <= - ex).
  { apply Zdigits2_le; [assumption | lia | assumption]. }
  pose proof (Zdigits2_upper mx Hmx) as Hup.
  assert (H1 : 0 <= m1 /\ m1 < 2 ^ (- e1) /\ m1 < 2 ^ 53 /\
               -1074 <= e1 <= -53).
  { subst m1 e1. destruct (Z.ltb_spec 0 n) as [Hn | Hn].
    - assert (Hp : 0 < 2 ^ n) by (apply Z.pow_pos_nonneg; lia).
      assert (He : -1074 <= ex + n <= -53).
      { subst n. unfold fexp, emin, PyFloat.prec, PyFloat.emax in *. lia. }
      split; [apply Z.div_pos; lia |].
      split.
      + apply Z.div_lt_upper_bound; [assumption |].
        rewrite <- Z.pow_add_r by lia.
        replace (n + - (ex + n)) with (- ex) by lia. assumption.
      + split; [| assumption].
        apply Z.div_lt_upper_bound; [assumption |].
        rewrite <- Z.pow_add_r by lia.
        eapply Z.lt_le_trans; [exact Hup |].
        apply Z.pow_le_mono_r; [lia |].
        subst n. unfold fexp, emin, PyFloat.prec, PyFloat.emax in *. lia.
    - assert (He : -1074 <= ex /\ Zdigits2 mx <= 53).
      { subst n. unfold fexp, emin, PyFloat.prec, PyFloat.emax in *. lia. }
      split; [assumption |]. split; [assumption |].
      split; [| lia].
      eapply Z.lt_le_trans; [exact Hup |]. apply Z.pow_le_mono_r; lia. }
  destruct H1 as [Hm1 [Hm1lt [Hm1p [He1 He1']]]].
  assert (Hm2pos : 0 <= m2) by lia.
  destruct (Z.eq_dec m2 (2 ^ 53)) as [Ecarry | Ncarry].
  - (* the rounding carried into a 54th bit *)
    assert (Hd2 : Zdigits2 m2 = 54) by (rewrite Ecarry; reflexivity).
    assert (En2 : n2 = 1).
    { subst n2. rewrite Hd2. unfold fexp, emin, PyFloat.prec, PyFloat.emax. lia. }
    rewrite En2. change (0 <? 1) with true. cbv iota.
    rewrite Ecarry. change (2 ^ 53 / 2 ^ 1) with (Z.pos 4503599627370496).
    cbv iota.
    destruct (Z.leb_spec (e1 + 1) 971); [| lia].
    right. do 2 eexists. split; [reflexivity |].
    assert (Hm1eq : m1 = 2 ^ 53 - 1) by lia.
    destruct (Z.eq_dec e1 (-53)) as [-> | Hne]; [right; split; reflexivity | left; lia].
  - assert (Hm2lt : m2 < 2 ^ 53) by lia.
    assert (Hd2 : Zdigits2 m2 <= 53).
    { apply Zdigits2_le; [assumption | lia | assumption]. }
    assert (Hn2 : n2 <= 0).
    { subst n2. unfold fexp, emin, PyFloat.prec, PyFloat.emax in *. lia. }
    destruct (Z.ltb_spec 0 n2); [lia |].
    destruct m2 as [| q | q]; [now left | | lia].
    destruct (Z.leb_spec e1 971); [| lia].
    right. do 2 eexists. split; [reflexivity |]. left. lia.
Qed.

Lemma Zdigits2_mono a b : 0 <= a <= b -> Zdigits2 a <= Zdigits2 b.
Proof.
  intros H. apply Zdigits2_le; [lia | apply Zdigits2_nonneg |].
  pose proof (Zdigits2_upper b ltac:(lia)). lia.
Qed.

Lemma Zdigits2_lower m : 0 < m -> 2 ^ (Zdigits2 m - 1) <= m.
Proof.
  destruct m as [| q | q]; intros H; [lia | | lia].
  apply digits2_pos_bounds.
Qed.

(** The rounded quotient of two positive integers keeps the sign and is
    never a NaN. *)
Lemma binary_round_aux_sign s mx ex lx :
  0 <= mx ->
  binary_round_aux PyFloat.prec PyFloat.emax s mx ex lx = S754_zero s \/
  binary_round_aux PyFloat.prec PyFloat.emax s mx ex lx = S754_infinity s \/
  exists m e,
    binary_round_aux PyFloat.prec PyFloat.emax s mx ex lx = S754_finite s m e.
Proof.
  intros Hmx.
  destruct (binary_round_aux_cases s mx ex lx Hmx) as [m2 [Hm2 Heq]].
  cbv zeta in Heq. rewrite Heq. clear Heq.
  set (n := fexp PyFloat.prec PyFloat.emax (Zdigits2 mx + ex) - ex) in *.
  set (m1 := if 0 <? n then mx / 2 ^ n else mx) in *.
  set (e1 := if 0 <? n then ex + n else ex) in *.
  set (n2 := fexp PyFloat.prec PyFloat.emax (Zdigits2 m2 + e1) - e1) in *.
  assert (Hm1 : 0 <= m1).
  { subst m1. destruct (Z.ltb_spec 0 n); [| assumption].
    apply Z.div_pos; [assumption | apply Z.pow_pos_nonneg; lia]. }
  assert (Hm3 : 0 <= (if 0 <? n2 then m2 / 2 ^ n2 else m2)).
  { destruct (Z.ltb_spec 0 n2); [| lia].
    apply Z.div_pos; [lia | apply Z.pow_pos_nonneg; lia]. }
  destruct (if 0 <? n2 then m2 / 2 ^ n2 else m2) as [| q | q]; [now left | | lia].
  destruct (_ <=? 971); eauto.
Qed.

(** What [int_true_div] does on two positive integers. *)
Lemma int_true_div_quotient a b :
  0 < a -> 0 < b ->
  let e' := Z.min (fexp PyFloat.prec PyFloat.emax (Zdigits2 a - Zdigits2 b)) 0 in
  let q := a * 2 ^ (- e') / b in
  let l := new_location b (a * 2 ^ (- e') mod b) in
  PyFloat.int_true_div a b =
    match binary_round_aux PyFloat.prec PyFloat.emax false q e' l with
    | S754_infinity _ => Raised OverflowError
    | x => Done x
    end.
Proof.
  intros Ha Hb. unfold PyFloat.int_true_div.
  destruct b as [| pb | pb]; [lia | | lia].
  destruct a as [| pa | pa]; [lia | | lia].
  change (Z.pos pa <? 0) with false. change (Z.pos pb <? 0) with false.
  change (Z.to_pos (Z.abs (Z.pos pa))) with pa.
  change (Z.to_pos (Z.abs (Z.pos pb))) with pb.
  unfold SFdiv, SFdiv_core_binary.
  replace (Zdigits2 (Z.pos pa) + 0 - (Zdigits2 (Z.pos pb) + 0))
    with (Zdigits2 (Z.pos pa) - Zdigits2 (Z.pos pb)) by lia.
  change (0 - 0) with 0.
  set (e' := Z.min (fexp PyFloat.prec PyFloat.emax
                      (Zdigits2 (Z.pos pa) - Zdigits2 (Z.pos pb))) 0).
  assert (He' : e' <= 0) by (subst e'; lia).
  set (m' := match 0 - e' with
             | Z0 => Z.pos pa
             | Zpos _ => Z.shiftl (Z.pos pa) (0 - e')
             | Zneg _ => 0
             end).
  assert (Hm' : m' = Z.pos pa * 2 ^ (- e')).
  { subst m'. replace (0 - e') with (- e') by lia.
    destruct (- e') as [| s | s] eqn:Es.
    - simpl. lia.
    - rewrite Z.shiftl_mul_pow2 by lia. reflexivity.
    - lia. }
  cbv zeta. rewrite <- Hm'. unfold Z.div, Z.modulo.
  destruct (Z.div_eucl m' (Z.pos pb)) as [q r0]. reflexivity.
Qed.

Lemma int_true_div_pos a b :
  0 < a -> 0 < b ->
  exists q e' l,
    e' = Z.min (fexp PyFloat.prec PyFloat.emax (Zdigits2 a - Zdigits2 b)) 0 /\
    q = a * 2 ^ (- e') / b /\
    PyFloat.int_true_div a b =
      match binary_round_aux PyFloat.prec PyFloat.emax false q e' l with
      | S754_infinity _ => Raised OverflowError
      | x => Done x
      end.
Proof.
  intros Ha Hb. do 3 eexists. split; [reflexivity |]. split; [reflexivity |].
  apply (int_true_div_quotient a b Ha Hb).
Qed.

Lemma int_true_div_same a : 0 < a -> PyFloat.int_true_div a a = Done PyFloat.one.
Proof.
  intros Ha. unfold PyFloat.int_true_div.
  destruct a as [| pa | pa]; [lia | | lia].
  change (Z.pos pa <? 0) with false.
  change (Z.to_pos (Z.abs (Z.pos pa))) with pa.
  unfold SFdiv, SFdiv_core_binary.
  replace (Zdigits2 (Z.pos pa) + 0 - (Zdigits2 (Z.pos pa) + 0)) with 0 by lia.
  change (Z.min (fexp PyFloat.prec PyFloat.emax 0) (0 - 0)) with (-53).
  change (0 - 0 - -53) with 53. cbv iota.
  rewrite Z.shiftl_mul_pow2 by lia.
  assert (Ediv : Z.div_eucl (Z.pos pa * 2 ^ 53) (Z.pos pa) = (2 ^ 53, 0)).
  { pose proof (Z.div_mul (2 ^ 53) (Z.pos pa) ltac:(lia)) as Hq.
    pose proof (Z.mod_mul (2 ^ 53) (Z.pos pa) ltac:(lia)) as Hr.
    rewrite (Z.mul_comm (2 ^ 53)) in Hq, Hr.
    unfold Z.div, Z.modulo in Hq, Hr.
    destruct (Z.div_eucl (Z.pos pa * 2 ^ 53) (Z.pos pa)) as [q r0].
    cbn [fst snd] in Hq, Hr. congruence. }
  rewrite Ediv.
  assert (Eloc : new_location (Z.pos pa) 0 = loc_Exact).
  { unfold new_location, new_location_even, new_location_odd.
    destruct (Z.even (Z.pos pa)); reflexivity. }
  rewrite Eloc. vm_compute. reflexivity.
Qed.

(** The quotient of a non-negative integer by one that is not smaller is a
    double between 0.0 and 1.0. *)
Lemma int_true_div_unit a b x :
  0 <= a <= b -> 0 < b ->
  PyFloat.int_true_div a b = Done x ->
  PyFloat.leb PyFloat.zero x = true /\ PyFloat.leb x PyFloat.one = true.
Proof.
  intros Ha Hb H.
  destruct (Z.eq_dec a 0) as [-> | Hnz].
  { rewrite int_true_div_zero in H by assumption. injection H as <-.
    split; reflexivity. }
  destruct (Z.eq_dec a b) as [-> | Hne].
  { rewrite int_true_div_same in H by assumption. injection H as <-.
    split; reflexivity. }
  destruct (int_true_div_pos a b ltac:(lia) Hb) as [q [e' [l [He' [Hq Heq]]]]].
  rewrite Heq in H. clear Heq.
  assert (Hd : Zdigits2 a <= Zdigits2 b) by (apply Zdigits2_mono; lia).
  assert (Hex : e' <= -53).
  { subst e'. unfold fexp, emin, PyFloat.prec, PyFloat.emax. lia. }
  assert (Hp : 0 < 2 ^ (- e')) by (apply Z.pow_pos_nonneg; lia).
  assert (Hq0 : 0 <= q).
  { subst q. apply Z.div_pos; nia. }
  assert (Hq1 : q < 2 ^ (- e')).
  { subst q. apply Z.div_lt_upper_bound; [assumption | nia]. }
  destruct (binary_round_aux_below_one false q e' l Hq0 Hex Hq1)
    as [E | [m [e [E He]]]]; rewrite E in H; injection H as <-.
  - split; reflexivity.
  - split; [reflexivity |].
    unfold PyFloat.leb, SFleb, SFcompare, PyFloat.one.
    destruct He as [Hlt | [-> Hm]].
    + apply Z.compare_lt_iff in Hlt. rewrite Hlt. reflexivity.
    + change (-52 ?= -52) with Eq. cbv iota.
      assert (Em : m = 4503599627370496%positive) by lia.
      rewrite Em. reflexivity.
Qed.

(** A quotient of at least [2^-1074] is a positive double. *)
Lemma int_true_div_positive a b x :
  0 < a -> 0 < b -> b <= a * 2 ^ 1074 ->
  PyFloat.int_true_div a b = Done x ->
  PyFloat.ltb PyFloat.zero x = true.
Proof.
  intros Ha Hb Hab H.
  destruct (int_true_div_pos a b Ha Hb) as [q [e' [l [He' [Hq Heq]]]]].
  rewrite Heq in H. clear Heq.
  pose proof (Zdigits2_lower a Ha) as Hla.
  pose proof (Zdigits2_upper b ltac:(lia)) as Hub.
  pose proof (Zdigits2_nonneg a) as Hda.
  pose proof (Zdigits2_nonneg b) as Hdb.
  assert (Hda1 : 1 <= Zdigits2 a) by (destruct a; simpl; lia).
  assert (Hex : -1074 <= e' <= 0).
  { subst e'. unfold fexp, emin, PyFloat.prec, PyFloat.emax. lia. }
  assert (Hq1 : 1 <= q).
  { subst q. apply Z.div_le_lower_bound; [assumption |]. rewrite Z.mul_1_r.
    destruct (Z.eq_dec e' (-1074)) as [E | N].
    - rewrite E. simpl (- -1074). exact Hab.
    - assert (Hs : Zdigits2 b - Zdigits2 a + 1 <= - e' \/
                   (e' = 0 /\ Zdigits2 b + 1 <= Zdigits2 a)).
      { rewrite He' in N |- *.
        unfold fexp, emin, PyFloat.prec, PyFloat.emax in *. lia. }
      destruct Hs as [Hs | [E0 Hs]].
      + apply Z.le_trans with (2 ^ (Zdigits2 a - 1) * 2 ^ (- e')).
        * rewrite <- Z.pow_add_r by lia.
          apply Z.le_trans with (2 ^ Zdigits2 b); [lia |].
          apply Z.pow_le_mono_r; lia.
        * apply Z.mul_le_mono_nonneg_r; [apply Z.pow_nonneg; lia | assumption].
      + rewrite E0. simpl (- 0). rewrite Z.pow_0_r, Z.mul_1_r.
        apply Z.le_trans with (2 ^ Zdigits2 b); [lia |].
        eapply Z.le_trans; [| exact Hla]. apply Z.pow_le_mono_r; lia. }
  pose proof (binary_round_aux_nonzero false q e' l Hq1 (proj1 Hex)) as Hnz.
  destruct (binary_round_aux_sign false q e' l ltac:(lia))
    as [E | [E | [m [e E]]]]; rewrite E in *.
  - congruence.
  - discriminate.
  - injection H as <-. reflexivity.
Qed.

(** Between a half and the whole of the smallest subnormal the quotient
    rounds up to it; at a half or below it rounds to zero. *)
Lemma int_true_div_tiny a b x :
  0 < a -> 0 < b -> a * 2 ^ 1074 < b ->
  PyFloat.int_true_div a b = Done x ->
  if b <? a * 2 ^ 1075 then x = S754_finite false 1 (-1074)
  else x = S754_zero false.
Proof.
  intros Ha Hb Hab H.
  rewrite (int_true_div_quotient a b Ha Hb) in H. cbv zeta in H.
  pose proof (Zdigits2_upper a ltac:(lia)) as Hua.
  pose proof (Zdigits2_nonneg a) as Hda.
  pose proof (Zdigits2_nonneg b) as Hdb.
  assert (Hlb : 2 ^ (Zdigits2 b - 1) <= b).
  { destruct b as [| pb | pb]; [lia | | lia]. apply digits2_pos_bounds. }
  assert (Hla : 2 ^ (Zdigits2 a - 1) <= a).
  { destruct a as [| pa | pa]; [lia | | lia]. apply digits2_pos_bounds. }
  assert (Hda1 : 1 <= Zdigits2 a) by (destruct a; simpl; lia).
  assert (Hd : Zdigits2 a + 1074 <= Zdigits2 b).
  { destruct (Z.le_gt_cases (Zdigits2 a + 1074) (Zdigits2 b)) as [| Hgt];
      [assumption | exfalso].
    pose proof (Zdigits2_upper b ltac:(lia)) as Hub.
    assert (2 ^ Zdigits2 b <= 2 ^ (Zdigits2 a - 1 + 1074))
      by (apply Z.pow_le_mono_r; lia).
    rewrite Z.pow_add_r in H0 by lia. nia. }
  assert (Ee : Z.min (fexp PyFloat.prec PyFloat.emax (Zdigits2 a - Zdigits2 b)) 0
               = -1074).
  { unfold fexp, emin, PyFloat.prec, PyFloat.emax. lia. }
  rewrite Ee in H. change (- -1074) with 1074 in H.
  assert (Hp : 0 < a * 2 ^ 1074) by (apply Z.mul_pos_pos; [lia | reflexivity]).
  rewrite Z.div_small, Z.mod_small in H by lia.
  unfold new_location in H.
  assert (E2 : 2 * (a * 2 ^ 1074) = a * 2 ^ 1075).
  { change 1075 with (1074 + 1). rewrite Z.pow_add_r by lia. lia. }
  assert (E0 : (a * 2 ^ 1074 =? 0) = false) by (apply Z.eqb_neq; lia).
  destruct (Z.even b) eqn:Eb;
    unfold new_location_even, new_location_odd in H; rewrite E0 in H.
  - destruct (Z.compare_spec (2 * (a * 2 ^ 1074)) b) as [C | C | C];
      (destruct (Z.ltb_spec b (a * 2 ^ 1075)); [try lia | try lia]);
      vm_compute in H; congruence.
  - assert (Hodd : 2 * (a * 2 ^ 1074) <> b).
    { intros <-. rewrite Z.even_mul in Eb. discriminate. }
    destruct (Z.compare_spec (2 * (a * 2 ^ 1074) + 1) b) as [C | C | C];
      (destruct (Z.ltb_spec b (a * 2 ^ 1075)); [try lia | try lia]);
      vm_compute in H; congruence.
Qed.

(** The quotient of two positive integers is a positive double exactly
    when it is above a half of the smallest subnormal. *)
Lemma int_true_div_positive_iff a b x :
  0 < a -> 0 < b ->
  PyFloat.int_true_div a b = Done x ->
  PyFloat.ltb PyFloat.zero x = true <-> b < a * 2 ^ 1075.
Proof.
  intros Ha Hb H.
  assert (Hpow : 2 ^ 1075 = 2 * 2 ^ 1074).
  { change 1075 with (1 + 1074). rewrite Z.pow_add_r by lia. reflexivity. }
  assert (Hp : 0 < 2 ^ 1074) by reflexivity.
  destruct (Z.le_gt_cases b (a * 2 ^ 1074)) as [Hle | Hgt].
  - split; [intros _; nia |]. intros _.
    exact (int_true_div_positive a b x Ha Hb Hle H).
  - pose proof (int_true_div_tiny a b x Ha Hb ltac:(lia) H) as Hx.
    destruct (Z.ltb_spec b (a * 2 ^ 1075)) as [Hlt | Hge]; subst x.
    + split; [intros _; assumption | reflexivity].
    + split; [discriminate | lia].
Qed.

(** ** Blocks and elements *)

Lemma hist_blocks_le_weight h :
  keys_all (fun s => 1 <= s) h -> Forall (fun sc => 0 < snd sc) h ->
  hist_blocks h <= hist_weight h.
Proof.
  unfold keys_all, hist_weight, hist_blocks.
  induction h as [| [s c] h IH]; simpl; intros Hk Hp; [lia |].
  inversion Hk; inversion Hp; subst; simpl in *.
  specialize (IH ltac:(assumption) ltac:(assumption)). nia.
Qed.

Section RunBlocks.

Variable B : Z.
Variable r : Z.
Variable p : PyFloat.float.
Variable rounding : string.
Variable rand : nat -> Z.
Variable method : string.
Variable fuel : nat.

(** With a capacity of at least 2 no block is empty, so there are never
    more blocks than elements. *)
Lemma run_batches_blocks_le_keys k : forall st,
  2 <= B -> 1 <= r ->
  run_batches B r p rounding rand method fuel k = Done st ->
  (k <> O -> hist_blocks (size_counts st) <= Z.of_nat k * r) /\
  blocks_tally (stats st) <= elem_tally (stats st).
Proof.
  induction k as [| k IH]; intros st' HB Hr H.
  - injection H as <-. split; [congruence | simpl; lia].
  - destruct (run_batches_capacity _ _ _ _ _ _ _ _ _ HB Hr H) as [_ Hkeys].
    specialize (Hkeys ltac:(discriminate)).
    destruct (run_batches_population _ _ _ _ _ _ _ _ _ H) as
      [blocks [_ [[_ Hpos] [_ [_ [Hw [Hs [Htk _]]]]]]]].
    assert (Hle : hist_blocks (size_counts st') <= Z.of_nat (S k) * r).
    { rewrite <- Hs, <- Hw. apply hist_blocks_le_weight; [| assumption].
      unfold keys_all in *. eapply Forall_impl; [| exact Hkeys].
      simpl. lia. }
    split; [intros _; exact Hle |].
    destruct (run_batches_succ _ _ _ _ _ _ _ _ _ H) as [st [Hrun Hstep]].
    destruct (IH _ HB Hr Hrun) as [_ IHt].
    destruct (run_batches_population _ _ _ _ _ _ _ _ _ Hrun) as
      [_ [_ [_ [_ [_ [_ [_ [Htk0 _]]]]]]]].
    destruct (batch_step_inv _ _ _ _ _ _ _ _ _ _ Hstep) as
      [old [pos [h1 [new_blocks [ns [_ [_ [_ E]]]]]]]].
    subst st'.
    cbn [update_state size_counts stats blocks_tally elem_tally] in *.
    rewrite Htk0. rewrite Nat2Z.inj_succ in Hle. nia.
Qed.

End RunBlocks.

(** C6, as amended: for [r >= 1] and [total_insertions >= 0] a run that
    returns has executed [total_insertions // r] batches; the remainder
    [total_insertions mod r] is dropped; the [total_insertions] field of the
    result, the [inserts] counter and the number of elements in the
    histogram are all [num_batches * r]; there is at least one block and
    [final_fullness] is [num_batches * r / (B * final_blocks)].  With valid
    arguments, a capacity of at least 2 and inside the range of the doubles
    the run does return. *)
Theorem simulate_batches (B r : Z) (p : PyFloat.float) (rounding : string)
    (rand : nat -> Z) (method : string) (fuel : nat) (total_insertions : Z) :
  1 <= r -> 0 <= total_insertions ->
  (valid_method method -> PyFloat.in_unit_interval p -> 2 <= B ->
   B + r < PyFloat.dbl_max -> B + r <= Z.of_nat fuel ->
   exists res, simulate B r p rounding rand method fuel total_insertions = Done res) /\
  forall res,
    simulate B r p rounding rand method fuel total_insertions = Done res ->
    let num_batches := total_insertions / r in
    (exists st,
       run_batches B r p rounding rand method fuel (Z.to_nat num_batches) = Done st /\
       finish B r p method (num_batches * r) st = Done res) /\
    Z.of_nat (Z.to_nat num_batches) = num_batches /\
    res_total_insertions res = num_batches * r /\
    inserts (res_stats res) = num_batches * r /\
    hist_weight (res_size_counts res) = num_batches * r /\
    total_insertions - num_batches * r = total_insertions mod r /\
    0 <= total_insertions mod r < r /\
    0 < res_final_blocks res /\
    PyFloat.int_true_div (num_batches * r) (B * res_final_blocks res) =
      Done (res_final_fullness res).
Proof.
  intros Hr Htotal. split.
  { intros Hvalid Hp HB Hmax Hfuel. now apply simulate_returns. }
  intros res H num_batches.
  destruct (simulate_inv _ _ _ _ _ _ _ _ _ H) as [_ [st [Hrun Hfin]]].
  fold num_batches in Hrun, Hfin.
  assert (Hnb : 0 <= num_batches) by (apply Z.div_pos; lia).
  destruct (finish_inv _ _ _ _ _ _ _ Hfin) as
    [_ [Hstats [Hsc [Hfb [Hn [Hff _]]]]]].
  destruct (run_batches_population _ _ _ _ _ _ _ _ _ Hrun) as
    [blocks [_ [_ [_ [_ [Hw [Hs [_ Hins]]]]]]]].
  pose proof (run_batches_split_stat _ _ _ _ _ _ _ _ _ Hrun) as [Hsp [Hblk _]].
  rewrite Z2Nat.id in * by assumption.
  split; [eauto |]. split; [reflexivity |]. split; [assumption |].
  split; [rewrite Hstats; assumption |].
  split; [rewrite Hsc; lia |].
  split; [rewrite Z.mod_eq by lia; lia |].
  split; [apply Z.mod_pos_bound; lia |].
  rewrite Hfb. split; [lia |].
  destruct (Z.gtb_spec (hist_blocks (size_counts st)) 0); [assumption | lia].
Qed.

Lemma simulate_batches_witness :
  exists res,
    simulate 10 7 PyFloat.three_tenths "floor" rand_lcg "immediately" 17 50 =
      Done res /\
    let num_batches := 50 / 7 in
    (exists st,
       run_batches 10 7 PyFloat.three_tenths "floor" rand_lcg "immediately" 17
         (Z.to_nat num_batches) = Done st /\
       finish 10 7 PyFloat.three_tenths "immediately" (num_batches * 7) st = Done res) /\
    Z.of_nat (Z.to_nat num_batches) = num_batches /\
    res_total_insertions res = num_batches * 7 /\
    inserts (res_stats res) = num_batches * 7 /\
    hist_weight (res_size_counts res) = num_batches * 7 /\
    50 - num_batches * 7 = 50 mod 7 /\
    0 <= 50 mod 7 < 7 /\
    0 < res_final_blocks res /\
    PyFloat.int_true_div (num_batches * 7) (10 * res_final_blocks res) =
      Done (res_final_fullness res).
Proof.
  eexists. split; [vm_compute; reflexivity |].
  apply (simulate_batches 10 7 PyFloat.three_tenths "floor" rand_lcg
           "immediately" 17 50); [lia | lia |].
  vm_compute. reflexivity.
Defined.

(** With a capacity of 1 the block the second batch goes into is full, and
    filling it splits off an empty block for ever. *)
Lemma fill_loop_capacity_one fuel : forall out k,
  fill_loop 1 (fun current_size _ => split_size PyFloat.half "floor" current_size)
    fuel 1 0 1 out k = OutOfFuel.
Proof.
  induction fuel as [| fuel IH]; intros out k; [reflexivity |].
  cbn [fill_loop]. cbv zeta.
  change (1 <? 1 - 1) with false. change (1 =? 1 - 1) with false. cbv iota.
  change (split_size PyFloat.half "floor" 1) with (Done (1, 0) : outcome (Z * Z)).
  cbn [bind]. change (0 + (1 - 1) <=? 1) with true. cbv iota.
  change (1 - (1 - 1)) with 1. change (0 + (1 - 1)) with 0. apply IH.
Qed.

(** With [B = 1], [r = 1], two insertions and the immediate policy,
    [total_insertions // r] is 2, the first batch completes and the second
    never does, whatever the number of turns allowed: the run executes one
    batch and returns nothing. *)
Lemma simulate_batches_capacity_one :
  1 <= 1 /\ 0 <= 2 /\ valid_method "immediately" /\
  PyFloat.in_unit_interval PyFloat.half /\ 2 / 1 = 2 /\
  (exists st,
     run_batches 1 1 PyFloat.half "floor" rand_zero "immediately" 1 1 = Done st) /\
  (forall fuel,
     run_batches 1 1 PyFloat.half "floor" rand_zero "immediately" fuel 2 = OutOfFuel) /\
  (forall fuel,
     simulate 1 1 PyFloat.half "floor" rand_zero "immediately" fuel 2 = OutOfFuel).
Proof.
  split; [lia |]. split; [lia |]. split; [right; left; reflexivity |].
  split; [split; [reflexivity | simpl; lia] |].
  split; [reflexivity |].
  split; [eexists; vm_compute; reflexivity |].
  assert (Hrun : forall fuel,
             run_batches 1 1 PyFloat.half "floor" rand_zero "immediately" fuel 2 =
               OutOfFuel).
  { intros fuel. destruct fuel as [| fuel]; [reflexivity |].
    cbn [run_batches bind].
    assert (E1 : batch_step 1 1 PyFloat.half "floor" rand_zero "immediately"
                   (S fuel) 0 init_state =
                 Done (mkState [(1, 1); (0, 1)] 1 (mkStats 1 0 0 2 1 2))).
    { destruct fuel; reflexivity. }
    rewrite E1. cbn [bind]. unfold batch_step. cbn [size_counts].
    change (sample_block [(1, 1); (0, 1)] (rand_zero 1))
      with (Done (1, 0) : outcome (Z * Z)).
    cbn [bind].
    change (remove_block [(1, 1); (0, 1)] 1) with (Done [(0, 1)] : outcome histogram).
    cbn [bind]. unfold insert_batch. simpl String.eqb. cbv iota.
    unfold insert_immediately. rewrite fill_loop_capacity_one. reflexivity. }
  split; [exact Hrun |].
  intros fuel. unfold simulate. change (1 >=? 1) with true. cbv iota.
  change (Z.to_nat (2 / 1)) with 2%nat. rewrite Hrun. reflexivity.
Qed.

(** The example of the specification: [r = 7] and [total_insertions = 50]
    give 7 batches and 49 elements. *)
Example simulate_seven_batches :
  exists res,
    simulate 10 7 PyFloat.three_tenths "floor" rand_lcg "immediately" 17 50 =
      Done res /\
    50 / 7 = 7 /\
    res_total_insertions res = 49 /\
    inserts (res_stats res) = 49.
Proof. eexists. split; [vm_compute; reflexivity |]. repeat split. Qed.

(** C5, as amended: for [B >= 1], [r >= 1] and [total_insertions >= 0] the
    two fullness values of a run that returns are doubles between [0.0]
    and [1.0], both ends included.  When at least one batch runs
    ([total_insertions >= r]) they are the doubles nearest to
    [n / (B * final_blocks)] and [elem_tally / capacity_tally], both exact
    ratios are greater than 0 and at most 1, and each double is greater
    than [0.0] exactly when its ratio is above [2^-1075], half of the
    smallest subnormal, which is the case whenever [2 <= B < 2^1075].  With
    valid arguments inside the range of the doubles the run does return. *)
Theorem fullness_bounds (B r : Z) (p : PyFloat.float) (rounding : string)
    (rand : nat -> Z) (method : string) (fuel : nat) (total_insertions : Z) :
  1 <= B -> 1 <= r -> 0 <= total_insertions ->
  (valid_method method -> PyFloat.in_unit_interval p -> 2 <= B ->
   B + r < PyFloat.dbl_max -> B + r <= Z.of_nat fuel ->
   exists res, simulate B r p rounding rand method fuel total_insertions = Done res) /\
  forall res,
    simulate B r p rounding rand method fuel total_insertions = Done res ->
    let n := res_total_insertions res in
    let s := res_stats res in
    PyFloat.leb PyFloat.zero (res_final_fullness res) = true /\
    PyFloat.leb (res_final_fullness res) PyFloat.one = true /\
    PyFloat.leb PyFloat.zero (res_time_avg_fullness res) = true /\
    PyFloat.leb (res_time_avg_fullness res) PyFloat.one = true /\
    (r <= total_insertions ->
     0 < n <= B * res_final_blocks res /\
     PyFloat.int_true_div n (B * res_final_blocks res) =
       Done (res_final_fullness res) /\
     0 < elem_tally s <= capacity_tally s /\
     PyFloat.int_true_div (elem_tally s) (capacity_tally s) =
       Done (res_time_avg_fullness res) /\
     (PyFloat.ltb PyFloat.zero (res_final_fullness res) = true <->
      B * res_final_blocks res < n * 2 ^ 1075) /\
     (PyFloat.ltb PyFloat.zero (res_time_avg_fullness res) = true <->
      capacity_tally s < elem_tally s * 2 ^ 1075) /\
     (2 <= B -> B < 2 ^ 1075 ->
      PyFloat.ltb PyFloat.zero (res_final_fullness res) = true /\
      PyFloat.ltb PyFloat.zero (res_time_avg_fullness res) = true)).
Proof.
  intros HB Hr Htotal. split.
  { intros Hvalid Hp HB2 Hmax Hfuel. apply simulate_returns; assumption. }
  intros res H n s.
  destruct (simulate_inv _ _ _ _ _ _ _ _ _ H) as [_ [st [Hrun Hfin]]].
  assert (Hnb : 0 <= total_insertions / r) by (apply Z.div_pos; lia).
  destruct (finish_inv _ _ _ _ _ _ _ Hfin) as
    [_ [Hstats [Hsc [Hfb [Hn [Hff Hta]]]]]].
  destruct (run_batches_population _ _ _ _ _ _ _ _ _ Hrun) as
    [blocks [_ [Hwf [_ [_ [Hw [Hs _]]]]]]].
  destruct (run_batches_tallies _ _ _ _ _ _ _ _ _ HB Hr Hrun) as
    [Hkeys [Htally Hpos]].
  pose proof (hist_weight_le_capacity B _ Hkeys (proj2 Hwf)) as Hcap.
  pose proof (run_batches_split_stat _ _ _ _ _ _ _ _ _ Hrun) as [Hsp [Hblk _]].
  pose proof (run_batches_tally_forms _ _ _ _ _ _ _ _ _ Hrun) as [_ [Hct _]].
  rewrite Z2Nat.id in * by lia.
  subst n s. rewrite Hn, Hfb, Hstats.
  assert (Hblocks : 0 < hist_blocks (size_counts st)) by lia.
  destruct (Z.gtb_spec (hist_blocks (size_counts st)) 0); [| lia].
  assert (Hunit_ff : PyFloat.leb PyFloat.zero (res_final_fullness res) = true /\
                     PyFloat.leb (res_final_fullness res) PyFloat.one = true).
  { apply (int_true_div_unit (total_insertions / r * r)
             (B * hist_blocks (size_counts st))); [nia | nia | assumption]. }
  assert (Hunit_ta : PyFloat.leb PyFloat.zero (res_time_avg_fullness res) = true /\
                     PyFloat.leb (res_time_avg_fullness res) PyFloat.one = true).
  { destruct (Z.gtb_spec (capacity_tally (stats st)) 0).
    - apply (int_true_div_unit (elem_tally (stats st)) (capacity_tally (stats st)));
        [lia | lia | assumption].
    - injection Hta as <-. split; reflexivity. }
  split; [tauto |]. split; [tauto |]. split; [tauto |]. split; [tauto |].
  intros Hone.
  assert (Hk : 1 <= total_insertions / r) by (apply Z.div_le_lower_bound; lia).
  specialize (Hpos ltac:(lia)).
  assert (Hn_pos : 0 < total_insertions / r * r) by nia.
  destruct (Z.gtb_spec (capacity_tally (stats st)) 0); [| lia].
  split; [lia |]. split; [assumption |]. split; [lia |]. split; [assumption |].
  assert (Pff : PyFloat.ltb PyFloat.zero (res_final_fullness res) = true <->
                B * hist_blocks (size_counts st) < total_insertions / r * r * 2 ^ 1075).
  { apply (int_true_div_positive_iff (total_insertions / r * r)
             (B * hist_blocks (size_counts st))); [lia | nia | assumption]. }
  assert (Pta : PyFloat.ltb PyFloat.zero (res_time_avg_fullness res) = true <->
                capacity_tally (stats st) < elem_tally (stats st) * 2 ^ 1075).
  { apply (int_true_div_positive_iff (elem_tally (stats st))
             (capacity_tally (stats st))); [lia | lia | assumption]. }
  split; [exact Pff |]. split; [exact Pta |].
  intros HB2 HBmax.
  destruct (run_batches_blocks_le_keys _ _ _ _ _ _ _ _ _ HB2 Hr Hrun) as [Hbk Hbt].
  specialize (Hbk ltac:(lia)). rewrite Z2Nat.id in Hbk by lia.
  split; [apply Pff | apply Pta].
  - apply Z.le_lt_trans with (B * (total_insertions / r * r)); [nia |].
    rewrite (Z.mul_comm (total_insertions / r * r)).
    apply Z.mul_lt_mono_pos_r; assumption.
  - rewrite Hct.
    apply Z.le_lt_trans with (B * elem_tally (stats st)); [nia |].
    rewrite (Z.mul_comm (elem_tally (stats st))).
    apply Z.mul_lt_mono_pos_r; [lia | assumption].
Qed.

Lemma fullness_bounds_witness :
  exists res,
    simulate 10 7 PyFloat.three_tenths "floor" rand_lcg "immediately" 17 50 =
      Done res /\
    let n := res_total_insertions res in
    let s := res_stats res in
    PyFloat.leb PyFloat.zero (res_final_fullness res) = true /\
    PyFloat.leb (res_final_fullness res) PyFloat.one = true /\
    PyFloat.leb PyFloat.zero (res_time_avg_fullness res) = true /\
    PyFloat.leb (res_time_avg_fullness res) PyFloat.one = true /\
    (7 <= 50 ->
     0 < n <= 10 * res_final_blocks res /\
     PyFloat.int_true_div n (10 * res_final_blocks res) =
       Done (res_final_fullness res) /\
     0 < elem_tally s <= capacity_tally s /\
     PyFloat.int_true_div (elem_tally s) (capacity_tally s) =
       Done (res_time_avg_fullness res) /\
     (PyFloat.ltb PyFloat.zero (res_final_fullness res) = true <->
      10 * res_final_blocks res < n * 2 ^ 1075) /\
     (PyFloat.ltb PyFloat.zero (res_time_avg_fullness res) = true <->
      capacity_tally s < elem_tally s * 2 ^ 1075) /\
     (2 <= 10 -> 10 < 2 ^ 1075 ->
      PyFloat.ltb PyFloat.zero (res_final_fullness res) = true /\
      PyFloat.ltb PyFloat.zero (res_time_avg_fullness res) = true)).
Proof.
  eexists. split; [vm_compute; reflexivity |].
  apply (fullness_bounds 10 7 PyFloat.three_tenths "floor" rand_lcg
           "immediately" 17 50); [lia | lia | lia |].
  vm_compute. reflexivity.
Defined.

(** With [total_insertions = 0] no batch runs and both fullness values of
    the result record are [0.0], which is not greater than 0.  With one
    batch and a capacity of [2^1100] the exact ratios are positive but too
    small for a double, and both values are [0.0] again. *)
Lemma fullness_zero_without_batches :
  1 <= 2 /\ 1 <= 1 /\ 0 <= 0 /\ valid_method "immediately" /\
  PyFloat.in_unit_interval PyFloat.half /\
  (forall fuel, exists res,
     simulate 2 1 PyFloat.half "floor" rand_zero "immediately" fuel 0 = Done res /\
     res_final_fullness res = PyFloat.zero /\
     res_time_avg_fullness res = PyFloat.zero /\
     PyFloat.ltb PyFloat.zero (res_final_fullness res) = false /\
     PyFloat.ltb PyFloat.zero (res_time_avg_fullness res) = false) /\
  (exists res,
     simulate (2 ^ 1100) 1 PyFloat.half "floor" rand_zero "deferred" 0 1 = Done res /\
     res_final_fullness res = PyFloat.zero /\
     res_time_avg_fullness res = PyFloat.zero).
Proof.
  split; [lia |]. split; [lia |]. split; [lia |].
  split; [right; left; reflexivity |].
  split; [split; [reflexivity | simpl; lia] |].
  split.
  - intros fuel. eexists. split; [vm_compute; reflexivity |].
    repeat split.
  - eexists. split; [vm_compute; reflexivity |]. split; reflexivity.
Qed.

(** * Further properties of the engine *)

(** ** Sampling is proportional to size *)

Lemma hist_weight_app h1 h2 : hist_weight (h1 ++ h2) = hist_weight h1 + hist_weight h2.
Proof.
  unfold hist_weight. induction h1 as [| sc h1 IH]; simpl; [reflexivity | lia].
Qed.

Lemma keys_all_app_l (P : Z -> Prop) h1 h2 : keys_all P (h1 ++ h2) -> keys_all P h1.
Proof. unfold keys_all. intros H. apply Forall_app in H. tauto. Qed.

Lemma sample_walk_skip h1 : forall rest cumsum rand_val,
  keys_all (fun s => 0 <= s) h1 ->
  Forall (fun sc => 0 < snd sc) h1 ->
  cumsum + hist_weight h1 <= rand_val ->
  sample_walk (h1 ++ rest) cumsum rand_val =
  sample_walk rest (cumsum + hist_weight h1) rand_val.
Proof.
  induction h1 as [| [s c] h1 IH]; intros rest cumsum rand_val Hk Hp Hle.
  - simpl. unfold hist_weight. simpl. f_equal. lia.
  - inversion Hk as [| ? ? Hs Hk']; inversion Hp as [| ? ? Hc Hp']; subst.
    simpl in Hs, Hc.
    pose proof (hist_weight_nonneg h1 Hk' Hp') as Hw.
    change (hist_weight ((s, c) :: h1)) with (c * s + hist_weight h1) in *.
    cbn [app sample_walk].
    destruct (Z.ltb_spec rand_val (cumsum + c * s)) as [Hlt | Hge]; [lia |].
    rewrite IH by (assumption || lia). f_equal. lia.
Qed.

Lemma sample_walk_slot rand_val size position :
  forall h cumsum,
  keys_all (fun s => 0 <= s) h ->
  Forall (fun sc => 0 < snd sc) h ->
  cumsum <= rand_val ->
  sample_walk h cumsum rand_val = Some (size, position) ->
  exists h1 count h2 i,
    h = h1 ++ (size, count) :: h2 /\
    0 <= i < count /\ 0 <= position < size /\
    rand_val = cumsum + hist_weight h1 + i * size + position.
Proof.
  induction h as [| [s c] h IH]; intros cumsum Hk Hp Hle; simpl; [discriminate |].
  inversion Hk as [| ? ? Hs Hk']; inversion Hp as [| ? ? Hc Hp']; subst.
  simpl in Hs, Hc.
  destruct (Z.ltb_spec rand_val (cumsum + c * s)) as [Hlt | Hge].
  - intros H. injection H as <- <-.
    assert (Hspos : 0 < s) by nia.
    destruct (Z.ltb_spec 0 s); [| lia].
    exists [], c, h, ((rand_val - cumsum) / s).
    split; [reflexivity |].
    replace (rand_val - (cumsum + c * s - c * s)) with (rand_val - cumsum) by lia.
    pose proof (Z.div_mod (rand_val - cumsum) s ltac:(lia)) as Hdm.
    pose proof (Z.mod_pos_bound (rand_val - cumsum) s Hspos) as Hmod.
    assert (0 <= (rand_val - cumsum) / s) by (apply Z.div_pos; lia).
    assert ((rand_val - cumsum) / s < c).
    { apply Z.div_lt_upper_bound; lia. }
    repeat split; try lia.
    unfold hist_weight. simpl. lia.
  - intros H.
    destruct (IH (cumsum + c * s) Hk' Hp' Hge H) as [h1 [count [h2 [i [-> [Hi [Hpos Hval]]]]]]].
    exists ((s, c) :: h1), count, h2, i.
    split; [reflexivity |]. split; [assumption |]. split; [assumption |].
    change (hist_weight ((s, c) :: h1)) with (c * s + hist_weight h1). lia.
Qed.

(** X1: [sample_block] draws a block with probability proportional to its
    size and an offset uniformly inside it.  On a histogram with
    non-negative keys and positive counts, the [i]-th block of a size class
    and the offset [position] inside it are returned for exactly the draw
    [hist_weight h1 + i * size + position] of [randint(0, total_weight - 1)],
    [h1] being the entries before the class; and every draw comes from one
    such slot, so the final [return (max_size, max_size // 2)] is never
    reached when the total weight is positive. *)
Theorem sample_block_proportional (h : histogram) :
  keys_all (fun s => 0 <= s) h ->
  Forall (fun sc => 0 < snd sc) h ->
  (forall h1 size count h2 i position raw,
      h = h1 ++ (size, count) :: h2 ->
      0 <= i < count -> 0 <= position < size ->
      let draw := hist_weight h1 + i * size + position in
      0 <= draw < hist_weight h /\
      (raw mod hist_weight h = draw -> sample_block h raw = Done (size, position))) /\
  (forall raw size position,
      0 < hist_weight h ->
      sample_block h raw = Done (size, position) ->
      exists h1 count h2 i,
        h = h1 ++ (size, count) :: h2 /\
        0 <= i < count /\ 0 <= position < size /\
        raw mod hist_weight h = hist_weight h1 + i * size + position).
Proof.
  intros Hk Hp. split.
  - intros h1 size count h2 i position raw -> Hi Hpos draw.
    pose proof Hk as Hk1. apply keys_all_app_l in Hk1.
    pose proof Hp as Hp1. apply Forall_app in Hp1. destruct Hp1 as [Hp1 Hp2].
    unfold keys_all in Hk. apply Forall_app in Hk. destruct Hk as [_ Hk2].
    inversion Hk2 as [| ? ? Hs Hk2']; inversion Hp2 as [| ? ? Hc Hp2']; subst.
    simpl in Hs, Hc.
    pose proof (hist_weight_nonneg h1 Hk1 Hp1) as Hw1.
    pose proof (hist_weight_nonneg h2 Hk2' Hp2') as Hw2.
    rewrite hist_weight_app.
    change (hist_weight ((size, count) :: h2)) with (count * size + hist_weight h2).
    assert (Hrange : 0 <= draw < hist_weight h1 + (count * size + hist_weight h2)).
    { subst draw. nia. }
    split; [exact Hrange |]. intros Hraw.
    unfold sample_block. rewrite hist_weight_app.
    change (hist_weight ((size, count) :: h2)) with (count * size + hist_weight h2).
    destruct (Z.eqb_spec (hist_weight h1 + (count * size + hist_weight h2)) 0); [lia |].
    destruct (Z.ltb_spec (hist_weight h1 + (count * size + hist_weight h2)) 0); [lia |].
    unfold randbelow. rewrite Hraw.
    rewrite sample_walk_skip by (assumption || (subst draw; nia)).
    cbn [sample_walk].
    destruct (Z.ltb_spec draw (0 + hist_weight h1 + count * size)) as [_ | Hge];
      [| subst draw; nia].
    destruct (Z.ltb_spec 0 size); [| lia].
    do 2 f_equal.
    replace (draw - (0 + hist_weight h1 + count * size - count * size))
      with (position + i * size) by (subst draw; lia).
    rewrite Z.mod_add by lia. apply Z.mod_small. lia.
  - intros raw size position Hw H.
    unfold sample_block in H.
    destruct (Z.eqb_spec (hist_weight h) 0); [lia |].
    destruct (Z.ltb_spec (hist_weight h) 0); [lia |].
    assert (Hrange : 0 <= randbelow (hist_weight h) raw < hist_weight h).
    { unfold randbelow. apply Z.mod_pos_bound. lia. }
    destruct (sample_walk_total h 0 (randbelow (hist_weight h) raw)) as [sample E]; [lia |].
    rewrite E in H. injection H as ->.
    destruct (sample_walk_slot _ _ _ h 0 Hk Hp (proj1 Hrange) E)
      as [h1 [count [h2 [i [Hh [Hi [Hpos Hval]]]]]]].
    exists h1, count, h2, i. unfold randbelow in Hval. repeat split; try tauto; lia.
Qed.

Lemma sample_block_proportional_witness :
  keys_all (fun s => 0 <= s) example_histogram /\
  Forall (fun sc : Z * Z => 0 < snd sc) example_histogram /\
  hist_weight example_histogram = 11 /\
  sample_block example_histogram 10 = Done (5, 4) /\
  sample_block example_histogram 3 = Done (3, 0).
Proof.
  assert (Hk : keys_all (fun s => 0 <= s) example_histogram).
  { repeat constructor; simpl; lia. }
  assert (Hp : Forall (fun sc : Z * Z => 0 < snd sc) example_histogram).
  { repeat constructor. }
  split; [exact Hk |]. split; [exact Hp |]. split; [reflexivity |].
  destruct (sample_block_proportional example_histogram Hk Hp) as [Hslot _].
  split.
  - apply (Hslot [(3, 2)] 5 1 [] 0 4 10 eq_refl); [lia | lia | reflexivity].
  - apply (Hslot [] 3 2 [(5, 1)] 1 0 3 eq_refl); [lia | lia | reflexivity].
Defined.

(** ** Adding and removing a block *)

Lemma hist_get_set_same h s v : hist_get (hist_set h s v) s = Some v.
Proof.
  induction h as [| [s' c'] h IH]; simpl.
  - now rewrite Z.eqb_refl.
  - destruct (Z.eqb_spec s' s) as [E | Hne]; simpl.
    + destruct (Z.eqb_spec s' s); [reflexivity | contradiction].
    + destruct (Z.eqb_spec s' s); [contradiction | exact IH].
Qed.

Lemma hist_set_set h s v w : hist_set (hist_set h s v) s w = hist_set h s w.
Proof.
  induction h as [| [s' c'] h IH]; simpl.
  - now rewrite Z.eqb_refl.
  - destruct (Z.eqb_spec s' s) as [E | Hne]; simpl.
    + destruct (Z.eqb_spec s' s); [reflexivity | contradiction].
    + destruct (Z.eqb_spec s' s); [contradiction | now rewrite IH].
Qed.

Lemma hist_set_get h s c : hist_get h s = Some c -> hist_set h s c = h.
Proof.
  induction h as [| [s' c'] h IH]; simpl; [discriminate |].
  destruct (Z.eqb_spec s' s) as [E | Hne]; intros H.
  - congruence.
  - now rewrite IH.
Qed.

Lemma hist_del_set_absent h s v : hist_get h s = None -> hist_del (hist_set h s v) s = h.
Proof.
  induction h as [| [s' c'] h IH]; simpl.
  - now rewrite Z.eqb_refl.
  - destruct (Z.eqb_spec s' s) as [E | Hne]; [discriminate |]. intros H.
    simpl. destruct (Z.eqb_spec s' s); [contradiction | now rewrite IH].
Qed.

(** X2: the two histogram updates of the main loop undo each other.
    Counting a block of some size in ([size_counts[size] =
    size_counts.get(size, 0) + 1]) and taking one of that size out again
    ([-= 1], with [del] at zero) gives back the same dictionary, entry for
    entry and in the same order; taking a block out and counting one of the
    same size in gives back the same count for every size. *)
Theorem add_remove_block (h : histogram) (size : Z) :
  Forall (fun sc => 0 < snd sc) h ->
  remove_block (add_block h size) size = Done h /\
  (NoDup (hist_keys h) ->
   forall h', remove_block h size = Done h' ->
   forall s, hist_count (add_block h' size) s = hist_count h s).
Proof.
  intros Hpos. split.
  - unfold remove_block, add_block. rewrite hist_get_set_same, hist_set_set.
    unfold hist_count. destruct (hist_get h size) as [c |] eqn:E.
    + pose proof E as Hin. apply hist_get_In in Hin.
      rewrite Forall_forall in Hpos. specialize (Hpos _ Hin). simpl in Hpos.
      destruct (Z.eqb_spec (c + 1 - 1) 0); [lia |].
      replace (c + 1 - 1) with c by lia. now rewrite hist_set_get.
    + simpl. now rewrite hist_del_set_absent.
  - intros Hnd h' Hrem s.
    rewrite add_block_count, (remove_block_count h size h' s (conj Hnd Hpos) Hrem).
    lia.
Qed.

Lemma add_remove_block_witness :
  remove_block (add_block example_histogram 4) 4 = Done example_histogram /\
  remove_block (add_block example_histogram 3) 3 = Done example_histogram.
Proof.
  assert (H : Forall (fun sc : Z * Z => 0 < snd sc) example_histogram).
  { repeat constructor. }
  split.
  - exact (proj1 (add_remove_block example_histogram 4 H)).
  - exact (proj1 (add_remove_block example_histogram 3 H)).
Defined.

(** ** Counted and uncounted splits *)

(** X3: what a policy returns as [num_splits] against the blocks it
    returns.  [num_splits] is never negative; [insert_deferred] returns
    exactly [num_splits + 1] blocks; the three position-sensitive policies
    return [num_splits + 1] or [num_splits + 2] blocks. *)
Theorem splits_and_returned_blocks (B r : Z) (p : PyFloat.float) (rounding method : string)
    (fuel : nat) (old_size insert_pos : Z) (new_blocks : list Z) (num_splits : Z) :
  insert_batch B r p rounding method fuel old_size insert_pos =
    Done (new_blocks, num_splits) ->
  0 <= num_splits /\
  num_splits + 1 <= Z.of_nat (List.length new_blocks) <= num_splits + 2 /\
  (method = "deferred"%string ->
   Z.of_nat (List.length new_blocks) = num_splits + 1).
Proof.
  unfold insert_batch. intros H.
  destruct (String.eqb_spec method "deferred") as [E | N].
  - unfold insert_deferred in H. destruct (old_size + r <? B).
    + injection H as <- <-. cbn [List.length]. lia.
    + apply deferred_loop_split_count in H. cbn [List.length] in H. lia.
  - assert (Hcount : 0 <= num_splits /\
                     num_splits + 1 <= Z.of_nat (List.length new_blocks)
                       <= num_splits + 2).
    { destruct (String.eqb method "adaptive");
        [| destruct (String.eqb method "adaptive2");
           [| destruct (String.eqb method "immediately"); [| discriminate]]];
        apply fill_loop_split_count in H; cbn [List.length] in H; lia. }
    split; [tauto |]. split; [tauto | congruence].
Qed.

Lemma splits_and_returned_blocks_witness :
  exists new_blocks num_splits,
    insert_batch 10 7 PyFloat.three_tenths "floor" "deferred" 17 8 0 =
      Done (new_blocks, num_splits) /\
    0 <= num_splits /\
    num_splits + 1 <= Z.of_nat (List.length new_blocks) <= num_splits + 2 /\
    ("deferred"%string = "deferred"%string ->
     Z.of_nat (List.length new_blocks) = num_splits + 1).
Proof.
  eexists. eexists. split; [vm_compute; reflexivity |].
  apply (splits_and_returned_blocks 10 7 PyFloat.three_tenths "floor" "deferred" 17 8 0).
  vm_compute. reflexivity.
Defined.

(** X4: the split the position-sensitive policies do not count.  When the
    batch fills the block exactly ([old_size + r = B]) and the insertion
    ends inside the left child, the block is split in two and the loop is
    left by [break] before [num_splits += 1]: two blocks come back with
    [num_splits = 0]. *)
Theorem exact_fill_split_uncounted (B r : Z) (p : PyFloat.float)
    (rounding : string) (fuel : nat) (old_size insert_pos left_size right_size : Z) :
  old_size + r = B ->
  insert_pos + r <= left_size ->
  (split_size p rounding B = Done (left_size, right_size) ->
   insert_batch B r p rounding "immediately" (S fuel) old_size insert_pos =
     Done ([left_size; right_size], 0)) /\
  (adaptive_split p B (insert_pos + r) = Done (left_size, right_size) ->
   insert_batch B r p rounding "adaptive" (S fuel) old_size insert_pos =
     Done ([left_size; right_size], 0)) /\
  (adaptive2_split p B (insert_pos + r) = Done (left_size, right_size) ->
   insert_batch B r p rounding "adaptive2" (S fuel) old_size insert_pos =
     Done ([left_size; right_size], 0)).
Proof.
  intros Hfill Hend.
  assert (Hf : forall choose,
             choose B (insert_pos + r) = Done (left_size, right_size) ->
             fill_loop B choose (S fuel) old_size insert_pos r [] 0 =
               Done ([left_size; right_size], 0)).
  { intros choose Hc. cbn [fill_loop]. cbv zeta.
    destruct (Z.ltb_spec r (B - old_size)); [lia |].
    destruct (Z.eqb_spec r (B - old_size)); [| lia].
    replace (insert_pos + (B - old_size)) with (insert_pos + r) by lia.
    rewrite Hc. cbn [bind].
    destruct (Z.leb_spec (insert_pos + r) left_size); [reflexivity | lia]. }
  repeat split; intros H; unfold insert_batch; simpl String.eqb; cbv iota.
  - apply (Hf (fun current_size _ => split_size p rounding current_size)), H.
  - apply Hf, H.
  - apply Hf, H.
Qed.

Lemma exact_fill_split_uncounted_witness :
  2 + 2 = 4 /\ 0 + 2 <= 2 /\
  split_size PyFloat.half "floor" 4 = Done (2, 2) /\
  insert_batch 4 2 PyFloat.half "floor" "immediately" 1 2 0 = Done ([2; 2], 0).
Proof.
  split; [lia |]. split; [lia |]. split; [vm_compute; reflexivity |].
  apply (exact_fill_split_uncounted 4 2 PyFloat.half "floor" 0 2 0 2 2); try lia.
  vm_compute. reflexivity.
Defined.

(** ** Statistics of a run *)

(** X5: the number of blocks against [stats.splits] at the end of a run
    that returns.  Under the deferred policy [final_blocks] is exactly
    [1 + stats.splits]; under every policy it is at least [1 + stats.splits]
    and at most [1 + stats.splits] plus the number of batches, one
    uncounted split per batch at most. *)
Theorem blocks_and_splits (B r : Z) (p : PyFloat.float) (rounding : string)
    (rand : nat -> Z) (method : string) (fuel : nat) (total : Z) (res : Result) :
  0 <= total ->
  simulate B r p rounding rand method fuel total = Done res ->
  0 <= splits (res_stats res) /\
  1 + splits (res_stats res) <= res_final_blocks res
    <= 1 + splits (res_stats res) + total / r /\
  (method = "deferred"%string ->
   res_final_blocks res = 1 + splits (res_stats res)).
Proof.
  intros Htotal H.
  destruct (simulate_inv _ _ _ _ _ _ _ _ _ H) as [Hr [st [Hrun Hfin]]].
  destruct (finish_inv _ _ _ _ _ _ _ Hfin) as [_ [Hstats [_ [Hfb _]]]].
  rewrite Hstats, Hfb.
  pose proof (run_batches_split_stat _ _ _ _ _ _ _ _ _ Hrun) as Hs.
  assert (0 <= total / r) by (apply Z.div_pos; lia).
  rewrite Z2Nat.id in Hs by assumption. exact Hs.
Qed.

Lemma blocks_and_splits_witness :
  exists res,
    simulate 10 7 PyFloat.three_tenths "floor" rand_lcg "deferred" 17 50 = Done res /\
    0 <= splits (res_stats res) /\
    1 + splits (res_stats res) <= res_final_blocks res
      <= 1 + splits (res_stats res) + 50 / 7 /\
    ("deferred"%string = "deferred"%string ->
     res_final_blocks res = 1 + splits (res_stats res)).
Proof.
  eexists. split; [vm_compute; reflexivity |].
  apply (blocks_and_splits 10 7 PyFloat.three_tenths "floor" rand_lcg
           "deferred" 17 50); [lia |].
  vm_compute. reflexivity.
Defined.

(** X6: the tallies of a run that returns.  [stats.moves] is never
    updated and stays 0; [stats.elem_tally] depends on nothing but [r] and
    the number of batches [k = total_insertions // r]: it is
    [r * r * k * (k + 1) / 2]; and [stats.capacity_tally] is [B] times
    [stats.blocks_tally]. *)
Theorem tally_closed_forms (B r : Z) (p : PyFloat.float) (rounding : string)
    (rand : nat -> Z) (method : string) (fuel : nat) (total : Z) (res : Result) :
  0 <= total ->
  simulate B r p rounding rand method fuel total = Done res ->
  let k := total / r in
  moves (res_stats res) = 0 /\
  2 * elem_tally (res_stats res) = r * r * k * (k + 1) /\
  capacity_tally (res_stats res) = B * blocks_tally (res_stats res).
Proof.
  intros Htotal H k.
  destruct (simulate_inv _ _ _ _ _ _ _ _ _ H) as [Hr [st [Hrun Hfin]]].
  destruct (finish_inv _ _ _ _ _ _ _ Hfin) as [_ [Hstats _]].
  rewrite Hstats.
  pose proof (run_batches_tally_forms _ _ _ _ _ _ _ _ _ Hrun) as [Hm [Hc He]].
  assert (0 <= total / r) by (apply Z.div_pos; lia).
  rewrite Z2Nat.id in * by assumption. subst k. tauto.
Qed.

Lemma tally_closed_forms_witness :
  exists res,
    simulate 10 7 PyFloat.three_tenths "floor" rand_lcg "immediately" 17 50 =
      Done res /\
    let k := 50 / 7 in
    moves (res_stats res) = 0 /\
    2 * elem_tally (res_stats res) = 7 * 7 * k * (k + 1) /\
    capacity_tally (res_stats res) = 10 * blocks_tally (res_stats res).
Proof.
  eexists. split; [vm_compute; reflexivity |].
  apply (tally_closed_forms 10 7 PyFloat.three_tenths "floor" rand_lcg
           "immediately" 17 50); [lia |].
  vm_compute. reflexivity.
Defined.

(** ** Which exceptions a run can raise *)

Lemma bind_Raised {A C : Type} (c : outcome A) (k : A -> outcome C) (e : exn) :
  bind c k = Raised e ->
  c = Raised e \/ exists a, c = Done a /\ k a = Raised e.
Proof. destruct c; simpl; intros H; [eauto | left; congruence | discriminate]. Qed.

Lemma mul_int_raises p n e :
  PyFloat.mul_int p n = Raised e -> e = OverflowError.
Proof.
  unfold PyFloat.mul_int, PyFloat.of_int.
  destruct (binary_normalize PyFloat.prec PyFloat.emax n 0 false);
    simpl; congruence.
Qed.

Lemma floor_raises x e :
  PyFloat.floor x = Raised e -> e = ValueError \/ e = OverflowError.
Proof. destruct x; simpl; intros H; try discriminate; injection H as <-; tauto. Qed.

Lemma ceil_raises x e :
  PyFloat.ceil x = Raised e -> e = ValueError \/ e = OverflowError.
Proof. destruct x; simpl; intros H; try discriminate; injection H as <-; tauto. Qed.

Lemma round_raises x e :
  PyFloat.round x = Raised e -> e = ValueError \/ e = OverflowError.
Proof.
  destruct x; simpl; intros H; try discriminate; try (injection H as <-; tauto).
  destruct (0 <=? e0); discriminate.
Qed.

Lemma split_size_raises p rounding n e :
  split_size p rounding n = Raised e -> e = ValueError \/ e = OverflowError.
Proof.
  unfold split_size. intros H.
  apply bind_Raised in H. destruct H as [H | [raw [_ H]]].
  { apply mul_int_raises in H. tauto. }
  apply bind_Raised in H. destruct H as [H | [k [_ H]]]; [| discriminate].
  destruct (String.eqb rounding "floor"); [now apply floor_raises in H |].
  destruct (String.eqb rounding "ceil"); [now apply ceil_raises in H |].
  now apply round_raises in H.
Qed.

Lemma adaptive_split_raises p size pos e :
  adaptive_split p size pos = Raised e -> e = ValueError \/ e = OverflowError.
Proof.
  unfold adaptive_split. intros H.
  apply bind_Raised in H. destruct H as [H | [raw [_ H]]].
  { apply mul_int_raises in H. tauto. }
  apply bind_Raised in H. destruct H as [H | [k [_ H]]].
  { now apply floor_raises in H. }
  destruct (pos <? Z.max 1 (Z.min (size - 1) k)); discriminate.
Qed.

Lemma adaptive2_split_raises p size pos e :
  adaptive2_split p size pos = Raised e -> e = ValueError \/ e = OverflowError.
Proof.
  unfold adaptive2_split. intros H.
  apply bind_Raised in H. destruct H as [H | [raw [_ H]]].
  { apply mul_int_raises in H. tauto. }
  apply bind_Raised in H. destruct H as [H | [k [_ H]]].
  { now apply floor_raises in H. }
  cbv zeta in H.
  destruct (pos >? size - Z.max 1 (Z.min (size - 1) k)); discriminate.
Qed.

Lemma deferred_loop_raises B p rounding fuel : forall q out k e,
  deferred_loop B p rounding fuel q out k = Raised e ->
  e = ValueError \/ e = OverflowError.
Proof.
  induction fuel as [| fuel IH]; intros q out k e H.
  - destruct q; discriminate.
  - destruct q as [| s q]; [discriminate |].
    rewrite deferred_loop_cons in H.
    destruct (s <? B); [now apply IH in H |].
    apply bind_Raised in H. destruct H as [H | [[l rr] [_ H]]].
    + now apply split_size_raises in H.
    + now apply IH in H.
Qed.

Lemma fill_loop_raises B choose fuel :
  (forall size pos e, choose size pos = Raised e ->
                      e = ValueError \/ e = OverflowError) ->
  forall cs pos rem out k e,
    fill_loop B choose fuel cs pos rem out k = Raised e ->
    e = ValueError \/ e = OverflowError.
Proof.
  intros Hchoose.
  induction fuel as [| fuel IH]; intros cs pos rem out k e H; [discriminate |].
  cbn [fill_loop] in H. cbv zeta in H.
  destruct (rem <? B - cs); [discriminate |].
  destruct (rem =? B - cs).
  - apply bind_Raised in H. destruct H as [H | [[l rr] [_ H]]].
    + now apply Hchoose in H.
    + destruct (pos + (B - cs) <=? l); [discriminate | now apply IH in H].
  - apply bind_Raised in H. destruct H as [H | [[l rr] [_ H]]].
    + now apply Hchoose in H.
    + destruct (pos + (B - cs) <=? l); now apply IH in H.
Qed.

Lemma insert_batch_raises B r p rounding method fuel old_size insert_pos e :
  insert_batch B r p rounding method fuel old_size insert_pos = Raised e ->
  e = ValueError \/ e = OverflowError.
Proof.
  unfold insert_batch. intros H.
  destruct (String.eqb method "deferred").
  { unfold insert_deferred in H. destruct (old_size + r <? B); [discriminate |].
    now apply deferred_loop_raises in H. }
  destruct (String.eqb method "adaptive").
  { revert H. apply fill_loop_raises. apply adaptive_split_raises. }
  destruct (String.eqb method "adaptive2").
  { revert H. apply fill_loop_raises. apply adaptive2_split_raises. }
  destruct (String.eqb method "immediately").
  { revert H. apply fill_loop_raises. intros size pos. apply split_size_raises. }
  injection H as <-. tauto.
Qed.

Lemma run_batches_raises B r p rounding rand method fuel k e :
  1 <= r ->
  run_batches B r p rounding rand method fuel k = Raised e ->
  e = ValueError \/ e = OverflowError.
Proof.
  intros Hr. induction k as [| k IH]; [discriminate |].
  cbn [run_batches]. intros H.
  apply bind_Raised in H. destruct H as [H | [st [Hrun H]]]; [now apply IH |].
  clear IH. unfold batch_step in H.
  destruct (run_batches_population _ _ _ _ _ _ _ _ _ Hrun) as
    [blocks [_ [Hwf [_ [_ [Hw [Hs _]]]]]]].
  destruct (sample_block_returns (size_counts st) (rand k)) as [old [pos Hsample]].
  { rewrite Hw, Hs. nia. }
  { intros Hz. destruct k as [| k'].
    - injection Hrun as <-. discriminate.
    - rewrite Hw, Hs in Hz. nia. }
  rewrite Hsample in H. cbn [bind] in H.
  pose proof (sample_block_key _ _ _ _ Hsample) as Hkey.
  destruct (hist_key_get _ _ Hkey) as [c Hc].
  assert (Hrem : exists h1, remove_block (size_counts st) old = Done h1).
  { unfold remove_block. rewrite Hc. destruct (c - 1 =? 0); eauto. }
  destruct Hrem as [h1 Hrem]. rewrite Hrem in H. cbn [bind] in H.
  apply bind_Raised in H. destruct H as [H | [[nb ns] [_ H]]]; [| discriminate].
  now apply insert_batch_raises in H.
Qed.

Lemma int_true_div_raises a b e :
  b <> 0 -> PyFloat.int_true_div a b = Raised e -> e = OverflowError.
Proof.
  intros Hb. unfold PyFloat.int_true_div.
  destruct b; [congruence | |]; (destruct a; [discriminate | |]);
    match goal with
    | |- context [SFdiv ?pr ?em ?x ?y] => destruct (SFdiv pr em x y)
    end; congruence.
Qed.

Lemma finish_raises B r p method n st e :
  B <> 0 -> finish B r p method n st = Raised e -> e = OverflowError.
Proof.
  intros HB. unfold finish. intros H.
  assert (Hdiv : forall (c : Z) a b,
             ((c >? 0) = true -> b <> 0) ->
             (if c >? 0 then PyFloat.int_true_div a b else Done PyFloat.zero)
               = Raised e ->
             e = OverflowError).
  { intros c a b Hb Hd. destruct (c >? 0); [| discriminate].
    eapply int_true_div_raises; [apply Hb; reflexivity | exact Hd]. }
  apply bind_Raised in H. destruct H as [H | [ff [_ H]]].
  { revert H. apply Hdiv. intros Hpos. apply Z.gtb_lt in Hpos. nia. }
  apply bind_Raised in H. destruct H as [H | [ta [_ H]]].
  { revert H. apply Hdiv. intros Hpos. apply Z.gtb_lt in Hpos. lia. }
  destruct (String.eqb method "deferred"); [| discriminate].
  apply bind_Raised in H. destruct H as [H | [fh [_ H]]].
  { revert H. apply Hdiv. intros Hpos. apply Z.gtb_lt in Hpos. lia. }
  apply bind_Raised in H. destruct H as [H | [mu [_ H]]]; [| discriminate].
  revert H. apply Hdiv. intros Hpos. apply Z.gtb_lt in Hpos. lia.
Qed.

(** X7: the exceptions of [simulate].  With [r < 1] the assertion fails
    before anything else.  With [r >= 1] and [B <> 0] a run never raises
    [AssertionError], [KeyError], [IndexError] or [ZeroDivisionError]: the
    sampled occupancy is always a key of the histogram, the histogram is
    never empty when it is sampled, and no denominator is zero; the only
    exceptions left are [ValueError] and [OverflowError]. *)
Theorem simulate_exceptions (B r : Z) (p : PyFloat.float) (rounding : string)
    (rand : nat -> Z) (method : string) (fuel : nat) (total : Z) :
  (r < 1 -> simulate B r p rounding rand method fuel total = Raised AssertionError) /\
  (1 <= r -> B <> 0 ->
   forall e, simulate B r p rounding rand method fuel total = Raised e ->
             e = ValueError \/ e = OverflowError).
Proof.
  split.
  - intros Hr. unfold simulate. destruct (Z.geb_spec r 1); [lia | reflexivity].
  - intros Hr HB e. unfold simulate. destruct (Z.geb_spec r 1) as [G | G]; [| lia].
    intros H. apply bind_Raised in H. destruct H as [H | [st [_ H]]].
    + now apply run_batches_raises in H.
    + apply finish_raises in H; tauto.
Qed.

Lemma simulate_exceptions_witness :
  (0 < 1 ->
   simulate 10 0 PyFloat.half "floor" rand_zero "deferred" 5 50 =
     Raised AssertionError) /\
  1 <= 7 /\ 10 <> 0 /\
  simulate 10 7 PyFloat.half "floor" rand_zero "other" 5 50 = Raised ValueError /\
  (ValueError = ValueError \/ ValueError = OverflowError).
Proof.
  split.
  { exact (proj1 (simulate_exceptions 10 0 PyFloat.half "floor" rand_zero
                    "deferred" 5 50)). }
  split; [lia |]. split; [lia |]. split; [vm_compute; reflexivity |].
  apply (proj2 (simulate_exceptions 10 7 PyFloat.half "floor" rand_zero
                  "other" 5 50)); [lia | lia |].
  vm_compute. reflexivity.
Defined.

(** ** Capacities below two *)

Lemma deferred_loop_small_capacity B p rounding fuel : forall q out k res,
  B <= 1 -> q <> [] -> Forall (fun s => B <= s) q ->
  deferred_loop B p rounding fuel q out k <> Done res.
Proof.
  induction fuel as [| fuel IH]; intros q out k res HB Hne Hq.
  - destruct q; [congruence | discriminate].
  - destruct q as [| s q]; [congruence |].
    rewrite deferred_loop_cons.
    apply Forall_cons_iff in Hq. destruct Hq as [Hs Hq].
    destruct (Z.ltb_spec s B); [lia |].
    destruct (split_size p rounding s) as [[l rr] | e |] eqn:E;
      cbn [bind]; [| discriminate | discriminate].
    apply split_size_bounds in E. destruct E as [_ [Hl _]].
    apply IH; [assumption | |].
    + unfold requeued. cbn [filter].
      destruct (Z.leb_spec B l); [| lia].
      intros Hnil. apply app_eq_nil in Hnil. destruct Hnil as [_ Hnil].
      discriminate.
    + apply Forall_app. split; [assumption | apply requeued_Forall].
Qed.

(** X8: with a capacity of at most 1 the deferred policy never returns.
    Every split puts its left child, of size at least 1, back in the queue,
    so the queue never empties: [insert_deferred] returns for no occupancy
    and no number of turns, and a deferred run with at least one batch
    returns no result. *)
Theorem deferred_needs_capacity_two (B r : Z) (p : PyFloat.float)
    (rounding : string) (rand : nat -> Z) (fuel : nat) :
  B <= 1 -> 1 <= r ->
  (forall block_size res,
     0 <= block_size ->
     insert_deferred B p rounding fuel block_size r <> Done res) /\
  (forall total res,
     r <= total ->
     simulate B r p rounding rand "deferred" fuel total <> Done res).
Proof.
  intros HB Hr.
  assert (Hpol : forall block_size res,
             0 <= block_size ->
             insert_deferred B p rounding fuel block_size r <> Done res).
  { intros block_size res Hb. unfold insert_deferred.
    destruct (Z.ltb_spec (block_size + r) B); [lia |].
    apply deferred_loop_small_capacity; [assumption | discriminate |].
    constructor; [assumption | constructor]. }
  split; [exact Hpol |].
  intros total res Htotal H.
  destruct (simulate_inv _ _ _ _ _ _ _ _ _ H) as [_ [st [Hrun _]]].
  assert (Hk : exists k, Z.to_nat (total / r) = S k).
  { assert (1 <= total / r) by (apply Z.div_le_lower_bound; lia).
    exists (Z.to_nat (total / r - 1)). lia. }
  destruct Hk as [k Hk]. rewrite Hk in Hrun. clear Hk H.
  revert st Hrun. induction k as [| k IH]; intros st Hrun.
  - destruct (run_batches_succ _ _ _ _ _ _ _ _ _ Hrun) as [st0 [Hrun0 Hstep]].
    injection Hrun0 as <-.
    destruct (batch_step_inv _ _ _ _ _ _ _ _ _ _ Hstep) as
      [old [pos [h1 [nb [ns [Hsample [_ [Hpolicy _]]]]]]]].
    cbn [init_state size_counts] in Hsample. rewrite sample_initial in Hsample.
    injection Hsample as <- <-.
    unfold insert_batch in Hpolicy. simpl String.eqb in Hpolicy. cbv iota in Hpolicy.
    revert Hpolicy. apply Hpol. lia.
  - destruct (run_batches_succ _ _ _ _ _ _ _ _ _ Hrun) as [st0 [Hrun0 _]].
    exact (IH _ Hrun0).
Qed.

Lemma deferred_needs_capacity_two_witness :
  1 <= 1 /\ 1 <= 1 /\
  (forall block_size res,
     0 <= block_size ->
     insert_deferred 1 PyFloat.half "floor" 100 block_size 1 <> Done res) /\
  (forall total res,
     1 <= total ->
     simulate 1 1 PyFloat.half "floor" rand_zero "deferred" 100 total <> Done res).
Proof.
  split; [lia |]. split; [lia |].
  apply (deferred_needs_capacity_two 1 1 PyFloat.half "floor" rand_zero 100); lia.
Defined.

(** ** The two adaptive rules side by side *)

(** X9: the split rules of [insert_adaptive] and [insert_adaptive2] side
    by side.  On the same block and insertion end-position both produce the
    same two child sizes, possibly in the opposite order; they produce them
    in the same order whenever the end-position lies below the smaller
    child size or above the larger one. *)
Theorem adaptive_rules_compared (p : PyFloat.float) (size e l rr : Z) :
  adaptive_split p size e = Done (l, rr) ->
  (adaptive2_split p size e = Done (l, rr) \/
   adaptive2_split p size e = Done (rr, l)) /\
  (e < Z.min l rr \/ Z.max l rr < e ->
   adaptive2_split p size e = Done (l, rr)).
Proof.
  intros H.
  destruct (adaptive_split_inv _ _ _ _ _ H) as [raw [f [Hraw [Hf Hpair]]]].
  cbv zeta in Hpair.
  assert (E : adaptive2_split p size e =
              if e >? size - Z.max 1 (Z.min (size - 1) f)
              then Done (size - Z.max 1 (Z.min (size - 1) f),
                         Z.max 1 (Z.min (size - 1) f))
              else Done (Z.max 1 (Z.min (size - 1) f),
                         size - Z.max 1 (Z.min (size - 1) f))).
  { unfold adaptive2_split. rewrite Hraw. cbn [bind]. rewrite Hf. reflexivity. }
  rewrite E. clear E.
  remember (Z.max 1 (Z.min (size - 1) f)) as ps eqn:Eps. clear Eps.
  destruct (Z.ltb_spec e ps), (Z.gtb_spec e (size - ps));
    injection Hpair as -> ->; split; auto; intros [Hlo | Hhi];
    try reflexivity; lia.
Qed.

Lemma adaptive_rules_compared_witness :
  adaptive_split PyFloat.three_tenths 10 2 = Done (3, 7) /\
  (2 < Z.min 3 7 \/ Z.max 3 7 < 2) /\
  adaptive2_split PyFloat.three_tenths 10 2 = Done (3, 7).
Proof.
  split; [vm_compute; reflexivity |].
  split; [left; vm_compute; reflexivity |].
  apply (adaptive_rules_compared PyFloat.three_tenths 10 2 3 7).
  - vm_compute. reflexivity.
  - left. vm_compute. reflexivity.
Defined.

(** ** High blocks *)

Lemma high_count_all B r h :
  keys_all (fun s => B - r < s) h -> high_count B r h = hist_blocks h.
Proof.
  unfold keys_all, high_count, hist_blocks.
  induction h as [| [s c] h IH]; intros Hk; [reflexivity |].
  apply Forall_cons_iff in Hk. destruct Hk as [Hs Hk]. simpl in Hs.
  cbn [fold_right fst snd]. rewrite (IH Hk).
  destruct (Z.gtb_spec s (B - r)); [reflexivity | lia].
Qed.

(** X10: the count of high blocks ([size > B - r]) behind [k_H].  At the
    end of a run that returns it lies between 0 and [final_blocks]; when
    [r >= B] (with [B >= 2] and at least one batch) every block is high, so
    [k_H] is [final_blocks / final_blocks]. *)
Theorem high_blocks (B r : Z) (p : PyFloat.float) (rounding : string)
    (rand : nat -> Z) (method : string) (fuel : nat) (total : Z) (res : Result) :
  simulate B r p rounding rand method fuel total = Done res ->
  0 <= high_count B r (res_size_counts res) <= res_final_blocks res /\
  (2 <= B -> B <= r -> r <= total ->
   high_count B r (res_size_counts res) = res_final_blocks res).
Proof.
  intros H.
  destruct (simulate_inv _ _ _ _ _ _ _ _ _ H) as [Hr [st [Hrun Hfin]]].
  destruct (finish_inv _ _ _ _ _ _ _ Hfin) as [_ [_ [Hsc [Hfb _]]]].
  rewrite Hsc, Hfb.
  destruct (run_batches_population _ _ _ _ _ _ _ _ _ Hrun) as
    [_ [_ [[_ Hpos] _]]].
  split; [now apply high_count_le_blocks |].
  intros HB HrB Htotal. apply high_count_all.
  destruct (run_batches_capacity _ _ _ _ _ _ _ _ _ HB Hr Hrun) as [_ Hkeys].
  assert (Hk : Z.to_nat (total / r) <> O).
  { assert (1 <= total / r) by (apply Z.div_le_lower_bound; lia). lia. }
  specialize (Hkeys Hk). unfold keys_all in *.
  eapply Forall_impl; [| exact Hkeys]. simpl. intros sc Hsc'. lia.
Qed.

Lemma high_blocks_witness :
  exists res,
    simulate 4 5 PyFloat.half "floor" rand_lcg "deferred" 9 20 = Done res /\
    0 <= high_count 4 5 (res_size_counts res) <= res_final_blocks res /\
    (2 <= 4 -> 4 <= 5 -> 5 <= 20 ->
     high_count 4 5 (res_size_counts res) = res_final_blocks res).
Proof.
  eexists. split; [vm_compute; reflexivity |].
  apply (high_blocks 4 5 PyFloat.half "floor" rand_lcg "deferred" 9 20).
  vm_compute. reflexivity.
Defined.

(** ** A batch that fits *)

(** X11: what one batch does to the sampled block, for [B >= 2], [r >= 1]
    and an occupancy in [0, B), under every policy.  The blocks returned
    hold exactly [old_size + r] elements and each holds between 1 and
    [B - 1]; a batch that fits ([old_size + r < B]) gives the single block
    [old_size + r] and no split, whatever the offset; a batch that does not
    fit gives at least two blocks. *)
Theorem batch_outcome (B r : Z) (p : PyFloat.float) (rounding method : string)
    (fuel : nat) (old_size insert_pos : Z) (new_blocks : list Z) (num_splits : Z) :
  2 <= B -> 1 <= r -> 0 <= old_size < B ->
  insert_batch B r p rounding method fuel old_size insert_pos =
    Done (new_blocks, num_splits) ->
  list_sum new_blocks = old_size + r /\
  Forall (fun s => 1 <= s <= B - 1) new_blocks /\
  (old_size + r < B -> new_blocks = [old_size + r] /\ num_splits = 0) /\
  (B <= old_size + r -> (2 <= List.length new_blocks)%nat).
Proof.
  intros HB Hr Hold H.
  pose proof (insert_batch_sum _ _ _ _ _ _ _ _ _ _ H) as Hsum.
  pose proof (insert_batch_within _ _ _ _ _ _ _ _ _ _ HB Hr Hold H) as Hin.
  split; [assumption |]. split; [assumption |]. split.
  - intros Hfit. unfold insert_batch in H.
    assert (Hf : forall choose,
               fill_loop B choose fuel old_size insert_pos r [] 0 =
                 Done (new_blocks, num_splits) ->
               new_blocks = [old_size + r] /\ num_splits = 0).
    { intros choose Hc. destruct fuel as [| fuel']; [discriminate |].
      cbn [fill_loop] in Hc. cbv zeta in Hc.
      destruct (Z.ltb_spec r (B - old_size)); [| lia].
      injection Hc as <- <-. split; reflexivity. }
    destruct (String.eqb method "deferred").
    { unfold insert_deferred in H.
      destruct (Z.ltb_spec (old_size + r) B); [| lia].
      injection H as <- <-. split; reflexivity. }
    destruct (String.eqb method "adaptive"); [now apply Hf in H |].
    destruct (String.eqb method "adaptive2"); [now apply Hf in H |].
    destruct (String.eqb method "immediately"); [now apply Hf in H |].
    discriminate.
  - intros Hover.
    destruct new_blocks as [| x [| y l]]; cbn [List.length]; [| | lia].
    + unfold list_sum in Hsum. simpl in Hsum. lia.
    + apply Forall_cons_iff in Hin. destruct Hin as [Hx _].
      unfold list_sum in Hsum. simpl in Hsum. lia.
Qed.

Lemma batch_outcome_witness :
  exists new_blocks num_splits,
    insert_batch 10 7 PyFloat.three_tenths "floor" "adaptive" 17 8 3 =
      Done (new_blocks, num_splits) /\
    list_sum new_blocks = 8 + 7 /\
    Forall (fun s => 1 <= s <= 10 - 1) new_blocks /\
    (8 + 7 < 10 -> new_blocks = [8 + 7] /\ num_splits = 0) /\
    (10 <= 8 + 7 -> (2 <= List.length new_blocks)%nat).
Proof.
  eexists. eexists. split; [vm_compute; reflexivity |].
  apply (batch_outcome 10 7 PyFloat.three_tenths "floor" "adaptive" 17 8 3);
    try lia.
  vm_compute. reflexivity.
Defined.

(** * The task runner *)

(** ** List indexing *)

Lemma py_index_nth {A : Type} (l : list A) (i : Z) (d : A) :
  0 <= i < Z.of_nat (List.length l) ->
  py_index l i = Done (nth (Z.to_nat i) l d).
Proof.
  intros Hi. unfold py_index.
  destruct (Z.ltb_spec i 0); [lia |].
  destruct (Z.ltb_spec i 0); [lia |].
  destruct (Z.leb_spec (Z.of_nat (List.length l)) i); [lia |].
  cbn [orb].
  destruct (nth_error l (Z.to_nat i)) as [x |] eqn:E.
  - now rewrite (nth_error_nth _ _ d E).
  - apply nth_error_None in E. lia.
Qed.

Lemma py_index_wraps {A : Type} (l : list A) (i : Z) :
  - Z.of_nat (List.length l) <= i < 0 ->
  py_index l i = py_index l (i + Z.of_nat (List.length l)).
Proof.
  intros Hi.
  assert (E1 : (i <? 0) = true) by (apply Z.ltb_lt; lia).
  assert (E2 : (i + Z.of_nat (List.length l) <? 0) = false) by (apply Z.ltb_ge; lia).
  unfold py_index. cbv zeta. rewrite E1, E2. cbv iota. rewrite E2. reflexivity.
Qed.

Lemma py_index_out_of_range {A : Type} (l : list A) (i : Z) :
  i < - Z.of_nat (List.length l) \/ Z.of_nat (List.length l) <= i ->
  py_index l i = Raised IndexError.
Proof.
  intros Hi. unfold py_index.
  destruct (Z.ltb_spec i 0).
  - destruct (Z.ltb_spec (i + Z.of_nat (List.length l)) 0); [reflexivity | lia].
  - destruct (Z.ltb_spec i 0); [lia |].
    destruct (Z.leb_spec (Z.of_nat (List.length l)) i); [reflexivity | lia].
Qed.

Lemma py_index_In {A : Type} (l : list A) (i : Z) (x : A) :
  py_index l i = Done x -> In x l.
Proof.
  unfold py_index.
  destruct ((_ <? 0) || _); [discriminate |].
  destruct (nth_error l _) as [y |] eqn:E; [| discriminate].
  intros H. injection H as <-. eapply nth_error_In; eauto.
Qed.

(** ** The loop over the values of a task *)

Lemma for_each_Forall2 {A R : Type} (body : A -> outcome R) (l : list A) :
  forall ys, for_each body l = Done ys ->
             Forall2 (fun x y => body x = Done y) l ys.
Proof.
  induction l as [| x l IH]; intros ys H.
  - injection H as <-. constructor.
  - cbn [for_each] in H. bind_inv H. bind_inv H. injection H as <-.
    constructor; [assumption | now apply IH].
Qed.

(** ** Decoding a task id *)

Section RunnerProperties.

Variable rng : Z -> Z -> nat -> Z.
Variable fuel : nat.
Variable config : Config.

Lemma run_task_batch_by_r_decoded task_id :
  0 < n_r config -> 0 <= task_id < n_seeds config * n_r config ->
  run_task_batch_by_r rng fuel task_id config =
  rows_by_r rng fuel config task_id
    (nth (Z.to_nat (task_id / n_r config)) (cfg_seeds config) 0)
    (nth (Z.to_nat (task_id mod n_r config)) (cfg_r_list config) 0).
Proof.
  intros Hnr Ht. unfold run_task_batch_by_r, py_floordiv, py_mod.
  fold (n_r config) (n_seeds config).
  destruct (Z.eqb_spec (n_r config) 0); [lia |]. cbn [bind].
  assert (Hs : 0 <= task_id / n_r config < n_seeds config).
  { split; [apply Z.div_pos; lia | apply Z.div_lt_upper_bound; lia]. }
  pose proof (Z.mod_pos_bound task_id (n_r config) Hnr) as Hm.
  destruct (Z.geb_spec (task_id / n_r config) (n_seeds config)); [lia |].
  rewrite (py_index_nth _ _ 0) by (fold (n_seeds config); lia). cbn [bind].
  rewrite (py_index_nth _ _ 0) by (fold (n_r config); lia). reflexivity.
Qed.

Lemma run_task_batch_by_r_out_of_range task_id :
  0 < n_r config -> n_seeds config * n_r config <= task_id ->
  run_task_batch_by_r rng fuel task_id config = Raised ValueError.
Proof.
  intros Hnr Ht. unfold run_task_batch_by_r, py_floordiv, py_mod.
  fold (n_r config) (n_seeds config).
  destruct (Z.eqb_spec (n_r config) 0); [lia |]. cbn [bind].
  assert (Hs : n_seeds config <= task_id / n_r config).
  { apply Z.div_le_lower_bound; lia. }
  destruct (Z.geb_spec (task_id / n_r config) (n_seeds config));
    [reflexivity | lia].
Qed.

Lemma run_task_batch_by_p_decoded task_id :
  0 < n_p config -> 0 <= task_id < n_seeds config * n_p config ->
  run_task_batch_by_p rng fuel task_id config =
  rows_by_p rng fuel config task_id
    (nth (Z.to_nat (task_id / n_p config)) (cfg_seeds config) 0)
    (nth (Z.to_nat (task_id mod n_p config)) (cfg_p_list config) PyFloat.zero).
Proof.
  intros Hnp Ht. unfold run_task_batch_by_p, py_floordiv, py_mod.
  fold (n_p config) (n_seeds config).
  destruct (Z.eqb_spec (n_p config) 0); [lia |]. cbn [bind].
  assert (Hs : 0 <= task_id / n_p config < n_seeds config).
  { split; [apply Z.div_pos; lia | apply Z.div_lt_upper_bound; lia]. }
  pose proof (Z.mod_pos_bound task_id (n_p config) Hnp) as Hm.
  destruct (Z.geb_spec (task_id / n_p config) (n_seeds config)); [lia |].
  rewrite (py_index_nth _ _ 0) by (fold (n_seeds config); lia). cbn [bind].
  rewrite (py_index_nth _ _ PyFloat.zero) by (fold (n_p config); lia).
  reflexivity.
Qed.

Lemma run_task_batch_by_p_out_of_range task_id :
  0 < n_p config -> n_seeds config * n_p config <= task_id ->
  run_task_batch_by_p rng fuel task_id config = Raised ValueError.
Proof.
  intros Hnp Ht. unfold run_task_batch_by_p, py_floordiv, py_mod.
  fold (n_p config) (n_seeds config).
  destruct (Z.eqb_spec (n_p config) 0); [lia |]. cbn [bind].
  assert (Hs : n_seeds config <= task_id / n_p config).
  { apply Z.div_le_lower_bound; lia. }
  destruct (Z.geb_spec (task_id / n_p config) (n_seeds config));
    [reflexivity | lia].
Qed.

Lemma run_task_single_combination_decoded task_id :
  0 < n_r config -> 0 < n_p config ->
  0 <= task_id < n_seeds config * n_r config * n_p config ->
  let remainder := task_id mod (n_r config * n_p config) in
  run_task_single_combination rng fuel task_id config =
  single_row rng fuel config task_id
    (nth (Z.to_nat (task_id / (n_r config * n_p config))) (cfg_seeds config) 0)
    (nth (Z.to_nat (remainder / n_p config)) (cfg_r_list config) 0)
    (nth (Z.to_nat (remainder mod n_p config)) (cfg_p_list config) PyFloat.zero).
Proof.
  intros Hnr Hnp Ht remainder. subst remainder.
  unfold run_task_single_combination, py_floordiv, py_mod.
  fold (n_r config) (n_p config) (n_seeds config).
  assert (Hrp : 0 < n_r config * n_p config) by nia.
  destruct (Z.eqb_spec (n_r config * n_p config) 0); [lia |]. cbn [bind].
  destruct (Z.eqb_spec (n_p config) 0); [lia |]. cbn [bind].
  assert (Hs : 0 <= task_id / (n_r config * n_p config) < n_seeds config).
  { split; [apply Z.div_pos; lia | apply Z.div_lt_upper_bound; nia]. }
  pose proof (Z.mod_pos_bound task_id (n_r config * n_p config) Hrp) as Hm.
  assert (Hri : 0 <= task_id mod (n_r config * n_p config) / n_p config
                  < n_r config).
  { split; [apply Z.div_pos; lia | apply Z.div_lt_upper_bound; nia]. }
  pose proof (Z.mod_pos_bound (task_id mod (n_r config * n_p config))
                (n_p config) Hnp) as Hpi.
  destruct (Z.geb_spec (task_id / (n_r config * n_p config)) (n_seeds config));
    [lia |].
  rewrite (py_index_nth _ _ 0) by (fold (n_seeds config); lia). cbn [bind].
  rewrite (py_index_nth _ _ 0) by (fold (n_r config); lia). cbn [bind].
  rewrite (py_index_nth _ _ PyFloat.zero) by (fold (n_p config); lia).
  reflexivity.
Qed.

Lemma run_task_single_combination_out_of_range task_id :
  0 < n_r config -> 0 < n_p config ->
  n_seeds config * n_r config * n_p config <= task_id ->
  run_task_single_combination rng fuel task_id config = Raised ValueError.
Proof.
  intros Hnr Hnp Ht. unfold run_task_single_combination, py_floordiv, py_mod.
  fold (n_r config) (n_p config) (n_seeds config).
  assert (Hrp : 0 < n_r config * n_p config) by nia.
  destruct (Z.eqb_spec (n_r config * n_p config) 0); [lia |]. cbn [bind].
  destruct (Z.eqb_spec (n_p config) 0); [lia |]. cbn [bind].
  assert (Hs : n_seeds config <= task_id / (n_r config * n_p config)).
  { apply Z.div_le_lower_bound; nia. }
  destruct (Z.geb_spec (task_id / (n_r config * n_p config)) (n_seeds config));
    [reflexivity | lia].
Qed.

End RunnerProperties.

(** ** Task ids and the combinations they run *)

Lemma decode_pair (n i j : Z) :
  0 <= j < n -> (i * n + j) / n = i /\ (i * n + j) mod n = j.
Proof.
  intros Hj. split.
  - rewrite Z.div_add_l by lia. rewrite Z.div_small by lia. lia.
  - rewrite Z.add_comm, Z.mod_add by lia. apply Z.mod_small. lia.
Qed.

(** X12: task ids in [batch_by_r] mode.  With a non-empty [r_list], every
    pair of a seed position and an [r] position is run by the task id
    [seed_idx * len(r_list) + r_idx], which lies in
    [0, total_tasks) for the [total_tasks] that [generate_config] announces;
    every id in that range is of this form; and every id from [total_tasks]
    on is refused with [ValueError]. *)
Theorem batch_by_r_task_ids (rng : Z -> Z -> nat -> Z) (fuel : nat) (config : Config)
    (batch_by_p : bool) :
  0 < n_r config ->
  let total := total_tasks true batch_by_p (cfg_seeds config) (cfg_r_list config)
                 (cfg_p_list config) in
  (forall seed_idx r_idx,
     0 <= seed_idx < n_seeds config -> 0 <= r_idx < n_r config ->
     let task_id := seed_idx * n_r config + r_idx in
     0 <= task_id < total /\
     run_task_batch_by_r rng fuel task_id config =
       rows_by_r rng fuel config task_id
         (nth (Z.to_nat seed_idx) (cfg_seeds config) 0)
         (nth (Z.to_nat r_idx) (cfg_r_list config) 0)) /\
  (forall task_id,
     0 <= task_id < total ->
     exists seed_idx r_idx,
       0 <= seed_idx < n_seeds config /\ 0 <= r_idx < n_r config /\
       task_id = seed_idx * n_r config + r_idx) /\
  (forall task_id,
     total <= task_id ->
     run_task_batch_by_r rng fuel task_id config = Raised ValueError).
Proof.
  intros Hnr total.
  assert (Etotal : total = n_seeds config * n_r config) by reflexivity.
  split; [| split].
  - intros seed_idx r_idx Hs Hr task_id. subst task_id.
    assert (Ht : 0 <= seed_idx * n_r config + r_idx < n_seeds config * n_r config)
      by nia.
    split; [lia |].
    rewrite run_task_batch_by_r_decoded by assumption.
    destruct (decode_pair (n_r config) seed_idx r_idx Hr) as [-> ->]. reflexivity.
  - intros task_id Ht. exists (task_id / n_r config), (task_id mod n_r config).
    split; [split; [apply Z.div_pos; lia | apply Z.div_lt_upper_bound; lia] |].
    split; [apply Z.mod_pos_bound; lia |].
    rewrite (Z.div_mod task_id (n_r config)) at 1 by lia. lia.
  - intros task_id Ht. apply run_task_batch_by_r_out_of_range; lia.
Qed.

Lemma batch_by_r_task_ids_witness :
  let total := total_tasks true false (cfg_seeds example_config)
                 (cfg_r_list example_config) (cfg_p_list example_config) in
  total = 6 /\
  (forall seed_idx r_idx,
     0 <= seed_idx < n_seeds example_config -> 0 <= r_idx < n_r example_config ->
     let task_id := seed_idx * n_r example_config + r_idx in
     0 <= task_id < total /\
     run_task_batch_by_r example_rng 17 task_id example_config =
       rows_by_r example_rng 17 example_config task_id
         (nth (Z.to_nat seed_idx) (cfg_seeds example_config) 0)
         (nth (Z.to_nat r_idx) (cfg_r_list example_config) 0)) /\
  (forall task_id,
     0 <= task_id < total ->
     exists seed_idx r_idx,
       0 <= seed_idx < n_seeds example_config /\ 0 <= r_idx < n_r example_config /\
       task_id = seed_idx * n_r example_config + r_idx) /\
  (forall task_id,
     total <= task_id ->
     run_task_batch_by_r example_rng 17 task_id example_config = Raised ValueError).
Proof.
  split; [reflexivity |].
  apply (batch_by_r_task_ids example_rng 17 example_config false).
  vm_compute. reflexivity.
Defined.

(** X13: task ids in [batch_by_p] mode.  With a non-empty [p_list], every
    pair of a seed position and a [p] position is run by the task id
    [seed_idx * len(p_list) + p_idx], which lies in [0, total_tasks); every
    id in that range is of this form; and every id from [total_tasks] on is
    refused with [ValueError]. *)
Theorem batch_by_p_task_ids (rng : Z -> Z -> nat -> Z) (fuel : nat) (config : Config) :
  0 < n_p config ->
  let total := total_tasks false true (cfg_seeds config) (cfg_r_list config)
                 (cfg_p_list config) in
  (forall seed_idx p_idx,
     0 <= seed_idx < n_seeds config -> 0 <= p_idx < n_p config ->
     let task_id := seed_idx * n_p config + p_idx in
     0 <= task_id < total /\
     run_task_batch_by_p rng fuel task_id config =
       rows_by_p rng fuel config task_id
         (nth (Z.to_nat seed_idx) (cfg_seeds config) 0)
         (nth (Z.to_nat p_idx) (cfg_p_list config) PyFloat.zero)) /\
  (forall task_id,
     0 <= task_id < total ->
     exists seed_idx p_idx,
       0 <= seed_idx < n_seeds config /\ 0 <= p_idx < n_p config /\
       task_id = seed_idx * n_p config + p_idx) /\
  (forall task_id,
     total <= task_id ->
     run_task_batch_by_p rng fuel task_id config = Raised ValueError).
Proof.
  intros Hnp total.
  assert (Etotal : total = n_seeds config * n_p config) by reflexivity.
  split; [| split].
  - intros seed_idx p_idx Hs Hp task_id. subst task_id.
    assert (Ht : 0 <= seed_idx * n_p config + p_idx < n_seeds config * n_p config)
      by nia.
    split; [lia |].
    rewrite run_task_batch_by_p_decoded by assumption.
    destruct (decode_pair (n_p config) seed_idx p_idx Hp) as [-> ->]. reflexivity.
  - intros task_id Ht. exists (task_id / n_p config), (task_id mod n_p config).
    split; [split; [apply Z.div_pos; lia | apply Z.div_lt_upper_bound; lia] |].
    split; [apply Z.mod_pos_bound; lia |].
    rewrite (Z.div_mod task_id (n_p config)) at 1 by lia. lia.
  - intros task_id Ht. apply run_task_batch_by_p_out_of_range; lia.
Qed.

Lemma batch_by_p_task_ids_witness :
  let total := total_tasks false true (cfg_seeds example_config)
                 (cfg_r_list example_config) (cfg_p_list example_config) in
  total = 6 /\
  (forall seed_idx p_idx,
     0 <= seed_idx < n_seeds example_config -> 0 <= p_idx < n_p example_config ->
     let task_id := seed_idx * n_p example_config + p_idx in
     0 <= task_id < total /\
     run_task_batch_by_p example_rng 17 task_id example_config =
       rows_by_p example_rng 17 example_config task_id
         (nth (Z.to_nat seed_idx) (cfg_seeds example_config) 0)
         (nth (Z.to_nat p_idx) (cfg_p_list example_config) PyFloat.zero)) /\
  (forall task_id,
     0 <= task_id < total ->
     exists seed_idx p_idx,
       0 <= seed_idx < n_seeds example_config /\ 0 <= p_idx < n_p example_config /\
       task_id = seed_idx * n_p example_config + p_idx) /\
  (forall task_id,
     total <= task_id ->
     run_task_batch_by_p example_rng 17 task_id example_config = Raised ValueError).
Proof.
  split; [reflexivity |].
  apply (batch_by_p_task_ids example_rng 17 example_config).
  vm_compute. reflexivity.
Defined.

(** X14: task ids of [run_task_single_combination].  With non-empty
    [r_list] and [p_list], every triple of positions is run by the task id
    [(seed_idx * len(r_list) + r_idx) * len(p_list) + p_idx], which lies in
    [0, total_tasks); every id in that range is of this form; and every id
    from [total_tasks] on is refused with [ValueError]. *)
Theorem single_combination_task_ids (rng : Z -> Z -> nat -> Z) (fuel : nat)
    (config : Config) :
  0 < n_r config -> 0 < n_p config ->
  let total := total_tasks false false (cfg_seeds config) (cfg_r_list config)
                 (cfg_p_list config) in
  (forall seed_idx r_idx p_idx,
     0 <= seed_idx < n_seeds config -> 0 <= r_idx < n_r config ->
     0 <= p_idx < n_p config ->
     let task_id := (seed_idx * n_r config + r_idx) * n_p config + p_idx in
     0 <= task_id < total /\
     run_task_single_combination rng fuel task_id config =
       single_row rng fuel config task_id
         (nth (Z.to_nat seed_idx) (cfg_seeds config) 0)
         (nth (Z.to_nat r_idx) (cfg_r_list config) 0)
         (nth (Z.to_nat p_idx) (cfg_p_list config) PyFloat.zero)) /\
  (forall task_id,
     0 <= task_id < total ->
     exists seed_idx r_idx p_idx,
       0 <= seed_idx < n_seeds config /\ 0 <= r_idx < n_r config /\
       0 <= p_idx < n_p config /\
       task_id = (seed_idx * n_r config + r_idx) * n_p config + p_idx) /\
  (forall task_id,
     total <= task_id ->
     run_task_single_combination rng fuel task_id config = Raised ValueError).
Proof.
  intros Hnr Hnp total.
  assert (Etotal : total = n_seeds config * n_r config * n_p config) by reflexivity.
  assert (Hrp : 0 < n_r config * n_p config) by nia.
  split; [| split].
  - intros seed_idx r_idx p_idx Hs Hr Hp task_id.
    assert (Ht : 0 <= task_id < n_seeds config * n_r config * n_p config)
      by (subst task_id; nia).
    split; [lia |].
    rewrite run_task_single_combination_decoded by assumption. cbv zeta.
    assert (Erem : 0 <= r_idx * n_p config + p_idx < n_r config * n_p config) by nia.
    assert (Eid : task_id = seed_idx * (n_r config * n_p config)
                            + (r_idx * n_p config + p_idx)) by (subst task_id; ring).
    destruct (decode_pair (n_r config * n_p config) seed_idx
                (r_idx * n_p config + p_idx) Erem) as [E1 E2].
    rewrite <- Eid in E1, E2. rewrite E1, E2.
    destruct (decode_pair (n_p config) r_idx p_idx Hp) as [-> ->]. reflexivity.
  - intros task_id Ht.
    exists (task_id / (n_r config * n_p config)),
           (task_id mod (n_r config * n_p config) / n_p config),
           (task_id mod (n_r config * n_p config) mod n_p config).
    pose proof (Z.mod_pos_bound task_id (n_r config * n_p config) Hrp) as Hm.
    split; [split; [apply Z.div_pos; lia | apply Z.div_lt_upper_bound; nia] |].
    split; [split; [apply Z.div_pos; lia | apply Z.div_lt_upper_bound; nia] |].
    split; [apply Z.mod_pos_bound; lia |].
    pose proof (Z.div_mod task_id (n_r config * n_p config) ltac:(lia)) as E1.
    pose proof (Z.div_mod (task_id mod (n_r config * n_p config)) (n_p config)
                  ltac:(lia)) as E2.
    nia.
  - intros task_id Ht. apply run_task_single_combination_out_of_range; lia.
Qed.

Lemma single_combination_task_ids_witness :
  let total := total_tasks false false (cfg_seeds example_config)
                 (cfg_r_list example_config) (cfg_p_list example_config) in
  total = 12 /\
  (forall seed_idx r_idx p_idx,
     0 <= seed_idx < n_seeds example_config -> 0 <= r_idx < n_r example_config ->
     0 <= p_idx < n_p example_config ->
     let task_id := (seed_idx * n_r example_config + r_idx) * n_p example_config
                    + p_idx in
     0 <= task_id < total /\
     run_task_single_combination example_rng 17 task_id example_config =
       single_row example_rng 17 example_config task_id
         (nth (Z.to_nat seed_idx) (cfg_seeds example_config) 0)
         (nth (Z.to_nat r_idx) (cfg_r_list example_config) 0)
         (nth (Z.to_nat p_idx) (cfg_p_list example_config) PyFloat.zero)) /\
  (forall task_id,
     0 <= task_id < total ->
     exists seed_idx r_idx p_idx,
       0 <= seed_idx < n_seeds example_config /\ 0 <= r_idx < n_r example_config /\
       0 <= p_idx < n_p example_config /\
       task_id = (seed_idx * n_r example_config + r_idx) * n_p example_config
                 + p_idx) /\
  (forall task_id,
     total <= task_id ->
     run_task_single_combination example_rng 17 task_id example_config =
       Raised ValueError).
Proof.
  split; [reflexivity |].
  apply (single_combination_task_ids example_rng 17 example_config).
  - vm_compute. reflexivity.
  - vm_compute. reflexivity.
Defined.

(** ** The rows of a batch task *)

Lemma Forall2_length_eq {A C : Type} (P : A -> C -> Prop) l1 l2 :
  Forall2 P l1 l2 -> List.length l1 = List.length l2.
Proof. induction 1; cbn [List.length]; congruence. Qed.

(** X15: the rows of a [batch_by_r] task that returns.  There is one row
    per entry of [p_list], in the order of [p_list]; all rows carry the task
    id, [B], one seed of [seeds], one [r] of [r_list] and [alpha = r / B];
    and each row holds [final_fullness] and [time_avg_fullness] of the
    [simulate] call with that seed, that [r], the row's [p] and the scaled
    number of insertions. *)
Theorem batch_by_r_rows (rng : Z -> Z -> nat -> Z) (fuel : nat) (config : Config)
    (task_id : Z) (rows : list Row) :
  run_task_batch_by_r rng fuel task_id config = Done rows ->
  exists sd r total_ins alpha,
    In sd (cfg_seeds config) /\ In r (cfg_r_list config) /\
    scaled_insertions config r = Done total_ins /\
    PyFloat.int_true_div r (cfg_B config) = Done alpha /\
    List.length rows = List.length (cfg_p_list config) /\
    map row_p rows = cfg_p_list config /\
    Forall2
      (fun p_val row =>
         exists result,
           simulate (cfg_B config) r p_val
             (dict_get (cfg_rounding config) "floor"%string) (rng sd r)
             (cfg_method config) fuel total_ins = Done result /\
           row = mkRow task_id (cfg_B config) r alpha p_val sd
                   (res_final_fullness result) (res_time_avg_fullness result))
      (cfg_p_list config) rows.
Proof.
  unfold run_task_batch_by_r. intros H.
  apply bind_Done in H. destruct H as [seed_idx [_ H]].
  apply bind_Done in H. destruct H as [r_idx [_ H]].
  destruct (seed_idx >=? Z.of_nat (List.length (cfg_seeds config)));
    [discriminate |].
  apply bind_Done in H. destruct H as [sd [Hsd H]].
  apply bind_Done in H. destruct H as [r [Hr H]].
  unfold rows_by_r in H.
  apply bind_Done in H. destruct H as [total_ins [Hins H]].
  apply bind_Done in H. destruct H as [alpha [Halpha H]].
  apply for_each_Forall2 in H.
  exists sd, r, total_ins, alpha.
  split; [eapply py_index_In; eassumption |].
  split; [eapply py_index_In; eassumption |].
  split; [assumption |]. split; [assumption |].
  assert (HF : Forall2
            (fun p_val row =>
               exists result,
                 simulate (cfg_B config) r p_val
                   (dict_get (cfg_rounding config) "floor"%string) (rng sd r)
                   (cfg_method config) fuel total_ins = Done result /\
                 row = mkRow task_id (cfg_B config) r alpha p_val sd
                         (res_final_fullness result) (res_time_avg_fullness result))
            (cfg_p_list config) rows).
  { eapply Forall2_impl; [| exact H]. cbv beta. intros p_val row Hrow.
    apply bind_Done in Hrow. destruct Hrow as [result [Hres Hrow]].
    injection Hrow as <-. exists result. split; [exact Hres | reflexivity]. }
  split; [symmetry; eapply Forall2_length_eq; exact HF |].
  split; [| exact HF].
  clear - HF. induction HF as [| p_val row ps rs [res [_ ->]] _ IH]; [reflexivity |].
  cbn [map row_p]. now rewrite IH.
Qed.

Lemma batch_by_r_rows_witness :
  exists rows,
    run_task_batch_by_r example_rng 17 3 example_config = Done rows /\
    exists sd r total_ins alpha,
      In sd (cfg_seeds example_config) /\ In r (cfg_r_list example_config) /\
      scaled_insertions example_config r = Done total_ins /\
      PyFloat.int_true_div r (cfg_B example_config) = Done alpha /\
      List.length rows = List.length (cfg_p_list example_config) /\
      map row_p rows = cfg_p_list example_config /\
      Forall2
        (fun p_val row =>
           exists result,
             simulate (cfg_B example_config) r p_val
               (dict_get (cfg_rounding example_config) "floor"%string)
               (example_rng sd r) (cfg_method example_config) 17 total_ins =
               Done result /\
             row = mkRow 3 (cfg_B example_config) r alpha p_val sd
                     (res_final_fullness result) (res_time_avg_fullness result))
        (cfg_p_list example_config) rows.
Proof.
  eexists. split; [vm_compute; reflexivity |].
  apply (batch_by_r_rows example_rng 17 example_config 3).
  vm_compute. reflexivity.
Defined.

(** X16: the rows of a [batch_by_p] task that returns.  There is one row
    per entry of [r_list], in the order of [r_list]; all rows carry the task
    id, [B], one seed of [seeds] and one [p] of [p_list]; and each row holds
    [alpha = r / B] and the two fullness figures of the [simulate] call with
    that seed, that [p], the row's [r] and the number of insertions scaled
    for that [r].  Every call reseeds the generator and draws over the
    ranges of its own [r]: the rows of different [r] come from different
    streams of draws. *)
Theorem batch_by_p_rows (rng : Z -> Z -> nat -> Z) (fuel : nat) (config : Config)
    (task_id : Z) (rows : list Row) :
  run_task_batch_by_p rng fuel task_id config = Done rows ->
  exists sd p_val,
    In sd (cfg_seeds config) /\ In p_val (cfg_p_list config) /\
    List.length rows = List.length (cfg_r_list config) /\
    map row_r rows = cfg_r_list config /\
    Forall2
      (fun r row =>
         exists total_ins alpha result,
           scaled_insertions config r = Done total_ins /\
           PyFloat.int_true_div r (cfg_B config) = Done alpha /\
           simulate (cfg_B config) r p_val
             (dict_get (cfg_rounding config) "floor"%string) (rng sd r)
             (cfg_method config) fuel total_ins = Done result /\
           row = mkRow task_id (cfg_B config) r alpha p_val sd
                   (res_final_fullness result) (res_time_avg_fullness result))
      (cfg_r_list config) rows.
Proof.
  unfold run_task_batch_by_p. intros H.
  apply bind_Done in H. destruct H as [seed_idx [_ H]].
  apply bind_Done in H. destruct H as [p_idx [_ H]].
  destruct (seed_idx >=? Z.of_nat (List.length (cfg_seeds config)));
    [discriminate |].
  apply bind_Done in H. destruct H as [sd [Hsd H]].
  apply bind_Done in H. destruct H as [p_val [Hp H]].
  unfold rows_by_p in H.
  apply for_each_Forall2 in H.
  exists sd, p_val.
  split; [eapply py_index_In; eassumption |].
  split; [eapply py_index_In; eassumption |].
  assert (HF : Forall2
            (fun r row =>
               exists total_ins alpha result,
                 scaled_insertions config r = Done total_ins /\
                 PyFloat.int_true_div r (cfg_B config) = Done alpha /\
                 simulate (cfg_B config) r p_val
                   (dict_get (cfg_rounding config) "floor"%string) (rng sd r)
                   (cfg_method config) fuel total_ins = Done result /\
                 row = mkRow task_id (cfg_B config) r alpha p_val sd
                         (res_final_fullness result) (res_time_avg_fullness result))
            (cfg_r_list config) rows).
  { eapply Forall2_impl; [| exact H]. cbv beta. intros r row Hrow.
    apply bind_Done in Hrow. destruct Hrow as [total_ins [Hins Hrow]].
    apply bind_Done in Hrow. destruct Hrow as [alpha [Halpha Hrow]].
    apply bind_Done in Hrow. destruct Hrow as [result [Hres Hrow]].
    injection Hrow as <-. exists total_ins, alpha, result. auto. }
  split; [symmetry; eapply Forall2_length_eq; exact HF |].
  split; [| exact HF].
  clear - HF.
  induction HF as [| r row rs rws [ti [al [res [_ [_ [_ ->]]]]]] _ IH];
    [reflexivity |].
  cbn [map row_r]. now rewrite IH.
Qed.

Lemma batch_by_p_rows_witness :
  exists rows,
    run_task_batch_by_p example_rng 17 3 example_config = Done rows /\
    exists sd p_val,
      In sd (cfg_seeds example_config) /\ In p_val (cfg_p_list example_config) /\
      List.length rows = List.length (cfg_r_list example_config) /\
      map row_r rows = cfg_r_list example_config /\
      Forall2
        (fun r row =>
           exists total_ins alpha result,
             scaled_insertions example_config r = Done total_ins /\
             PyFloat.int_true_div r (cfg_B example_config) = Done alpha /\
             simulate (cfg_B example_config) r p_val
               (dict_get (cfg_rounding example_config) "floor"%string)
               (example_rng sd r) (cfg_method example_config) 17 total_ins =
               Done result /\
             row = mkRow 3 (cfg_B example_config) r alpha p_val sd
                     (res_final_fullness result) (res_time_avg_fullness result))
        (cfg_r_list example_config) rows.
Proof.
  eexists. split; [vm_compute; reflexivity |].
  apply (batch_by_p_rows example_rng 17 example_config 3).
  vm_compute. reflexivity.
Defined.

(** ** Choosing the task function *)

(** X17: which task function runs.  The [config] command turns its two
    flags into [batch_by_r = True] when neither is given; with the flags it
    passes on, [run_single_task] runs [run_task_batch_by_r] unless only
    [--batch_by_p] was given, in which case it runs [run_task_batch_by_p];
    it never runs [run_task_single_combination]; and the [total_tasks]
    announced is the number of seeds times the length of the list that the
    chosen function decodes. *)
Theorem cli_never_single_combination (rng : Z -> Z -> nat -> Z) (fuel : nat)
    (config : Config) (flag_r flag_p : bool) (task_id : Z) :
  cfg_batch_by_r config = Some (fst (cli_batch_flags flag_r flag_p)) ->
  cfg_batch_by_p config = Some (snd (cli_batch_flags flag_r flag_p)) ->
  let by_r := flag_r || negb flag_p in
  run_single_task rng fuel task_id config =
    (if by_r
     then rows <- run_task_batch_by_r rng fuel task_id config ;; Done (Rows rows)
     else rows <- run_task_batch_by_p rng fuel task_id config ;; Done (Rows rows)) /\
  (forall row, run_single_task rng fuel task_id config <> Done (OneRow row)) /\
  total_tasks (fst (cli_batch_flags flag_r flag_p))
      (snd (cli_batch_flags flag_r flag_p))
      (cfg_seeds config) (cfg_r_list config) (cfg_p_list config) =
    n_seeds config * (if by_r then n_r config else n_p config).
Proof.
  intros Er Ep by_r.
  assert (E : run_single_task rng fuel task_id config =
              (if by_r
               then rows <- run_task_batch_by_r rng fuel task_id config ;;
                    Done (Rows rows)
               else rows <- run_task_batch_by_p rng fuel task_id config ;;
                    Done (Rows rows))).
  { unfold run_single_task. rewrite Er, Ep. subst by_r.
    destruct flag_r, flag_p; reflexivity. }
  split; [exact E |]. split.
  - intros row. rewrite E.
    destruct by_r;
      [destruct (run_task_batch_by_r rng fuel task_id config)
      | destruct (run_task_batch_by_p rng fuel task_id config)];
      cbn [bind]; discriminate.
  - subst by_r. destruct flag_r, flag_p; reflexivity.
Qed.

Lemma cli_never_single_combination_witness :
  let config :=
    mkConfig 10 "immediately" [3; 7] [PyFloat.three_tenths; PyFloat.half]
      [11; 22; 33] None (Some "linear"%string) (Some 5) None
      (Some true) (Some false) in
  run_single_task example_rng 17 3 config =
    (rows <- run_task_batch_by_r example_rng 17 3 config ;; Done (Rows rows)) /\
  (forall row, run_single_task example_rng 17 3 config <> Done (OneRow row)) /\
  total_tasks true false (cfg_seeds config) (cfg_r_list config) (cfg_p_list config) =
    n_seeds config * n_r config.
Proof.
  intros config.
  exact (cli_never_single_combination example_rng 17 config false false 3
           eq_refl eq_refl).
Defined.

(** ** Task ids outside the array *)

(** X18: negative task ids in [batch_by_r] mode.  The range check only
    looks at the upper end, and a negative seed position counts from the
    end of [seeds]: a task id [t] in [-total_tasks, 0) is not refused and
    runs the seed and [r] of task [t + total_tasks]; a task id below
    [-total_tasks] raises [IndexError]. *)
Theorem batch_by_r_negative_task_id (rng : Z -> Z -> nat -> Z) (fuel : nat)
    (config : Config) (task_id : Z) :
  0 < n_r config ->
  (- (n_seeds config * n_r config) <= task_id < 0 ->
   let sd := nth (Z.to_nat (task_id / n_r config + n_seeds config))
               (cfg_seeds config) 0 in
   let r := nth (Z.to_nat (task_id mod n_r config)) (cfg_r_list config) 0 in
   run_task_batch_by_r rng fuel task_id config =
     rows_by_r rng fuel config task_id sd r /\
   run_task_batch_by_r rng fuel (task_id + n_seeds config * n_r config) config =
     rows_by_r rng fuel config (task_id + n_seeds config * n_r config) sd r) /\
  (task_id < - (n_seeds config * n_r config) ->
   run_task_batch_by_r rng fuel task_id config = Raised IndexError).
Proof.
  intros Hnr.
  pose proof (Z.mod_pos_bound task_id (n_r config) Hnr) as Hm.
  assert (Hns : 0 <= n_seeds config) by (unfold n_seeds; lia).
  split.
  - intros Ht sd r.
    assert (Hs : - n_seeds config <= task_id / n_r config < 0).
    { split; [apply Z.div_le_lower_bound; nia | apply Z.div_lt_upper_bound; lia]. }
    split.
    + unfold run_task_batch_by_r, py_floordiv, py_mod.
      fold (n_r config) (n_seeds config).
      destruct (Z.eqb_spec (n_r config) 0); [lia |]. cbn [bind].
      destruct (Z.geb_spec (task_id / n_r config) (n_seeds config)); [lia |].
      rewrite py_index_wraps by (fold (n_seeds config); lia).
      fold (n_seeds config).
      rewrite (py_index_nth _ _ 0) by (fold (n_seeds config); lia). cbn [bind].
      rewrite (py_index_nth _ _ 0) by (fold (n_r config); lia). reflexivity.
    + rewrite run_task_batch_by_r_decoded by (assumption || nia).
      rewrite Z.div_add, Z.mod_add by lia. reflexivity.
  - intros Ht.
    assert (Hs : task_id / n_r config < - n_seeds config).
    { apply Z.div_lt_upper_bound; nia. }
    unfold run_task_batch_by_r, py_floordiv, py_mod.
    fold (n_r config) (n_seeds config).
    destruct (Z.eqb_spec (n_r config) 0); [lia |]. cbn [bind].
    destruct (Z.geb_spec (task_id / n_r config) (n_seeds config)); [lia |].
    rewrite py_index_out_of_range by (fold (n_seeds config); lia). reflexivity.
Qed.

Lemma batch_by_r_negative_task_id_witness :
  0 < n_r example_config /\
  - (n_seeds example_config * n_r example_config) <= -1 < 0 /\
  run_task_batch_by_r example_rng 17 (-1) example_config =
    rows_by_r example_rng 17 example_config (-1) 33 7 /\
  run_task_batch_by_r example_rng 17 5 example_config =
    rows_by_r example_rng 17 example_config 5 33 7.
Proof.
  split; [vm_compute; reflexivity |].
  split; [vm_compute; split; [discriminate | reflexivity] |].
  apply (proj1 (batch_by_r_negative_task_id example_rng 17 example_config (-1)
                  eq_refl)).
  vm_compute. split; [discriminate | reflexivity].
Defined.

(** ** Empty lists *)

(** X19: empty lists in the configuration.  With an empty [r_list],
    [run_task_batch_by_r] and [run_task_single_combination] raise
    [ZeroDivisionError] for every task id, and a [batch_by_p] task that
    returns has no rows; with an empty [p_list] the same holds with the two
    batch modes exchanged. *)
Theorem empty_lists (rng : Z -> Z -> nat -> Z) (fuel : nat) (config : Config)
    (task_id : Z) :
  (cfg_r_list config = [] ->
   run_task_batch_by_r rng fuel task_id config = Raised ZeroDivisionError /\
   run_task_single_combination rng fuel task_id config = Raised ZeroDivisionError /\
   forall rows, run_task_batch_by_p rng fuel task_id config = Done rows ->
                rows = []) /\
  (cfg_p_list config = [] ->
   run_task_batch_by_p rng fuel task_id config = Raised ZeroDivisionError /\
   run_task_single_combination rng fuel task_id config = Raised ZeroDivisionError /\
   forall rows, run_task_batch_by_r rng fuel task_id config = Done rows ->
                rows = []).
Proof.
  split; intros E.
  - split; [| split].
    + unfold run_task_batch_by_r, py_floordiv. rewrite E. reflexivity.
    + unfold run_task_single_combination, py_floordiv. rewrite E. reflexivity.
    + unfold run_task_batch_by_p. intros rows H.
      apply bind_Done in H. destruct H as [seed_idx [_ H]].
      apply bind_Done in H. destruct H as [p_idx [_ H]].
      destruct (seed_idx >=? Z.of_nat (List.length (cfg_seeds config)));
        [discriminate |].
      apply bind_Done in H. destruct H as [sd [_ H]].
      apply bind_Done in H. destruct H as [p_val [_ H]].
      unfold rows_by_p in H. rewrite E in H. simpl in H. congruence.
  - split; [| split].
    + unfold run_task_batch_by_p, py_floordiv. rewrite E. reflexivity.
    + unfold run_task_single_combination, py_floordiv. rewrite E.
      cbn [List.length Z.of_nat]. rewrite Z.mul_0_r. reflexivity.
    + unfold run_task_batch_by_r. intros rows H.
      apply bind_Done in H. destruct H as [seed_idx [_ H]].
      apply bind_Done in H. destruct H as [r_idx [_ H]].
      destruct (seed_idx >=? Z.of_nat (List.length (cfg_seeds config)));
        [discriminate |].
      apply bind_Done in H. destruct H as [sd [_ H]].
      apply bind_Done in H. destruct H as [r [_ H]].
      unfold rows_by_r in H.
      apply bind_Done in H. destruct H as [total_ins [_ H]].
      apply bind_Done in H. destruct H as [alpha [_ H]].
      rewrite E in H. simpl in H. congruence.
Qed.

Lemma empty_lists_witness :
  let config :=
    mkConfig 10 "immediately" [] [PyFloat.half] [11; 22] None None None None
      None None in
  run_task_batch_by_r example_rng 17 0 config = Raised ZeroDivisionError /\
  run_task_single_combination example_rng 17 0 config = Raised ZeroDivisionError /\
  forall rows, run_task_batch_by_p example_rng 17 0 config = Done rows -> rows = [].
Proof.
  intros config.
  exact (proj1 (empty_lists example_rng 17 config 0) eq_refl).
Defined.

(** ** Linear scaling *)

(** X20: linear scaling.  With [insertion_scale = 'linear'] the number of
    insertions asked of [simulate] is [r * base_insertions]; it is a
    multiple of [r], so the run drops no remainder: its [total_insertions]
    is [r * base_insertions], and so are [stats.inserts] and the number of
    elements in the final histogram when [base_insertions >= 0]. *)
Theorem linear_scale_drops_nothing (rng : Z -> Z -> nat -> Z) (fuel : nat)
    (config : Config) (r sd : Z) (p_val : PyFloat.float) :
  cfg_insertion_scale config = Some "linear"%string ->
  1 <= r ->
  let base_insertions := dict_get (cfg_base_insertions config) 100000 in
  scaled_insertions config r = Done (r * base_insertions) /\
  forall result,
    simulate_task rng fuel config r (r * base_insertions) p_val sd = Done result ->
    res_total_insertions result = r * base_insertions /\
    (0 <= base_insertions ->
     inserts (res_stats result) = r * base_insertions /\
     hist_weight (res_size_counts result) = r * base_insertions).
Proof.
  intros Escale Hr base_insertions. split.
  - unfold scaled_insertions. rewrite Escale. reflexivity.
  - unfold simulate_task. intros result H.
    destruct (simulate_inv _ _ _ _ _ _ _ _ _ H) as [_ [st [Hrun Hfin]]].
    destruct (finish_inv _ _ _ _ _ _ _ Hfin) as [_ [Hstats [Hsc [_ [Hn _]]]]].
    assert (Ediv : r * base_insertions / r = base_insertions).
    { rewrite Z.mul_comm. apply Z.div_mul. lia. }
    rewrite Ediv in *.
    split; [lia |]. intros Hbase.
    destruct (run_batches_population _ _ _ _ _ _ _ _ _ Hrun) as
      [blocks [_ [_ [_ [_ [Hw [Hsum [_ Hins]]]]]]]].
    rewrite Z2Nat.id in * by assumption.
    rewrite Hstats, Hsc. lia.
Qed.

Lemma linear_scale_drops_nothing_witness :
  exists result,
    simulate_task example_rng 17 example_config 7 (7 * 5) PyFloat.half 11 =
      Done result /\
    scaled_insertions example_config 7 = Done (7 * 5) /\
    res_total_insertions result = 7 * 5 /\
    (0 <= 5 ->
     inserts (res_stats result) = 7 * 5 /\
     hist_weight (res_size_counts result) = 7 * 5).
Proof.
  eexists. split; [vm_compute; reflexivity |].
  destruct (linear_scale_drops_nothing example_rng 17 example_config 7 11
              PyFloat.half eq_refl ltac:(lia)) as [Hscaled Hrun].
  split; [exact Hscaled |].
  apply Hrun. vm_compute. reflexivity.
Defined.

(** ** The batch sizes of a sweep *)

Lemma py_range_ascending start stop step :
  0 < step ->
  exists l,
    py_range start stop step = Done l /\
    forall x, In x l <->
              start <= x < stop /\ (x - start) mod step = 0.
Proof.
  intros Hstep. unfold py_range.
  destruct (Z.eqb_spec step 0) as [E0 | N0]; [lia |].
  destruct (Z.ltb_spec 0 step) as [L0 | G0]; [| lia].
  eexists. split; [reflexivity |].
  intros x. rewrite in_map_iff.
  pose proof (Z.div_mod (stop - start + step - 1) step ltac:(lia)) as Hdm.
  pose proof (Z.mod_pos_bound (stop - start + step - 1) step Hstep) as Hmb.
  remember ((stop - start + step - 1) / step) as n eqn:En.
  remember ((stop - start + step - 1) mod step) as m eqn:Em.
  split.
  - intros [i [<- Hi]]. apply in_seq in Hi.
    assert (Hin : Z.of_nat i < n) by lia.
    split; [nia |].
    replace (start + Z.of_nat i * step - start) with (Z.of_nat i * step) by lia.
    apply Z.mod_mul. lia.
  - intros [Hx Hmod].
    apply Z.mod_divide in Hmod; [| lia]. destruct Hmod as [q Hq].
    exists (Z.to_nat q).
    assert (Hq0 : 0 <= q) by nia.
    split; [rewrite Z2Nat.id by assumption; lia |].
    apply in_seq. split; [lia |]. cbn [plus].
    assert (q < n) by nia. lia.
Qed.

(** X21: the default [r_list] of [generate_config],
    [list(range(1, B, 4))].  It holds exactly the [r] with [1 <= r <= B - 1]
    and [r % 4 == 1]; none of them fails the [assert r >= 1] of
    [simulate]. *)
Theorem default_r_list_valid (B : Z) :
  exists r_list,
    default_r_list B = Done r_list /\
    (forall r, In r r_list <-> 1 <= r <= B - 1 /\ r mod 4 = 1) /\
    (forall r, In r r_list ->
       forall p rounding rand method fuel total,
         simulate B r p rounding rand method fuel total <> Raised AssertionError).
Proof.
  destruct (py_range_ascending 1 B 4 ltac:(lia)) as [l [Hl Hin]].
  exists l. split; [exact Hl |].
  assert (Hchar : forall r, In r l <-> 1 <= r <= B - 1 /\ r mod 4 = 1).
  { intros r. rewrite Hin. split; intros [Hr Hm]; (split; [lia |]).
    - rewrite <- (Z.sub_add 1 r) at 1.
      rewrite <- Z.add_mod_idemp_l, Hm by lia. reflexivity.
    - rewrite <- Zminus_mod_idemp_l, Hm. reflexivity. }
  split; [exact Hchar |].
  intros r Hr p rounding rand method fuel total H.
  apply Hchar in Hr. destruct Hr as [Hr _].
  unfold simulate in H. destruct (Z.geb_spec r 1) as [G | G]; [| lia].
  apply bind_Raised in H. destruct H as [H | [st [_ H]]].
  - apply run_batches_raises in H; [| lia]. destruct H; discriminate.
  - apply finish_raises in H; [discriminate | lia].
Qed.

(** X22: the [r_list] of the [config] command,
    [list(range(r_min, r_max + 1, r_step))].  With a positive step it holds
    exactly the [r] from [r_min] to [r_max] inclusive that are a multiple
    of the step away from [r_min], where an [--r_max] that is absent or 0
    stands for [B - 1]; with a step of 0 it raises [ValueError]. *)
Theorem cli_r_list_range (B r_min : Z) (r_max : option Z) (r_step : Z) :
  let last := match r_max with
              | Some 0 | None => B - 1
              | Some m => m
              end in
  (0 < r_step ->
   exists r_list,
     cli_r_list B r_min r_max r_step = Done r_list /\
     forall r, In r r_list <->
               r_min <= r <= last /\ (r - r_min) mod r_step = 0) /\
  (r_step = 0 -> cli_r_list B r_min r_max r_step = Raised ValueError).
Proof.
  intros last.
  assert (E : cli_r_list B r_min r_max r_step = py_range r_min (last + 1) r_step).
  { unfold cli_r_list. subst last. destruct r_max as [[| m | m] |]; reflexivity. }
  rewrite E. split.
  - intros Hstep.
    destruct (py_range_ascending r_min (last + 1) r_step Hstep) as [l [Hl Hin]].
    exists l. split; [exact Hl |]. intros r. rewrite Hin.
    split; intros [H1 H2]; (split; [lia | assumption]).
  - intros ->. reflexivity.
Qed.

Lemma cli_r_list_range_witness :
  0 < 4 /\
  exists r_list,
    cli_r_list 16 1 (Some 0) 4 = Done r_list /\
    r_list = [1; 5; 9; 13] /\
    forall r, In r r_list <-> 1 <= r <= 16 - 1 /\ (r - 1) mod 4 = 0.
Proof.
  split; [lia |].
  destruct (proj1 (cli_r_list_range 16 1 (Some 0) 4) ltac:(lia)) as [l [Hl Hin]].
  exists l. split; [exact Hl |]. split; [| exact Hin].
  vm_compute in Hl. congruence.
Defined.
